(** * deepcopy-gen: the deep-copy generator of k8s.io/gengo

    A shallow embedding of
    [vendor/k8s.io/gengo/examples/deepcopy-gen/generators/deepcopy.go]
    and the properties of its directive resolver, eligibility filter and
    type-driven synthesizer.

    Conventions of the embedding:
    - a [*types.Type] is an address into a memory of type nodes, or nil;
      the type graph may be cyclic;
    - [glog.Fatalf] ends the run: it is the outcome [Fatal]; a nil
      dereference or an index out of range is the outcome [Panic];
    - the snippet writer is a writer monad over the sequence of
      [sw.Do(format, args)] calls, each kept as the format string, written
      as in the source with its escapes, and its argument;
    - Go maps are [gmap]s; where the code ranges over a map the order of the
      visit is an explicit argument. *)

From Stdlib Require Import String Ascii List Bool Arith Lia NArith.
From stdpp Require Import base option list gmap strings sorting pretty.

Import ListNotations.
Local Open Scope string_scope.
Local Open Scope list_scope.

(** ** The type model of [k8s.io/gengo/types], as far as the generator reads it *)

(** A [*types.Type]: nil, or the address of a node. *)
Abbreviation addr := nat (only parsing).
Abbreviation ptr := (option nat) (only parsing).

Module Name.
Record t : Type := mk { Package : string; Name : string; Path : string }.
Definition eqb (a b : t) : bool :=
  String.eqb (Package a) (Package b) && String.eqb (Name a) (Name b)
  && String.eqb (Path a) (Path b).
End Name.

(** ** Outcomes of a run *)

(** The reasons for which the generator calls [glog.Fatalf]. *)
Inductive fatal : Type :=
| FoundTags (n : nat) (tagVals : list string)
    (* "Found %d %s tags: %q" *)
| UnsupportedParam (part : string)
    (* "Unsupported %s param: %q" *)
| PackageUnsupportedValue (pkg : string) (value : string)
    (* "Package %v: unsupported %s value: %q" *)
| TypeNotCopyable (t : Name.t)
    (* "Type %v requests deepcopy generation but is not copyable" *)
| TypeUnsupportedValue (t : Name.t) (value : string)
    (* "Type %v: unsupported %s value: %q" *).

(** The errors the generator returns to its caller. *)
Inductive error : Type :=
| Contradicting (v : string) (previous : bool)
    (* "contradicting %v value %q found to previous value %v" *)
| UnknownType (intf : string)
    (* "unknown type %q in %s tag of type %s" *)
| NotAnInterface (intf : string) (t : Name.t)
    (* "type %q in %s tag of type %s is not an interface, but: %q" *).

Inductive outcome (A : Type) : Type :=
| Ok (a : A)
| Fatal (e : fatal)
| Panic
| OutOfFuel.

Arguments Ok {A} a.
Arguments Fatal {A} e.
Arguments Panic {A}.
Arguments OutOfFuel {A}.

Definition bind {A B : Type} (m : outcome A) (f : A -> outcome B) : outcome B :=
  match m with
  | Ok a => f a
  | Fatal e => Fatal e
  | Panic => Panic
  | OutOfFuel => OutOfFuel
  end.

Declare Scope outcome_scope.
Delimit Scope outcome_scope with outcome.
Notation "'let*' x := m 'in' k" := (bind m (fun x => k))
  (at level 10, x name, m at level 100, k at level 200, only parsing) : outcome_scope.
Local Open Scope outcome_scope.

(** ** Go strings *)

Module strings.

(** [strings.Split(s, sep)] for a one-byte separator: the substrings between
  the separators, at least one of them. *)
Fixpoint Split (s : string) (sep : ascii) : list string :=
match s with
| EmptyString => [EmptyString]
| String c s' =>
    if Ascii.eqb c sep then EmptyString :: Split s' sep
    else match Split s' sep with
         | hd :: tl => String c hd :: tl
         | [] => [String c EmptyString]
         end
end.

(** [strings.SplitN(s, sep, 2)] for a one-byte separator: [s] cut at the
  first separator, or [s] alone when it has none. *)
Fixpoint SplitN2 (s : string) (sep : ascii) : list string :=
match s with
| EmptyString => [EmptyString]
| String c s' =>
    if Ascii.eqb c sep then [EmptyString; s']
    else match SplitN2 s' sep with
         | [hd] => [String c hd]
         | hd :: tl => String c hd :: tl
         | [] => [String c EmptyString]
         end
end.

(** [strings.HasPrefix(s, prefix)]. *)
Definition HasPrefix (s pre : string) : bool := String.prefix pre s.

(** [strings.HasSuffix(s, suffix)]:
    [len(s) >= len(suffix) && s[len(s)-len(suffix):] == suffix]. *)
Definition HasSuffix (s suffix : string) : bool :=
  Nat.leb (String.length suffix) (String.length s)
  && String.eqb
       (String.substring (String.length s - String.length suffix)
          (String.length suffix) s)
       suffix.

(** [strings.TrimPrefix(s, prefix)]: [s[len(prefix):]] when [s] has the
  prefix, [s] otherwise. *)
Definition TrimPrefix (s pre : string) : string :=
  if HasPrefix s pre
  then String.substring (String.length pre) (String.length s - String.length pre) s
  else s.

(** [strings.Contains(s, substr)]. *)
Fixpoint Contains (s substr : string) : bool :=
  String.prefix substr s
  || match s with
     | EmptyString => false
     | String _ s' => Contains s' substr
     end.

(** [strings.TrimRight(s, cutset)] for a cutset of one byte: [s] without
  its trailing occurrences of the byte. *)
Fixpoint TrimRight (s : string) (c : ascii) : string :=
  match s with
  | EmptyString => EmptyString
  | String a s' =>
      match TrimRight s' c with
      | EmptyString => if Ascii.eqb a c then EmptyString else String a EmptyString
      | r => String a r
      end
  end.

(** [strings.Join(elems, sep)]. *)
Fixpoint Join (elems : list string) (sep : string) : string :=
  match elems with
  | [] => EmptyString
  | [e] => e
  | e :: rest => e ++ sep ++ Join rest sep
  end.

End strings.

Module filepath.

(** The last element of a path whose trailing slashes are stripped: what
  follows its last slash. *)
Fixpoint lastElement (path : string) : string :=
  match path with
  | EmptyString => EmptyString
  | String c path' =>
      if strings.Contains path' "/" then lastElement path'
      else if Ascii.eqb c "/"%char then path'
      else path
  end.

(** [filepath.Base(path)] with the separator [/]: the last element of the
  path, its trailing slashes removed first; "." for the empty path and "/"
  for a path of slashes only. *)
Definition Base (path : string) : string :=
  if String.eqb path "" then "."
  else
    let path := lastElement (strings.TrimRight path "/"%char) in
    if String.eqb path "" then "/" else path.

End filepath.

Module Kind.
Inductive t : Type :=
| Builtin | Struct | Map | Pointer | Slice | Interface | Alias
| DeclarationOf | Unknown | Unsupported | Protobuf | Func.
Definition eqb (a b : t) : bool :=
  match a, b with
  | Builtin, Builtin | Struct, Struct | Map, Map | Pointer, Pointer
  | Slice, Slice | Interface, Interface | Alias, Alias
  | DeclarationOf, DeclarationOf | Unknown, Unknown
  | Unsupported, Unsupported | Protobuf, Protobuf | Func, Func => true
  | _, _ => false
  end.
End Kind.

Module Signature.
Record t : Type := mk {
  Receiver : ptr;
  Parameters : list ptr;
  Results : list ptr
}.
End Signature.

Module Member.
Record t : Type := mk { Name : string; Type_ : ptr }.
End Member.

Module Type_.
Record t : Type := mk {
  Name : Name.t;
  Kind : Kind.t;
  CommentLines : list string;
  SecondClosestCommentLines : list string;
  Members : list Member.t;
  Elem : ptr;
  Key : ptr;
  Underlying : ptr;
  Methods : gmap string ptr;
  Signature : option Signature.t
}.
(** [copied := *t; copied.Name = n]. *)
Definition withName (n : Name.t) (x : t) : t :=
  mk n (Kind x) (CommentLines x) (SecondClosestCommentLines x) (Members x)
     (Elem x) (Key x) (Underlying x) (Methods x) (Signature x).
End Type_.

(** A non-nil Go slice, or nil. *)
Abbreviation slice A := (option (list A)) (only parsing).
Definition elems {A : Type} (s : slice A) : list A :=
  match s with Some l => l | None => [] end.

(** The result of a function that returns [(value, error)]. *)
Inductive result (A : Type) : Type :=
| Success (a : A)
| Failure (err : error).
Arguments Success {A} a.
Arguments Failure {A} err.

(** ** Snippets *)

(** The argument of one [sw.Do] call. *)
Inductive arg : Type :=
| ArgNil
| ArgType (t : Type_.t)
| ArgsFromType (ts : list Type_.t)
| ArgMember (type : Type_.t) (kind : Kind.t) (name : string).

Record snippet : Type := Do_ { format : string; args : arg }.

(** The writer over the emitted snippets. *)
Definition Gen (A : Type) : Type := outcome (A * list snippet).

Definition gret {A : Type} (a : A) : Gen A := Ok (a, []).
Definition gbind {A B : Type} (m : Gen A) (f : A -> Gen B) : Gen B :=
  match m with
  | Ok (a, w) =>
      match f a with
      | Ok (b, w') => Ok (b, w ++ w')
      | Fatal e => Fatal e
      | Panic => Panic
      | OutOfFuel => OutOfFuel
      end
  | Fatal e => Fatal e
  | Panic => Panic
  | OutOfFuel => OutOfFuel
  end.
Definition lift {A : Type} (m : outcome A) : Gen A :=
  match m with
  | Ok a => Ok (a, [])
  | Fatal e => Fatal e
  | Panic => Panic
  | OutOfFuel => OutOfFuel
  end.
(** [sw.Do(format, args)]. *)
Definition Do (fmt : string) (a : arg) : Gen unit := Ok (tt, [Do_ fmt a]).
Declare Scope gen_scope.
Delimit Scope gen_scope with gen.
Notation "'let+' x := m 'in' k" := (gbind m (fun x => k))
  (at level 10, x name, m at level 100, k at level 200, only parsing) : gen_scope.
Notation "m ;;; k" := (gbind m (fun _ => k))
  (at level 100, k at level 200, right associativity, only parsing) : gen_scope.
Local Open Scope gen_scope.

(** ** The generator *)

(** This is the comment tag that carries parameters for deep-copy generation. *)
Definition tagName : string := "k8s:deepcopy-gen".
Definition interfacesTagName : string := tagName ++ ":interfaces".
Definition interfacesNonPointerTagName : string := tagName ++ ":nonpointer-interfaces".

(** Known values for the comment tag. *)
Definition tagValuePackage : string := "package".

(** [tagValue] holds parameters from a [tagName] tag. *)
Record tagValue : Type := mkTagValue { value : string; register : bool }.

(** A package of the universe, as far as [Packages] reads it; [Types] lists
    the values of the map [pkg.Types] in the order in which the range loop
    of the run visits them. *)
Record Package : Type := mkPackage {
  Path : string;
  Comments : list string;
  Types : list ptr
}.

(** [CustomArgs] is used by the framework to pass args specific to this
    generator. *)
Record CustomArgs : Type := mkCustomArgs {
  BoundingDirs : slice string (* Only deal with types rooted under these dirs. *)
}.

(** [genDeepCopy] produces a file with autogenerated deep-copy functions. *)
Record genDeepCopy : Type := mkGenDeepCopy {
  targetPackage : string;
  boundingDirs : list string;
  allTypes : bool;
  registerTypes : bool;
  typesForInit : list Type_.t
}.

Definition NewGenDeepCopy (targetPackage : string) (boundingDirs : list string)
    (allTypes registerTypes : bool) : genDeepCopy :=
  mkGenDeepCopy targetPackage boundingDirs allTypes registerTypes [].

(** ** A small universe

    The closed lemmas at the end of the file run the generator on the
    following inputs. *)

Module Fixtures.

(** A comment scanner: a line [<marker><key>=<value>] gives [value] to
    [key]. *)
Definition lineTags (marker : string) (lines : list string) (key : string)
    : slice string :=
  let pre := (marker ++ key ++ "=")%string in
  match
    flat_map
      (fun line =>
         if String.prefix pre line
         then [String.substring (String.length pre)
                 (String.length line - String.length pre) line]
         else [])
      lines
  with
  | [] => None
  | vs => Some vs
  end.

(** Builtins are assignable, nothing else is. *)
Definition builtinAssignable (t : Type_.t) : bool :=
  Kind.eqb (Type_.Kind t) Kind.Builtin.

Definition noAnonymousStruct (t : Type_.t) : bool := false.

(** A name is private when it is empty or starts with a lower-case letter. *)
Definition lowerCasePrivate (name : string) : bool :=
  match name with
  | EmptyString => true
  | String c _ => Nat.leb 97 (nat_of_ascii c) && Nat.leb (nat_of_ascii c) 122
  end.

Definition pkgPath : string := "example.com/pkg".

Definition named (name : string) : Name.t := Name.mk pkgPath name "".
Definition unnamed (name : string) : Name.t := Name.mk "" name "".

Definition node (n : Name.t) (k : Kind.t) (comments : list string)
    (members : list Member.t) (elem key underlying : ptr)
    (methods : gmap string ptr) (sig : option Signature.t) : Type_.t :=
  Type_.mk n k comments [] members elem key underlying methods sig.

Definition tString : Type_.t :=
  node (unnamed "string") Kind.Builtin [] [] None None None ∅ None.
(** [type Node struct { Next *Node }], opted in. *)
Definition tNode : Type_.t :=
  node (named "Node") Kind.Struct ["+k8s:deepcopy-gen=true"]
    [Member.mk "Next" (Some 2)] None None None ∅ None.
Definition tPtrNode : Type_.t :=
  node (unnamed "*example.com/pkg.Node") Kind.Pointer [] [] (Some 1) None None ∅ None.
Definition tMapStringString : Type_.t :=
  node (unnamed "map[string]string") Kind.Map [] [] (Some 0) (Some 0) None ∅ None.
Definition tMapOfMaps : Type_.t :=
  node (unnamed "map[string]map[string]string") Kind.Map [] [] (Some 3) (Some 0) None ∅ None.
(** [type Holder struct { M map[string]map[string]string }]. *)
Definition tHolder : Type_.t :=
  node (named "Holder") Kind.Struct [] [Member.mk "M" (Some 4)] None None None ∅ None.
Definition tCloneable : Type_.t :=
  node (named "Cloneable") Kind.Interface [] [] None None None ∅ None.
Definition tRunnable : Type_.t :=
  node (named "Runnable") Kind.Interface [] [] None None None ∅ None.
(** [type Shape struct { Owner *string; Tags map[*Node]string; Label string }],
    declared to implement two interfaces, one of them twice. *)
Definition tShape : Type_.t :=
  node (named "Shape") Kind.Struct
    ["+k8s:deepcopy-gen:interfaces=example.com/pkg.Runnable,example.com/pkg.Cloneable";
     "+k8s:deepcopy-gen:interfaces=example.com/pkg.Runnable"]
    [Member.mk "Owner" (Some 9); Member.mk "Tags" (Some 8); Member.mk "Label" (Some 0)]
    None None None ∅ None.
Definition tMapPtrKey : Type_.t :=
  node (unnamed "map[*example.com/pkg.Node]string") Kind.Map [] [] (Some 0) (Some 2) None ∅ None.
Definition tPtrString : Type_.t :=
  node (unnamed "*string") Kind.Pointer [] [] (Some 0) None None ∅ None.
(** [type Labels map[string]string], opted in although it is no struct. *)
Definition tLabels : Type_.t :=
  node (named "Labels") Kind.Alias ["+k8s:deepcopy-gen=true"] [] None None (Some 3) ∅ None.
(** [type Custom struct { Next *Node }] with
    [func (c *Custom) DeepCopy() Custom]. *)
Definition tCustom : Type_.t :=
  node (named "Custom") Kind.Struct [] [Member.mk "Next" (Some 2)] None None None
    {[ "DeepCopy" := Some 12 ]} None.
Definition tCustomDeepCopy : Type_.t :=
  node (unnamed "func (*example.com/pkg.Custom) DeepCopy() example.com/pkg.Custom")
    Kind.Func [] [] None None None ∅
    (Some (Signature.mk (Some 13) [] [Some 11])).
Definition tPtrCustom : Type_.t :=
  node (unnamed "*example.com/pkg.Custom") Kind.Pointer [] [] (Some 11) None None ∅ None.
(** [type Plain struct { Label string }] with a directive of value
    "package". *)
Definition tPlain : Type_.t :=
  node (named "Plain") Kind.Struct ["+k8s:deepcopy-gen=package"]
    [Member.mk "Label" (Some 0)] None None None ∅ None.
(** [type Bare struct { Label string }], without directive. *)
Definition tBare : Type_.t :=
  node (named "Bare") Kind.Struct [] [Member.mk "Label" (Some 0)] None None None ∅ None.

Definition tSliceOfSlices : Type_.t :=
  node (unnamed "[][]string") Kind.Slice [] [] (Some 18) None None ∅ None.
Definition tSliceOfStrings : Type_.t :=
  node (unnamed "[]string") Kind.Slice [] [] (Some 0) None None ∅ None.
Definition tSliceOfPtrs : Type_.t :=
  node (unnamed "[]*string") Kind.Slice [] [] (Some 9) None None ∅ None.
Definition tMapOfPtrs : Type_.t :=
  node (unnamed "map[string]*string") Kind.Map [] [] (Some 9) (Some 0) None ∅ None.
(** [type Grid struct { Rows [][]string; Cells []*string; Index map[string]*string;
    Next *Grid; Owner *string }]. *)
Definition tGrid : Type_.t :=
  node (named "Grid") Kind.Struct []
    [Member.mk "Rows" (Some 17); Member.mk "Cells" (Some 20);
     Member.mk "Index" (Some 23); Member.mk "Next" (Some 21);
     Member.mk "Owner" (Some 9)]
    None None None ∅ None.
Definition tPtrGrid : Type_.t :=
  node (unnamed "*example.com/pkg.Grid") Kind.Pointer [] [] (Some 19) None None ∅ None.
(** [type Manual struct { Label string }] with a method [DeepCopyInto]. *)
Definition tManual : Type_.t :=
  node (named "Manual") Kind.Struct [] [Member.mk "Label" (Some 0)] None None None
    {[ "DeepCopyInto" := Some 12 ]} None.

Definition mem (a : addr) : Type_.t :=
  match a with
  | 1 => tNode
  | 2 => tPtrNode
  | 3 => tMapStringString
  | 4 => tMapOfMaps
  | 5 => tHolder
  | 6 => tCloneable
  | 7 => tShape
  | 8 => tMapPtrKey
  | 9 => tPtrString
  | 10 => tLabels
  | 11 => tCustom
  | 12 => tCustomDeepCopy
  | 13 => tPtrCustom
  | 14 => tPlain
  | 15 => tBare
  | 16 => tRunnable
  | 17 => tSliceOfSlices
  | 18 => tSliceOfStrings
  | 19 => tGrid
  | 20 => tSliceOfPtrs
  | 21 => tPtrGrid
  | 22 => tManual
  | 23 => tMapOfPtrs
  | _ => tString
  end.

(** A fully qualified name [pkg.Name] splits at its last dot. *)
Fixpoint splitLastDot (s : string) : option (string * string) :=
  match s with
  | EmptyString => None
  | String c s' =>
      match splitLastDot s' with
      | Some (pre, post) => Some (String c pre, post)
      | None => if Ascii.eqb c "."%char then Some (EmptyString, s') else None
      end
  end.
Definition parseName (s : string) : Name.t :=
  match splitLastDot s with
  | Some (pkg, name) => Name.mk pkg name ""
  | None => Name.mk "" s ""
  end.
Definition nameString (n : Name.t) : string :=
  if String.eqb (Name.Package n) "" then Name.Name n
  else (Name.Package n ++ "." ++ Name.Name n)%string.
Definition universeType (n : Name.t) : ptr :=
  if Name.eqb n (named "Cloneable") then Some 6
  else if Name.eqb n (named "Runnable") then Some 16
  else if Name.eqb n (named "Node") then Some 1
  else None.

(** A range loop that visits the map in the order of its keys' encoding. *)
Definition canonicalRange (m : gmap string addr) : list addr := (map_to_list m).*2.

Definition pkgGenerateAll : Package :=
  mkPackage pkgPath ["+k8s:deepcopy-gen=package"] [Some 10; Some 1].
Definition pkgOptIn : Package := mkPackage pkgPath [] [Some 15; Some 1; Some 10].
Definition pkgOptInBadFirst : Package := mkPackage pkgPath [] [Some 15; Some 10; Some 1].
Definition pkgTaggedTrue : Package :=
  mkPackage pkgPath ["+k8s:deepcopy-gen=true"] [Some 1].

Definition generateAll : genDeepCopy := NewGenDeepCopy pkgPath [pkgPath] true false.
Definition optInOnly : genDeepCopy := NewGenDeepCopy pkgPath [pkgPath] false false.

(** [type Broken struct { Label string }], declared to implement an
    interface that the universe does not have. *)
Definition tBroken : Type_.t :=
  node (named "Broken") Kind.Struct
    ["+k8s:deepcopy-gen:interfaces=example.com/pkg.Runnable,example.com/pkg.Missing"]
    [Member.mk "Label" (Some 0)] None None None ∅ None.
(** [type Wrong struct { Label string }], declared to implement a struct. *)
Definition tWrong : Type_.t :=
  node (named "Wrong") Kind.Struct
    ["+k8s:deepcopy-gen:interfaces=example.com/pkg.Runnable,example.com/pkg.Node";
     "+k8s:deepcopy-gen:nonpointer-interfaces=true";
     "+k8s:deepcopy-gen:nonpointer-interfaces=false"]
    [Member.mk "Label" (Some 0)] None None None ∅ None.
Definition tMapOfNodes : Type_.t :=
  node (unnamed "map[string]example.com/pkg.Node") Kind.Map [] [] (Some 1) (Some 0) None ∅ None.
Definition tSliceOfNodes : Type_.t :=
  node (unnamed "[]example.com/pkg.Node") Kind.Slice [] [] (Some 1) None None ∅ None.
(** [type Tagged struct { L Labels }]. *)
Definition tTagged : Type_.t :=
  node (named "Tagged") Kind.Struct [] [Member.mk "L" (Some 10)] None None None ∅ None.
(** [type Value struct { Label string }], declared to implement an
    interface with a non-pointer receiver. *)
Definition tValue : Type_.t :=
  node (named "Value") Kind.Struct
    ["+k8s:deepcopy-gen:interfaces=example.com/pkg.Cloneable";
     "+k8s:deepcopy-gen:nonpointer-interfaces=true"]
    [Member.mk "Label" (Some 0)] None None None ∅ None.
(** A map and a slice of maps whose keys are pointers. *)
Definition tMapOfKeyed : Type_.t :=
  node (unnamed "map[string]map[*example.com/pkg.Node]string") Kind.Map [] []
    (Some 8) (Some 0) None ∅ None.
Definition tSliceOfKeyed : Type_.t :=
  node (unnamed "[]map[*example.com/pkg.Node]string") Kind.Slice [] []
    (Some 8) None None ∅ None.

(** A struct of another package with two directives. *)
Definition tTwice : Type_.t :=
  node (Name.mk "example.com/other" "Twice" "") Kind.Struct
    ["+k8s:deepcopy-gen=true"; "+k8s:deepcopy-gen=false"]
    [Member.mk "Next" (Some 2)] None None None ∅ None.
Definition tMapOfTwice : Type_.t :=
  node (unnamed "map[string]example.com/other.Twice") Kind.Map [] [] (Some 24) (Some 0)
    None ∅ None.
(** [type Odd struct { Label string }] with
    [func (o Odd) DeepCopy(deep bool) Odd]. *)
Definition tOdd : Type_.t :=
  node (named "Odd") Kind.Struct [] [Member.mk "Label" (Some 0)] None None None
    {[ "DeepCopy" := Some 25 ]} None.
Definition tOddDeepCopy : Type_.t :=
  node (unnamed "func (example.com/pkg.Odd) DeepCopy(bool) example.com/pkg.Odd")
    Kind.Func [] [] None None None ∅
    (Some (Signature.mk (Some 26) [Some 0] [Some 26])).

(** The memory with the three nodes above. *)
Definition mem' (a : addr) : Type_.t :=
  match a with
  | 24 => tTwice
  | 25 => tOddDeepCopy
  | 26 => tOdd
  | _ => mem a
  end.

Definition pkgOther : Package := mkPackage "example.com/other" [] [Some 15].
Definition pkgRegister : Package :=
  mkPackage "example.com/api" ["+k8s:deepcopy-gen=package,register"] [Some 1].

(** A universe of three packages. *)
Definition universe (i : string) : option Package :=
  if String.eqb i pkgPath then Some pkgOptIn
  else if String.eqb i "example.com/other" then Some pkgOther
  else if String.eqb i "example.com/api" then Some pkgRegister
  else None.

End Fixtures.

Section Generator.

(** The memory the [*types.Type] pointers point into. *)
Variable mem : addr -> Type_.t.

(** [types.ExtractCommentTags(marker, lines)[key]]: the values of the tag
    [key] in [lines], nil when the tag does not occur. *)
Variable ExtractCommentTags : string -> list string -> string -> slice string.

(** The methods [IsAssignable] and [IsAnonymousStruct] of [types.Type]. *)
Variable IsAssignable : Type_.t -> bool.
Variable IsAnonymousStruct : Type_.t -> bool.

(** [namer.IsPrivateGoName]. *)
Variable IsPrivateGoName : string -> bool.

(** [types.ParseFullyQualifiedName], [context.Universe.Type] (after
    [context.AddDir] of the package of the name) and [types.Name.String]. *)
Variable ParseFullyQualifiedName : string -> Name.t.
Variable UniverseType : Name.t -> ptr.
Variable NameString : Name.t -> string.

Definition deref (p : ptr) : outcome Type_.t :=
  match p with
  | Some a => Ok (mem a)
  | None => Panic
  end.

(** [t.String()]. *)
Definition TypeString (t : Type_.t) : string := NameString (Type_.Name t).

Fixpoint extractTagParams (parts : list string) (register : bool) : outcome bool :=
  match parts with
  | [] => Ok register
  | part :: rest =>
      match strings.SplitN2 part "="%char with
      | [] => Panic
      | k :: kv1 =>
          let v := match kv1 with [v] => v | _ => "" end in
          if String.eqb k "register" then
            extractTagParams rest (if negb (String.eqb v "false") then true else register)
          else Fatal (UnsupportedParam part)
      end
  end.

Definition extractTag (comments : list string) : outcome (option tagValue) :=
  match ExtractCommentTags "+" comments tagName with
  | None =>
      (* No match for the tag. *)
      Ok None
  | Some tagVals =>
      (* If there are multiple values, abort. *)
      if Nat.ltb 1 (length tagVals) then Fatal (FoundTags (length tagVals) tagVals)
      else
        match tagVals with
        | [] => Panic
        | tagVals0 :: _ =>
            (* Get the primary value. *)
            match strings.Split tagVals0 ","%char with
            | [] => Panic
            | parts0 :: parts1 =>
                (* Parse extra arguments. *)
                let* r := extractTagParams parts1 false in
                Ok (Some (mkTagValue parts0 r))
            end
        end
  end.

(** [ttag != nil && ttag.value == v]. *)
Definition tagIs (ttag : option tagValue) (v : string) : bool :=
  match ttag with
  | Some tag => String.eqb (value tag) v
  | None => false
  end.

Definition copyableType (t : Type_.t) : outcome bool :=
  (* If the type opts out of copy-generation, stop. *)
  let* ttag := extractTag (Type_.CommentLines t) in
  if tagIs ttag "false" then Ok false
  else if negb (Kind.eqb (Type_.Kind t) Kind.Struct) then Ok false
  (* Also, filter out private types. *)
  else if IsPrivateGoName (Name.Name (Type_.Name t)) then Ok false
  else Ok true.

(** The scan of [pkg.Types] in [Packages] for a type that explicitly wants
    generation: the value of [pkgNeedsGeneration] after the loop. *)
Fixpoint scanTypes (ts : list ptr) : outcome bool :=
  match ts with
  | [] => Ok false
  | p :: rest =>
      let* t := deref p in
      let* ttag := extractTag (Type_.CommentLines t) in
      if tagIs ttag "true" then
        let* c := copyableType t in
        if negb c then Fatal (TypeNotCopyable (Type_.Name t))
        else Ok true
      else scanTypes rest
  end.

(** The body of the loop of [Packages] for the input [i] whose package is
    [pkg]: the generator of the package that [Packages] appends, if any.
    The output path, the header and the package name are not part of the
    model. *)
Definition considerPackage (bounding : list string) (i : string) (pkg : Package)
    : outcome (option genDeepCopy) :=
  let* ptag := extractTag (Comments pkg) in
  let* pt :=
    match ptag with
    | Some tag =>
        if negb (String.eqb (value tag) tagValuePackage)
        then Fatal (PackageUnsupportedValue i (value tag))
        else Ok (value tag, register tag)
    | None => Ok ("", false)
    end in
  let ptagValue := fst pt in
  let ptagRegister := snd pt in
  (* If the pkg-scoped tag says to generate, we can skip scanning types. *)
  let* pkgNeedsGeneration :=
    (if String.eqb ptagValue tagValuePackage then Ok true
     else
       (* If the pkg-scoped tag did not exist, scan all types for one that
          explicitly wants generation. *)
       scanTypes (Types pkg)) in
  if (pkgNeedsGeneration : bool) then
    Ok (Some (NewGenDeepCopy (Path pkg) bounding
                (String.eqb ptagValue tagValuePackage) ptagRegister))
  else Ok None.

(** [Packages]: [universe] is [context.Universe], [inputs] the elements of
    the set of the input packages, each once, in the order in which the
    range over the set visits them, [bounding] the bounding directories
    without their trailing slashes. *)
Fixpoint Packages (universe : string -> option Package) (bounding : list string)
    (inputs : list string) : outcome (list genDeepCopy) :=
  match inputs with
  | [] => Ok []
  | i :: rest =>
      match universe i with
      | None =>
          (* If the input had no Go files, for example. *)
          Packages universe bounding rest
      | Some pkg =>
          let* r := considerPackage bounding i pkg in
          let* packages := Packages universe bounding rest in
          Ok (match r with Some g => g :: packages | None => packages end)
      end
  end.

Definition Filter (g : genDeepCopy) (t : Type_.t) : outcome (bool * genDeepCopy) :=
  (* Filter out types not being processed or not copyable within the package. *)
  let* enabled :=
    (if allTypes g then Ok true
     else let* ttag := extractTag (Type_.CommentLines t) in
          Ok (tagIs ttag "true")) in
  if negb enabled then Ok (false, g)
  else
    let* c := copyableType t in
    if negb c then Ok (false, g)
    else Ok (true, mkGenDeepCopy (targetPackage g) (boundingDirs g) (allTypes g)
                     (registerTypes g) (typesForInit g ++ [t])).

Definition isRootedUnder (pkg : string) (roots : list string) : bool :=
  (* Add trailing / to avoid false matches, e.g. foo/bar vs foo/barn. *)
  let pkg := (pkg ++ "/")%string in
  existsb (fun root => strings.HasPrefix pkg (root ++ "/")%string) roots.

Definition copyableAndInBounds (g : genDeepCopy) (t : Type_.t) : outcome bool :=
  let* c := copyableType t in
  if negb c then Ok false
  (* Only packages within the restricted range can be processed. *)
  else if negb (isRootedUnder (Name.Package (Type_.Name t)) (boundingDirs g)) then Ok false
  else Ok true.

(** [hasDeepCopyMethod] returns true if an appropriate DeepCopy() method is
    defined for the given type.  The keys of [t.Methods] are unique, so the
    range loop reaches its [return]s at the entry of "DeepCopy" only. *)
Definition hasDeepCopyMethod (t : Type_.t) : outcome bool :=
  match Type_.Methods t !! "DeepCopy" with
  | None => Ok false
  | Some mtp =>
      let* mt := deref mtp in
      match Type_.Signature mt with
      | None => Panic
      | Some sig =>
          if negb (Nat.eqb (length (Signature.Parameters sig)) 0) then Ok false
          else if negb (Nat.eqb (length (Signature.Results sig)) 1) then Ok false
          else
            match Signature.Results sig with
            | [] => Panic
            | r0p :: _ =>
                let* r0 := deref r0p in
                if negb (Name.eqb (Type_.Name r0) (Type_.Name t)) then Ok false
                else Ok true
            end
      end
  end.

Definition needsGeneration (g : genDeepCopy) (t : Type_.t) : outcome bool :=
  let* tag := extractTag (Type_.CommentLines t) in
  let* tv :=
    match tag with
    | Some tg =>
        if negb (String.eqb (value tg) "true") && negb (String.eqb (value tg) "false")
        then Fatal (TypeUnsupportedValue (Type_.Name t) (value tg))
        else Ok (value tg)
    | None => Ok ""
    end in
  if allTypes g && String.eqb tv "false" then
    (* The whole package is being generated, but this type has opted out. *)
    Ok false
  else if negb (allTypes g) && negb (String.eqb tv "true") then
    (* The whole package is NOT being generated, and this type has NOT opted in. *)
    Ok false
  else Ok true.

Definition extractInterfacesTag (comments : list string) : list string :=
  let values := ExtractCommentTags "+" comments interfacesTagName in
  flat_map
    (fun v =>
       if Nat.eqb (String.length v) 0 then []
       else filter (fun intf => negb (String.eqb intf "")) (strings.Split v ","%char))
    (elems values).

Definition extractNonPointerInterfaces (comments : list string) : result bool :=
  let values := ExtractCommentTags "+" comments interfacesNonPointerTagName in
  match elems values with
  | [] => Success false
  | values0 :: _ =>
      let result := String.eqb values0 "true" in
      match List.find (fun v => negb (Bool.eqb (String.eqb v "true") result)) (elems values) with
      | Some v => Failure (Contradicting v result)
      | None => Success result
      end
  end.

(** The loop of [deepCopyableInterfaces] over the declared names.  The
    calls [c.AddDir] and [g.imports.AddType] only feed the loader and the
    import tracker; they are left out. *)
Fixpoint resolveInterfaces (intfs : list string) (ts : list addr)
    : result (list addr) :=
  match intfs with
  | [] => Success ts
  | intf :: rest =>
      let n := ParseFullyQualifiedName intf in
      match UniverseType n with
      | None => Failure (UnknownType intf)
      | Some intfT =>
          if negb (Kind.eqb (Type_.Kind (mem intfT)) Kind.Interface)
          then Failure (NotAnInterface intf n)
          else resolveInterfaces rest (ts ++ [intfT])
      end
  end.

Definition deepCopyableInterfaces (t : Type_.t) : result (list addr) :=
  if negb (Kind.eqb (Type_.Kind t) Kind.Struct) then Success []
  else
    let intfs :=
      extractInterfacesTag (Type_.SecondClosestCommentLines t ++ Type_.CommentLines t) in
    resolveInterfaces intfs [].

(** [TypeSlice]: [Less] compares the elements by their [String()]. *)
Definition Less (a b : addr) : bool :=
  String.ltb (TypeString (mem a)) (TypeString (mem b)).

(** [sort.Sort] on a [TypeSlice], as an insertion sort by [Less]. *)
Fixpoint insertSorted (x : addr) (l : list addr) : list addr :=
  match l with
  | [] => [x]
  | y :: l' => if Less x y then x :: y :: l' else y :: insertSorted x l'
  end.
Definition Sort (s : list addr) : list addr :=
  fold_left (fun acc x => insertSorted x acc) s [].

(** The map [set] of [DeepCopyableInterfaces], filled in the order of [ts]. *)
Definition interfaceSet (ts : list addr) : gmap string addr :=
  fold_left (fun set a => <[TypeString (mem a) := a]> set) ts ∅.

(** The values of a map in the order in which a range loop of the run
    visits them. *)
Variable rangeValues : gmap string addr -> list addr.

(** [DeepCopyableInterfaces] returns the interface types to implement and
    whether they apply to a non-pointer receiver. *)
Definition DeepCopyableInterfaces (t : Type_.t) : result (list addr * bool) :=
  match deepCopyableInterfaces t with
  | Failure err => Failure err
  | Success ts =>
      let set := interfaceSet ts in
      let result := rangeValues set in
      (* we need a stable sorting because it determines the order in generation *)
      let result := Sort result in
      match extractNonPointerInterfaces
              (Type_.SecondClosestCommentLines t ++ Type_.CommentLines t) with
      | Failure err => Failure err
      | Success nonPointerReceiver => Success (result, nonPointerReceiver)
      end
  end.

(** [for _, x := range l { f(x) }] in the writer. *)
Fixpoint forEach {A : Type} (l : list A) (f : A -> Gen unit) : Gen unit :=
  match l with
  | [] => gret tt
  | x :: l' => f x ;;; forEach l' f
  end.

Definition doBuiltin (t : Type_.t) : Gen unit :=
  Do "*out = *in\n" ArgNil.

Definition doUnknown (t : Type_.t) : Gen unit :=
  Do "// FIXME: Type $.|raw$ is unsupported.\n" (ArgType t).

Definition doInterface (t : Type_.t) : Gen unit :=
  (* TODO: Add support for interfaces. *)
  doUnknown t.

Definition doAlias (t : Type_.t) : Gen unit :=
  (* TODO: Add support for aliases. *)
  doUnknown t.

Definition doMap (g : genDeepCopy) (t : Type_.t) : Gen unit :=
  Do "*out = make($.|raw$, len(*in))\n" (ArgType t) ;;;
  let+ key := lift (deref (Type_.Key t)) in
  if IsAssignable key then
    let+ elem := lift (deref (Type_.Elem t)) in
    let+ h := lift (hasDeepCopyMethod elem) in
    if h then
      Do "for key, val := range *in {\n" ArgNil ;;;
      Do "(*out)[key] = val.DeepCopy()\n" ArgNil ;;;
      Do "}\n" ArgNil
    else if IsAnonymousStruct elem then
      Do "for key := range *in {\n" ArgNil ;;;
      Do "(*out)[key] = struct{}{}\n" ArgNil ;;;
      Do "}\n" ArgNil
    else if IsAssignable elem then
      Do "for key, val := range *in {\n" ArgNil ;;;
      Do "(*out)[key] = val\n" ArgNil ;;;
      Do "}\n" ArgNil
    else if Kind.eqb (Type_.Kind elem) Kind.Interface then
      Do "for key, val := range *in {\n" ArgNil ;;;
      Do "if val == nil {(*out)[key]=nil} else {\n" ArgNil ;;;
      Do ("(*out)[key] = val.DeepCopy" ++ Name.Name (Type_.Name elem) ++ "()\n")%string
         (ArgType t) ;;;
      Do "}}\n" ArgNil
    else
      Do "for key, val := range *in {\n" ArgNil ;;;
      (let+ c := lift (copyableAndInBounds g elem) in
       if c then
         Do "newVal := new($.|raw$)\n" (ArgType elem) ;;;
         Do "val.DeepCopyInto(newVal)\n" ArgNil ;;;
         Do "(*out)[key] = *newVal\n" ArgNil
       else
         let+ sliceOfBuiltin := lift
           (if Kind.eqb (Type_.Kind elem) Kind.Slice then
              let* ee := deref (Type_.Elem elem) in
              Ok (Kind.eqb (Type_.Kind ee) Kind.Builtin)
            else Ok false) in
         if sliceOfBuiltin then
           Do "if val==nil { (*out)[key]=nil } else {\n" ArgNil ;;;
           Do "(*out)[key] = make($.|raw$, len(val))\n" (ArgType elem) ;;;
           Do "copy((*out)[key], val)\n" ArgNil ;;;
           Do "}\n" ArgNil
         else
           let+ aliasOfSliceOfBuiltin := lift
             (if Kind.eqb (Type_.Kind elem) Kind.Alias then
                let* u := deref (Type_.Underlying elem) in
                if Kind.eqb (Type_.Kind u) Kind.Slice then
                  let* ue := deref (Type_.Elem u) in
                  Ok (Kind.eqb (Type_.Kind ue) Kind.Builtin)
                else Ok false
              else Ok false) in
           if aliasOfSliceOfBuiltin then
             Do "(*out)[key] = make($.|raw$, len(val))\n" (ArgType elem) ;;;
             Do "copy((*out)[key], val)\n" ArgNil
           else if Kind.eqb (Type_.Kind elem) Kind.Pointer then
             Do "if val==nil { (*out)[key]=nil } else {\n" ArgNil ;;;
             Do "(*out)[key] = new($.Elem|raw$)\n" (ArgType elem) ;;;
             Do "val.DeepCopyInto((*out)[key])\n" ArgNil ;;;
             Do "}\n" ArgNil
           else
             Do "(*out)[key] = *val.DeepCopy()\n" (ArgType elem)) ;;;
      Do "}\n" ArgNil
  else
    (* TODO: Implement it when necessary. *)
    Do "for range *in {\n" ArgNil ;;;
    Do "// FIXME: Copying unassignable keys unsupported $.|raw$\n" (ArgType key) ;;;
    Do "}\n" ArgNil.

Definition doSlice (generateFor : Type_.t -> Gen unit) (t : Type_.t) : Gen unit :=
  let+ h := lift (hasDeepCopyMethod t) in
  if h then Do "*out = in.DeepCopy()\n" ArgNil
  else
    Do "*out = make($.|raw$, len(*in))\n" (ArgType t) ;;;
    let+ elem := lift (deref (Type_.Elem t)) in
    let+ he := lift (hasDeepCopyMethod elem) in
    if he then
      Do "for i := range *in {\n" ArgNil ;;;
      Do "(*out)[i] = (*in)[i].DeepCopy()\n" ArgNil ;;;
      Do "}\n" ArgNil
    else if Kind.eqb (Type_.Kind elem) Kind.Builtin || IsAssignable elem then
      Do "copy(*out, *in)\n" ArgNil
    else
      Do "for i := range *in {\n" ArgNil ;;;
      (if Kind.eqb (Type_.Kind elem) Kind.Slice then
         Do "if (*in)[i] != nil {\n" ArgNil ;;;
         Do "in, out := &(*in)[i], &(*out)[i]\n" ArgNil ;;;
         generateFor elem ;;;
         Do "}\n" ArgNil
       else
         let+ he' := lift (hasDeepCopyMethod elem) in
         if he' then
           Do "(*out)[i] = (*in)[i].DeepCopy()\n" ArgNil
         else if Kind.eqb (Type_.Kind elem) Kind.Interface then
           Do "if (*in)[i] == nil {(*out)[i]=nil} else {\n" ArgNil ;;;
           Do ("(*out)[i] = (*in)[i].DeepCopy" ++ Name.Name (Type_.Name elem) ++ "()\n")%string
              (ArgType t) ;;;
           Do "}\n" ArgNil
         else if Kind.eqb (Type_.Kind elem) Kind.Pointer then
           Do "if (*in)[i]==nil { (*out)[i]=nil } else {\n" ArgNil ;;;
           Do "(*out)[i] = new($.Elem|raw$)\n" (ArgType elem) ;;;
           Do "(*in)[i].DeepCopyInto((*out)[i])\n" ArgNil ;;;
           Do "}\n" ArgNil
         else if Kind.eqb (Type_.Kind elem) Kind.Struct then
           Do "(*in)[i].DeepCopyInto(&(*out)[i])\n" ArgNil
         else
           Do "(*out)[i] = (*in)[i].DeepCopy()\n" ArgNil) ;;;
      Do "}\n" ArgNil.

(** The member type that the loop of [doStruct] works on: an alias is
    replaced by a copy of its underlying type that keeps the name of the
    alias. *)
Definition unwrapAlias (t : Type_.t) : outcome Type_.t :=
  if Kind.eqb (Type_.Kind t) Kind.Alias then
    let* copied := deref (Type_.Underlying t) in
    Ok (Type_.withName (Type_.Name t) copied)
  else Ok t.

(** The body of the loop of [doStruct] over [t.Members]. *)
Definition doStructMember (generateFor : Type_.t -> Gen unit) (m : Member.t) : Gen unit :=
  let+ t := lift (deref (Member.Type_ m)) in
  let+ hasMethod := lift (hasDeepCopyMethod t) in
  let+ t := lift (unwrapAlias t) in
  let args := ArgMember t (Type_.Kind t) (Member.Name m) in
  match Type_.Kind t with
  | Kind.Builtin =>
      if hasMethod then Do "out.$.name$ = in.$.name$.DeepCopy()\n" args
      else
        (* the initial *out = *in was enough *)
        gret tt
  | Kind.Map | Kind.Slice | Kind.Pointer =>
      if hasMethod then
        Do "if in.$.name$ != nil {\n" args ;;;
        Do "out.$.name$ = in.$.name$.DeepCopy()\n" args ;;;
        Do "}\n" ArgNil
      else
        (* Fixup non-nil reference-semantic types. *)
        Do "if in.$.name$ != nil {\n" args ;;;
        Do "in, out := &in.$.name$, &out.$.name$\n" args ;;;
        generateFor t ;;;
        Do "}\n" ArgNil
  | Kind.Struct =>
      if hasMethod then Do "out.$.name$ = in.$.name$.DeepCopy()\n" args
      else if IsAssignable t then Do "out.$.name$ = in.$.name$\n" args
      else Do "in.$.name$.DeepCopyInto(&out.$.name$)\n" args
  | Kind.Interface =>
      Do "if in.$.name$ == nil {out.$.name$=nil} else {\n" args ;;;
      Do ("out.$.name$ = in.$.name$.DeepCopy" ++ Name.Name (Type_.Name t) ++ "()\n")%string
         args ;;;
      Do "}\n" ArgNil
  | _ => Do "out.$.name$ = in.$.name$.DeepCopy()\n" args
  end.

Definition doStruct (generateFor : Type_.t -> Gen unit) (t : Type_.t) : Gen unit :=
  let+ h := lift (hasDeepCopyMethod t) in
  if h then Do "*out = in.DeepCopy()\n" ArgNil
  else
    (* Simple copy covers a lot of cases. *)
    Do "*out = *in\n" ArgNil ;;;
    (* Now fix-up fields as needed. *)
    forEach (Type_.Members t) (doStructMember generateFor).

Definition doPointer (generateFor : Type_.t -> Gen unit) (t : Type_.t) : Gen unit :=
  Do "if *in == nil { *out = nil } else {\n" (ArgType t) ;;;
  (let+ elem := lift (deref (Type_.Elem t)) in
   let+ h := lift (hasDeepCopyMethod elem) in
   if h then
     Do "*out = new($.Elem|raw$)\n" (ArgType t) ;;;
     Do "**out = (*in).DeepCopy()\n" ArgNil
   else if IsAssignable elem then
     Do "*out = new($.Elem|raw$)\n" (ArgType t) ;;;
     Do "**out = **in" ArgNil
   else
     match Type_.Kind elem with
     | Kind.Map | Kind.Slice =>
         Do "*out = new($.Elem|raw$)\n" (ArgType t) ;;;
         Do "if **in != nil {\n" (ArgType t) ;;;
         Do "in, out := *in, *out\n" ArgNil ;;;
         generateFor elem ;;;
         Do "}\n" ArgNil
     | _ =>
         Do "*out = new($.Elem|raw$)\n" (ArgType t) ;;;
         Do "(*in).DeepCopyInto(*out)\n" ArgNil
     end) ;;;
  Do "}" (ArgType t).

(** [generateFor]: the mutual recursion with [doSlice], [doStruct] and
    [doPointer] is bounded by [fuel]. *)
Fixpoint generateFor (fuel : nat) (g : genDeepCopy) (t : Type_.t) : Gen unit :=
  match fuel with
  | O => OutOfFuel
  | S fuel' =>
      match Type_.Kind t with
      | Kind.Builtin => doBuiltin t
      | Kind.Map => doMap g t
      | Kind.Slice => doSlice (generateFor fuel' g) t
      | Kind.Struct => doStruct (generateFor fuel' g) t
      | Kind.Interface => doInterface t
      | Kind.Pointer => doPointer (generateFor fuel' g) t
      | Kind.Alias => doAlias t
      | _ => doUnknown t
      end
  end.

Definition argsFromType (ts : list Type_.t) : arg := ArgsFromType ts.

(** The adapter [DeepCopy<Interface>] of [t] for the interface [intf]. *)
Definition generateInterface (t : Type_.t) (nonPointerReceiver : bool) (intf : Type_.t)
    : Gen unit :=
  let name := Name.Name (Type_.Name intf) in
  Do ("// DeepCopy" ++ name ++ " is an autogenerated deepcopy function, copying the receiver, creating a new $.type2|raw$.\n")%string
     (argsFromType [t; intf]) ;;;
  if nonPointerReceiver then
    Do ("func (in $.type|raw$) DeepCopy" ++ name ++ "() $.type2|raw$ {\n")%string
       (argsFromType [t; intf]) ;;;
    Do "return *in.DeepCopy()" ArgNil ;;;
    Do "}\n\n" ArgNil
  else
    Do ("func (in *$.type|raw$) DeepCopy" ++ name ++ "() $.type2|raw$ {\n")%string
       (argsFromType [t; intf]) ;;;
    Do "if c := in.DeepCopy(); c != nil {\n" ArgNil ;;;
    Do "return c\n" ArgNil ;;;
    Do "}\n" ArgNil ;;;
    Do "return nil\n" ArgNil ;;;
    Do "}\n\n" ArgNil.

(** The last block of [GenerateType]: the adapters of the declared
    interfaces.  After the adapters the source returns the error of the
    snippet writer, which is not part of the model: here it is [None]. *)
Definition generateInterfaces (t : Type_.t) : Gen (option error) :=
  match DeepCopyableInterfaces t with
  | Failure err => gret (Some err)
  | Success (intfs, nonPointerReceiver) =>
      forEach intfs (fun intf => generateInterface t nonPointerReceiver (mem intf)) ;;;
      gret None
  end.

(** The first block of [GenerateType]: the routine [DeepCopyInto]. *)
Definition generateDeepCopyInto (fuel : nat) (g : genDeepCopy) (t : Type_.t) : Gen unit :=
  let args := argsFromType [t] in
  let foundDeepCopyInto := bool_decide (is_Some (Type_.Methods t !! "DeepCopyInto")) in
  let foundDeepCopy := bool_decide (is_Some (Type_.Methods t !! "DeepCopy")) in
  if negb foundDeepCopyInto then
    Do "// DeepCopyInto is an autogenerated deepcopy function, copying the receiver, writing into out. in must be non-nil.\n" args ;;;
    Do "func (in *$.type|raw$) DeepCopyInto(out *$.type|raw$) {\n" args ;;;
    (if foundDeepCopy then
       let+ receiver := lift
         (let* mt := deref (default None (Type_.Methods t !! "DeepCopy")) in
          match Type_.Signature mt with
          | None => Panic
          | Some sig => deref (Signature.Receiver sig)
          end) in
       (if Kind.eqb (Type_.Kind receiver) Kind.Pointer then
          Do "clone := in.DeepCopy()\n" ArgNil ;;;
          Do "*out = *clone\n" ArgNil
        else
          Do "*out = in.DeepCopy()\n" ArgNil) ;;;
       Do "return\n" ArgNil
     else
       generateFor fuel g t ;;;
       Do "return\n" ArgNil) ;;;
    Do "}\n\n" ArgNil
  else gret tt.

(** The second block of [GenerateType]: the routine [DeepCopy]. *)
Definition generateDeepCopy (t : Type_.t) : Gen unit :=
  let args := argsFromType [t] in
  let foundDeepCopy := bool_decide (is_Some (Type_.Methods t !! "DeepCopy")) in
  if negb foundDeepCopy then
    Do "// DeepCopy is an autogenerated deepcopy function, copying the receiver, creating a new $.type|raw$.\n" args ;;;
    Do "func (in *$.type|raw$) DeepCopy() *$.type|raw$ {\n" args ;;;
    Do "if in == nil { return nil }\n" ArgNil ;;;
    Do "out := new($.type|raw$)\n" args ;;;
    Do "in.DeepCopyInto(out)\n" ArgNil ;;;
    Do "return out\n" ArgNil ;;;
    Do "}\n\n" ArgNil
  else gret tt.

(** [GenerateType]: the snippets written and the error returned; the error
    of the snippet writer itself is not part of the model. *)
Definition GenerateType (fuel : nat) (g : genDeepCopy) (t : Type_.t) : Gen (option error) :=
  let+ needed := lift (needsGeneration g t) in
  if negb needed then gret None
  else
    generateDeepCopyInto fuel g t ;;;
    generateDeepCopy t ;;;
    generateInterfaces t.

(** ** The packages, the imports and the template arguments *)

(** The bounding directories that [Packages] hands to the generators, and
    the custom arguments as [Packages] leaves them: without custom arguments
    of this generator there are none; bounding directories that are nil are
    set to the inputs first. *)
Definition packagesBoundingDirs (customArgs : option CustomArgs) (inputs : slice string)
    : list string * option CustomArgs :=
  match customArgs with
  | Some customArgs =>
      let customArgs :=
        match BoundingDirs customArgs with
        | None => mkCustomArgs inputs
        | Some _ => customArgs
        end in
      (* Strip any trailing slashes - they are not exactly "correct" but
         this is friendlier. *)
      (List.map (fun dir => strings.TrimRight dir "/"%char)
         (elems (BoundingDirs customArgs)),
       Some customArgs)
  | None => ([], None)
  end.

(** The field [PackageName] of the package that [Packages] appends for a
    package of path [path]. *)
Definition PackageName (path : string) : outcome string :=
  match strings.Split (filepath.Base path) "."%char with
  | [] => Panic
  | name :: _ => Ok name
  end.

(** The field [PackagePath]: if the source path is within a /vendor/
    directory, allow generation to output to the proper relative path (under
    vendor). *)
Definition PackagePath (path sourcePath outputBase : string) : string :=
  if strings.HasPrefix sourcePath outputBase then
    let expandedPath := strings.TrimPrefix sourcePath outputBase in
    if strings.Contains expandedPath "/vendor/" then expandedPath else path
  else path.

(** The double quote. *)
Definition quote : string := String (ascii_of_nat 34) EmptyString.

Definition isOtherPackage (g : genDeepCopy) (pkg : string) : bool :=
  if String.eqb pkg (targetPackage g) then false
  else if strings.HasSuffix pkg (quote ++ targetPackage g ++ quote) then false
  else true.

(** [Imports]: [importLines] is [g.imports.ImportLines()]. *)
Definition Imports (g : genDeepCopy) (importLines : list string) : list string :=
  List.filter (isOtherPackage g) importLines.

(** [fmt.Sprintf("type%d", i+1)]. *)
Definition typeKey (i : nat) : string := "type" ++ pretty (i + 1).

(** The map that [argsFromType] builds: the first type under "type", and
    every type under "type" followed by its position, counted from one. *)
Definition typeArgs (ts : list Type_.t) : outcome (gmap string Type_.t) :=
  match ts with
  | [] => Panic
  | ts0 :: _ =>
      Ok (fold_left (fun a it => <[typeKey (fst it) := snd it]> a)
            (imap pair ts) {[ "type" := ts0 ]})
  end.

(** [TypeSlice]: [Len], [Less] and [Swap] on the indices of the slice. *)
Definition TypeSlice_Len (s : list addr) : nat := length s.

Definition TypeSlice_Less (s : list addr) (i j : nat) : outcome bool :=
  match s !! i, s !! j with
  | Some a, Some b => Ok (Less a b)
  | _, _ => Panic
  end.

Definition TypeSlice_Swap (s : list addr) (i j : nat) : outcome (list addr) :=
  match s !! i, s !! j with
  | Some a, Some b => Ok (<[j := a]> (<[i := b]> s))
  | _, _ => Panic
  end.

(** The key and the value of a sub-option [key=value] or [key]. *)
Definition paramKey (part : string) : string :=
  hd "" (strings.SplitN2 part "="%char).
Definition paramValue (part : string) : string :=
  match strings.SplitN2 part "="%char with
  | [_; v] => v
  | _ => ""
  end.
Definition isRegisterParam (part : string) : bool := String.eqb (paramKey part) "register".
Definition registerParamSet (part : string) : bool := negb (String.eqb (paramValue part) "false").

(** A type of the scan that [scanTypes] passes over: its directive parses
    and does not have the primary value "true". *)
Definition notOptedIn (p : ptr) : bool :=
  match p with
  | Some a =>
      match extractTag (Type_.CommentLines (mem a)) with
      | Ok ttag => negb (tagIs ttag "true")
      | _ => false
      end
  | None => false
  end.

(** What the loop of [Packages] appends for the input [i]. *)
Definition considerInput (universe : string -> option Package) (bounding : list string)
    (i : string) : outcome (list genDeepCopy) :=
  match universe i with
  | None => Ok []
  | Some pkg =>
      let* r := considerPackage bounding i pkg in
      Ok (match r with Some g => [g] | None => [] end)
  end.

(** The byte [c] occurs in [s]. *)
Definition hasByte (c : ascii) (s : string) : Prop := In c (list_ascii_of_string s).

(** A name as [extractInterfacesTag] returns them: not empty and without
    comma. *)
Definition interfaceName (name : string) : Prop :=
  name <> "" /\ ~ hasByte ","%char name.

(** A snippet that starts the declaration of a function. *)
Definition declaresFunc (s : snippet) : bool := String.prefix "func " (format s).

(** Every snippet that [m] writes has the property [P]. *)
Definition writesOnly {A : Type} (P : snippet -> Prop) (m : Gen A) : Prop :=
  forall a w, m = Ok (a, w) -> Forall P w.

(** ** Well-formed type graphs

    A node is well formed when the pointers that its kind promises are set,
    its table of methods is complete as far as [hasDeepCopyMethod] reads it,
    and its directive parses. *)
Definition isOk {A : Type} (m : outcome A) : bool :=
  match m with
  | Ok _ => true
  | _ => false
  end.

Definition isSet (p : ptr) : bool :=
  match p with
  | Some _ => true
  | None => false
  end.

Definition wfNode (t : Type_.t) : bool :=
  isOk (hasDeepCopyMethod t)
  && isOk (extractTag (Type_.CommentLines t))
  && match Type_.Kind t with
     | Kind.Map => isSet (Type_.Key t) && isSet (Type_.Elem t)
     | Kind.Slice | Kind.Pointer => isSet (Type_.Elem t)
     | Kind.Alias => isSet (Type_.Underlying t)
     | Kind.Struct => forallb (fun m => isSet (Member.Type_ m)) (Type_.Members t)
     | _ => true
     end.

(** The slices nested directly in one another from [t] on are at most [d]. *)
Fixpoint sliceDepth (d : nat) (t : Type_.t) : bool :=
  match Type_.Kind t with
  | Kind.Slice =>
      match d with
      | O => false
      | S d' =>
          match Type_.Elem t with
          | Some a => sliceDepth d' (mem a)
          | None => true
          end
      end
  | _ => true
  end.

(** A generator that returns. *)
Definition okGen {A : Type} (m : Gen A) : Prop := isOk m = true.

(** Whatever [m] returns, [m'] returns too. *)
Definition leGen {A : Type} (m m' : Gen A) : Prop := forall r, m = Ok r -> m' = Ok r.

(** The order of the adapters: strictly ascending in [String()]. *)
Definition ascending (intfs : list nat) : Prop :=
  StronglySorted
    (fun a b => String.ltb (TypeString (mem a)) (TypeString (mem b)) = true) intfs.

(** ** The block structure of the written code

    A snippet opens a block when its format ends with an opening brace and
    a newline; it closes as many blocks as its format has closing braces at
    its start. *)
Fixpoint endsWith (suffix s : string) : bool :=
  String.eqb suffix s
  || match s with
     | EmptyString => false
     | String _ s' => endsWith suffix s'
     end.
Definition opens (fmt : string) : nat := if endsWith "{\n" fmt then 1 else 0.
Fixpoint closes (fmt : string) : nat :=
  match fmt with
  | String "}" fmt' => S (closes fmt')
  | _ => 0
  end.

(** The depth of nesting after the snippets [w], starting at depth [d];
    [None] when a snippet closes a block that [w] did not open. *)
Fixpoint depthAfter (d : nat) (w : list snippet) : option nat :=
  match w with
  | [] => Some d
  | s :: w' =>
      if Nat.leb (closes (format s)) d
      then depthAfter (d - closes (format s) + opens (format s)) w'
      else None
  end.
Definition balanced (w : list snippet) : Prop := depthAfter 0 w = Some 0.

(** A generator that takes the depth from [d] to [d'] whenever it returns. *)
Definition netGen {A : Type} (d d' : nat) (m : Gen A) : Prop :=
  forall a w, m = Ok (a, w) -> depthAfter d w = Some d'.

(** [w] is a block: the snippet [guard] opens it, [closing] closes it, and
    the blocks opened in between are closed in between. *)
Definition guardedBy (guard closing : snippet) (w : list snippet) : Prop :=
  exists body, w = guard :: body ++ [closing] /\ balanced body.

(** The formats that test an element of a slice or a value of a map
    against nil. *)
Definition elementNilTest (fmt : string) : bool :=
  existsb (String.eqb fmt)
    ["if (*in)[i] != nil {\n";
     "if (*in)[i]==nil { (*out)[i]=nil } else {\n";
     "if (*in)[i] == nil {(*out)[i]=nil} else {\n";
     "if val==nil { (*out)[key]=nil } else {\n";
     "if val == nil {(*out)[key]=nil} else {\n"].

(** The formats of the declarations of the two copy routines. *)
Definition deepCopyIntoDecl : string :=
  "func (in *$.type|raw$) DeepCopyInto(out *$.type|raw$) {\n".
Definition deepCopyDecl : string :=
  "func (in *$.type|raw$) DeepCopy() *$.type|raw$ {\n".

(** * Properties *)

(** ** Properties of the directive resolver *)

Lemma Split_not_nil (s : string) (sep : ascii) : strings.Split s sep <> [].
Proof.
  destruct s as [|c s]; simpl; [discriminate|].
  destruct (Ascii.eqb c sep); [discriminate|].
  destruct (strings.Split s sep); discriminate.
Qed.

Lemma SplitN2_not_nil (s : string) (sep : ascii) : strings.SplitN2 s sep <> [].
Proof.
  destruct s as [|c s]; simpl; [discriminate|].
  destruct (Ascii.eqb c sep); [discriminate|].
  destruct (strings.SplitN2 s sep) as [|hd [|? ?]]; discriminate.
Qed.

Lemma extractTagParams_step (part : string) (rest : list string) (r : bool) :
  extractTagParams (part :: rest) r =
  if isRegisterParam part then extractTagParams rest (registerParamSet part || r)
  else Fatal (UnsupportedParam part).
Proof.
  unfold isRegisterParam, registerParamSet, paramKey, paramValue. simpl.
  pose proof (SplitN2_not_nil part "="%char) as Hne.
  destruct (strings.SplitN2 part "="%char) as [|k [|v [|? ?]]]; [congruence| | |]; simpl;
    destruct (String.eqb k "register"); try reflexivity;
    destruct (String.eqb _ "false"); reflexivity.
Qed.

Lemma extractTagParams_register (params : list string) (r : bool) :
  forallb isRegisterParam params = true ->
  extractTagParams params r = Ok (r || existsb registerParamSet params).
Proof.
  revert r. induction params as [|part rest IH]; intros r H.
  - simpl. by rewrite orb_false_r.
  - rewrite extractTagParams_step. simpl in H. apply andb_true_iff in H as [Hp Hrest].
    rewrite Hp, IH by done. simpl. f_equal.
    destruct (registerParamSet part), r, (existsb registerParamSet rest); reflexivity.
Qed.

Lemma extractTagParams_unsupported (good : list string) (bad : string) (rest : list string)
    (r : bool) :
  forallb isRegisterParam good = true ->
  isRegisterParam bad = false ->
  extractTagParams (good ++ bad :: rest) r = Fatal (UnsupportedParam bad).
Proof.
  revert r. induction good as [|part good IH]; intros r Hgood Hbad.
  - simpl app. by rewrite extractTagParams_step, Hbad.
  - simpl in Hgood. apply andb_true_iff in Hgood as [Hp Hgood].
    simpl app. rewrite extractTagParams_step, Hp. by apply IH.
Qed.

(** C6, as the code has it.  The primary-directive extractor returns no
    directive when the tag is absent, and aborts with a fatal error when the
    tag occurs more than once.  When the tag occurs once, it returns the one
    parsed directive -- the first comma-separated segment as the primary
    value, [register] set when some sub-option sets it -- provided every
    sub-option has the key [register]; the first sub-option with another
    key is a fatal error instead. *)
Theorem extractTag_by_occurrences (comments : list string) :
  (ExtractCommentTags "+" comments tagName = None ->
     extractTag comments = Ok None)
  /\ (forall v primary params,
        ExtractCommentTags "+" comments tagName = Some [v] ->
        strings.Split v ","%char = primary :: params ->
        forallb isRegisterParam params = true ->
        extractTag comments
        = Ok (Some (mkTagValue primary (existsb registerParamSet params))))
  /\ (forall v primary good bad rest,
        ExtractCommentTags "+" comments tagName = Some [v] ->
        strings.Split v ","%char = primary :: good ++ bad :: rest ->
        forallb isRegisterParam good = true ->
        isRegisterParam bad = false ->
        extractTag comments = Fatal (UnsupportedParam bad))
  /\ (forall tagVals,
        ExtractCommentTags "+" comments tagName = Some tagVals ->
        1 < length tagVals ->
        extractTag comments = Fatal (FoundTags (length tagVals) tagVals)).
Proof.
  unfold extractTag. repeat split.
  - intros ->. reflexivity.
  - intros v primary params -> Hsplit Hreg. simpl. rewrite Hsplit.
    rewrite extractTagParams_register by done. reflexivity.
  - intros v primary good bad rest -> Hsplit Hgood Hbad. simpl. rewrite Hsplit.
    rewrite extractTagParams_unsupported by done. reflexivity.
  - intros tagVals -> Hlen.
    destruct (Nat.ltb_spec 1 (length tagVals)); [reflexivity | lia].
Qed.


(** ** Properties of the eligibility filter *)

(** C10.  At per-type emission time a directive whose primary value is
    neither "true" nor "false" is a fatal error, whatever the package mode;
    a type without directive is generated exactly when the whole package
    is, and is never an error. *)
Theorem needsGeneration_directive_value (g : genDeepCopy) (t : Type_.t) :
  (forall tag,
      extractTag (Type_.CommentLines t) = Ok (Some tag) ->
      value tag <> "true" -> value tag <> "false" ->
      needsGeneration g t = Fatal (TypeUnsupportedValue (Type_.Name t) (value tag)))
  /\ (extractTag (Type_.CommentLines t) = Ok None ->
      needsGeneration g t = Ok (allTypes g)).
Proof.
  unfold needsGeneration. split.
  - intros tag -> Ht Hf. simpl.
    apply String.eqb_neq in Ht, Hf. by rewrite Ht, Hf.
  - intros ->. simpl. by destruct (allTypes g).
Qed.

Lemma scanTypes_pass (pre rest : list ptr) :
  forallb notOptedIn pre = true -> scanTypes (pre ++ rest) = scanTypes rest.
Proof.
  induction pre as [|p pre IH]; [done|]. simpl. intros H.
  apply andb_true_iff in H as [Hp Hpre].
  destruct p as [a|]; [|done]. simpl in *.
  destruct (extractTag (Type_.CommentLines (mem a))) as [ttag| | |]; try done. simpl.
  apply negb_true_iff in Hp. rewrite Hp. by apply IH.
Qed.

Lemma scanTypes_none (ts : list ptr) :
  forallb notOptedIn ts = true -> scanTypes ts = Ok false.
Proof.
  intros H. rewrite <- (app_nil_r ts). by rewrite scanTypes_pass.
Qed.

Lemma copyableType_optin (t : Type_.t) (tag : tagValue) :
  extractTag (Type_.CommentLines t) = Ok (Some tag) ->
  value tag = "true" ->
  copyableType t
  = Ok (Kind.eqb (Type_.Kind t) Kind.Struct
        && negb (IsPrivateGoName (Name.Name (Type_.Name t)))).
Proof.
  intros Htag Hv. unfold copyableType. rewrite Htag. simpl. rewrite Hv. simpl.
  destruct (Kind.eqb (Type_.Kind t) Kind.Struct); [|done]. simpl.
  by destruct (IsPrivateGoName _).
Qed.

Lemma scanTypes_optin (a : addr) (tag : tagValue) (post : list ptr) :
  extractTag (Type_.CommentLines (mem a)) = Ok (Some tag) ->
  value tag = "true" ->
  scanTypes (Some a :: post)
  = if Kind.eqb (Type_.Kind (mem a)) Kind.Struct
       && negb (IsPrivateGoName (Name.Name (Type_.Name (mem a))))
    then Ok true
    else Fatal (TypeNotCopyable (Type_.Name (mem a))).
Proof.
  intros Htag Hv. simpl. rewrite Htag. simpl. rewrite Hv. simpl.
  rewrite (copyableType_optin _ tag) by done. simpl.
  by destruct (_ && _).
Qed.

(** C3, as the code has it.  A type whose directive has the primary value
    "true" and that is no struct or has a private name aborts the run when
    its package has no package-level directive and no type before it in
    the scan has the primary value "true".  When the package is generated
    as a whole, the filter only leaves the type out. *)
Theorem optin_not_copyable (bounding : list string) (i : string) (pkg : Package)
    (pre post : list ptr) (a : addr) (tag : tagValue) :
  extractTag (Type_.CommentLines (mem a)) = Ok (Some tag) ->
  value tag = "true" ->
  Kind.eqb (Type_.Kind (mem a)) Kind.Struct = false
  \/ IsPrivateGoName (Name.Name (Type_.Name (mem a))) = true ->
  (extractTag (Comments pkg) = Ok None ->
   Types pkg = pre ++ Some a :: post ->
   forallb notOptedIn pre = true ->
   considerPackage bounding i pkg = Fatal (TypeNotCopyable (Type_.Name (mem a))))
  /\ (forall g, allTypes g = true -> Filter g (mem a) = Ok (false, g)).
Proof.
  intros Htag Hv Hfail.
  assert (Kind.eqb (Type_.Kind (mem a)) Kind.Struct
          && negb (IsPrivateGoName (Name.Name (Type_.Name (mem a)))) = false) as Hno.
  { destruct Hfail as [-> | ->]; [done | by rewrite andb_false_r]. }
  split.
  - intros Hptag Htypes Hpre. unfold considerPackage. rewrite Hptag. simpl.
    rewrite Htypes, scanTypes_pass by done.
    rewrite (scanTypes_optin _ tag) by done. by rewrite Hno.
  - intros g Hall. unfold Filter. rewrite Hall. simpl.
    rewrite (copyableType_optin _ tag) by done. by rewrite Hno.
Qed.

(** C4, as the code has it.  A package-level directive with the primary
    value "package" puts the package in generate-all mode, whatever its
    types are.  A package-level directive with another value aborts the
    run.  Without package-level directive the types are scanned in order up
    to the first one whose directive has the primary value "true": a
    copyable one enables generation for the package without generate-all
    mode, and no such type means no generation.  Outside generate-all mode
    the emission of a type checks its own directive again: only the
    primary value "true" is generated. *)
Theorem package_mode (bounding : list string) (i : string) (pkg : Package) :
  (forall tag,
      extractTag (Comments pkg) = Ok (Some tag) ->
      value tag = tagValuePackage ->
      forall types,
        considerPackage bounding i (mkPackage (Path pkg) (Comments pkg) types)
        = Ok (Some (NewGenDeepCopy (Path pkg) bounding true (register tag))))
  /\ (forall tag,
        extractTag (Comments pkg) = Ok (Some tag) ->
        value tag <> tagValuePackage ->
        considerPackage bounding i pkg = Fatal (PackageUnsupportedValue i (value tag)))
  /\ (extractTag (Comments pkg) = Ok None ->
      (forall pre a tag post,
          Types pkg = pre ++ Some a :: post ->
          forallb notOptedIn pre = true ->
          extractTag (Type_.CommentLines (mem a)) = Ok (Some tag) ->
          value tag = "true" ->
          Kind.eqb (Type_.Kind (mem a)) Kind.Struct = true ->
          IsPrivateGoName (Name.Name (Type_.Name (mem a))) = false ->
          considerPackage bounding i pkg
          = Ok (Some (NewGenDeepCopy (Path pkg) bounding false false)))
      /\ (forallb notOptedIn (Types pkg) = true ->
          considerPackage bounding i pkg = Ok None))
  /\ (forall g t ttag,
        allTypes g = false ->
        extractTag (Type_.CommentLines t) = Ok ttag ->
        (tagIs ttag "true" = true -> needsGeneration g t = Ok true)
        /\ (forall b, needsGeneration g t = Ok b -> b = tagIs ttag "true")).
Proof.
  repeat split.
  - intros tag Hptag Hv types. unfold considerPackage. simpl. rewrite Hptag. simpl.
    rewrite Hv. reflexivity.
  - intros tag Hptag Hv. unfold considerPackage. rewrite Hptag. simpl.
    apply String.eqb_neq in Hv. by rewrite Hv.
  - intros pre a tag post Htypes Hpre Htag Hv Hk Hp.
    unfold considerPackage. rewrite H. simpl.
    rewrite Htypes, scanTypes_pass by done.
    rewrite (scanTypes_optin _ tag) by done. by rewrite Hk, Hp.
  - intros Hall. unfold considerPackage. rewrite H. simpl.
    by rewrite scanTypes_none.
  - intros Htrue. unfold needsGeneration. rewrite H0, H. simpl.
    destruct ttag as [tg|]; [|done]. simpl in *. rewrite Htrue. simpl.
    by rewrite Htrue.
  - intros b. unfold needsGeneration. rewrite H0, H. simpl.
    destruct ttag as [tg|]; simpl.
    + destruct (String.eqb (value tg) "true") eqn:Et; simpl.
      * rewrite ?Et. simpl. congruence.
      * destruct (String.eqb (value tg) "false"); simpl; [|done].
        rewrite ?Et. simpl. congruence.
    + congruence.
Qed.


(** ** The writer *)

Lemma gbind_Ok_inv {A B : Type} (m : Gen A) (f : A -> Gen B) (b : B) (w : list snippet) :
  gbind m f = Ok (b, w) ->
  exists a w1 w2, m = Ok (a, w1) /\ f a = Ok (b, w2) /\ w = w1 ++ w2.
Proof.
  unfold gbind. destruct m as [[a w1]| | |]; try discriminate.
  destruct (f a) as [[b' w2]| | |] eqn:Hf; try discriminate.
  intros [= <- <-]. by exists a, w1, w2.
Qed.

Lemma gbind_Ok {A B : Type} (m : Gen A) (f : A -> Gen B) (a : A) (b : B)
    (w1 w2 : list snippet) :
  m = Ok (a, w1) -> f a = Ok (b, w2) -> gbind m f = Ok (b, w1 ++ w2).
Proof. intros -> Hf. simpl. by rewrite Hf. Qed.

Lemma gbind_ret_l {A B : Type} (a : A) (f : A -> Gen B) : gbind (Ok (a, [])) f = f a.
Proof. unfold gbind. by destruct (f a) as [[b w]| | |]. Qed.

Lemma lift_Ok_inv {A : Type} (m : outcome A) (a : A) (w : list snippet) :
  lift m = Ok (a, w) -> m = Ok a /\ w = [].
Proof. destruct m; simpl; try discriminate. by intros [= <- <-]. Qed.

Lemma forEach_Ok {A : Type} (l : list A) (f : A -> Gen unit) (body : A -> list snippet) :
  (forall x, In x l -> f x = Ok (tt, body x)) ->
  forEach l f = Ok (tt, flat_map body l).
Proof.
  induction l as [|x l IH]; intros H; [reflexivity|].
  simpl. rewrite (H x) by (by left). rewrite IH; [reflexivity|].
  intros y Hy. apply H. by right.
Qed.

Lemma forEach_app {A : Type} (l1 l2 : list A) (f : A -> Gen unit) :
  forEach (l1 ++ l2) f = gbind (forEach l1 f) (fun _ => forEach l2 f).
Proof.
  induction l1 as [|x l1 IH]; simpl.
  - destruct (forEach l2 f) as [[[] w]| | |]; reflexivity.
  - rewrite IH. destruct (f x) as [[[] w]| | |]; try reflexivity. simpl.
    destruct (forEach l1 f) as [[[] w1]| | |]; try reflexivity. simpl.
    destruct (forEach l2 f) as [[[] w2]| | |]; try reflexivity.
    by rewrite app_assoc.
Qed.

Lemma in_flat_map_split {A B : Type} (f : A -> list B) (l : list A) (x : A) :
  In x l -> exists pre post, flat_map f l = pre ++ f x ++ post.
Proof.
  intros H. apply in_split in H as (l1 & l2 & ->).
  exists (flat_map f l1), (flat_map f l2).
  by rewrite flat_map_app.
Qed.

(** ** The routines and the adapters of a type *)

(** The snippets of the adapter of [t] for [intf]. *)
Lemma generateInterface_written (t : Type_.t) (nonPointerReceiver : bool) (intf : Type_.t) :
  let name := Name.Name (Type_.Name intf) in
  generateInterface t nonPointerReceiver intf
  = Ok (tt,
        Do_ ("// DeepCopy" ++ name ++ " is an autogenerated deepcopy function, copying the receiver, creating a new $.type2|raw$.\n")%string
            (argsFromType [t; intf])
        :: if nonPointerReceiver then
             [Do_ ("func (in $.type|raw$) DeepCopy" ++ name ++ "() $.type2|raw$ {\n")%string
                  (argsFromType [t; intf]);
              Do_ "return *in.DeepCopy()" ArgNil;
              Do_ "}\n\n" ArgNil]
           else
             [Do_ ("func (in *$.type|raw$) DeepCopy" ++ name ++ "() $.type2|raw$ {\n")%string
                  (argsFromType [t; intf]);
              Do_ "if c := in.DeepCopy(); c != nil {\n" ArgNil;
              Do_ "return c\n" ArgNil;
              Do_ "}\n" ArgNil;
              Do_ "return nil\n" ArgNil;
              Do_ "}\n\n" ArgNil]).
Proof. unfold generateInterface. by destruct nonPointerReceiver. Qed.

Ltac peel_name name H :=
  repeat (destruct name as [|? name]; simpl in H;
          [try discriminate H | first [discriminate H | injection H as _ H]]).

Lemma adapter_decl_ne (name : string) :
  ("func (in *$.type|raw$) DeepCopy" ++ name ++ "() $.type2|raw$ {\n")%string <> deepCopyDecl
  /\ ("func (in *$.type|raw$) DeepCopy" ++ name ++ "() $.type2|raw$ {\n")%string
     <> deepCopyIntoDecl.
Proof.
  unfold deepCopyDecl, deepCopyIntoDecl.
  split; intros H; simpl in H; repeat (injection H as H); peel_name name H.
Qed.

Lemma adapter_not_routine (t : Type_.t) (nonPointerReceiver : bool) (intf : Type_.t)
    (w : list snippet) :
  generateInterface t nonPointerReceiver intf = Ok (tt, w) ->
  Forall (fun s => format s <> deepCopyDecl /\ format s <> deepCopyIntoDecl) w.
Proof.
  rewrite generateInterface_written. intros [= <-].
  pose proof (adapter_decl_ne (Name.Name (Type_.Name intf))) as Hne.
  destruct nonPointerReceiver;
    repeat (apply List.Forall_cons;
            [cbn beta; first [exact Hne | split; intros H; simpl in H; peel_name (Name.Name (Type_.Name intf)) H; discriminate H]|]);
    try apply List.Forall_nil.
Qed.

Lemma adapters_written (t : Type_.t) (nonPointerReceiver : bool) (intfs : list addr) :
  exists w,
    forEach intfs (fun intf => generateInterface t nonPointerReceiver (mem intf)) = Ok (tt, w)
    /\ w = flat_map
             (fun intf =>
                match generateInterface t nonPointerReceiver (mem intf) with
                | Ok (_, w') => w'
                | _ => []
                end) intfs
    /\ Forall (fun s => format s <> deepCopyDecl /\ format s <> deepCopyIntoDecl) w.
Proof.
  eexists. split; [|split; [reflexivity|]].
  - apply forEach_Ok. intros a _. by rewrite generateInterface_written.
  - apply Forall_flat_map, Forall_forall. intros a _.
    pose proof (adapter_not_routine t nonPointerReceiver (mem a)) as H.
    rewrite generateInterface_written in *. by apply H.
Qed.

Lemma generateInterfaces_written (t : Type_.t) :
  exists e w,
    generateInterfaces t = Ok (e, w)
    /\ Forall (fun s => format s <> deepCopyDecl /\ format s <> deepCopyIntoDecl) w
    /\ (forall intfs nonPointerReceiver,
          DeepCopyableInterfaces t = Success (intfs, nonPointerReceiver) ->
          e = None
          /\ w = flat_map
                   (fun intf =>
                      match generateInterface t nonPointerReceiver (mem intf) with
                      | Ok (_, w') => w'
                      | _ => []
                      end) intfs).
Proof.
  unfold generateInterfaces.
  destruct (DeepCopyableInterfaces t) as [[intfs npr]|err].
  - destruct (adapters_written t npr intfs) as (w & Hw & Hflat & Hne).
    exists None, w. rewrite Hw. simpl. rewrite app_nil_r.
    split; [done|]. split; [done|]. by intros ? ? [= <- <-].
  - exists (Some err), []. split; [done|]. split; [by constructor | done].
Qed.

(** The adapters come last in what [GenerateType] writes, in the order of
    the interfaces that [DeepCopyableInterfaces] returns. *)
Lemma GenerateType_adapters (fuel : nat) (g : genDeepCopy) (t : Type_.t)
    (e : option error) (w : list snippet) (intfs : list nat) (nonPointerReceiver : bool) :
  GenerateType fuel g t = Ok (e, w) ->
  needsGeneration g t = Ok true ->
  DeepCopyableInterfaces t = Success (intfs, nonPointerReceiver) ->
  exists routines,
    w = routines
        ++ flat_map
             (fun intf =>
                match generateInterface t nonPointerReceiver (mem intf) with
                | Ok (_, w') => w'
                | _ => []
                end) intfs.
Proof.
  intros Hgen Hneeded Hintfs.
  unfold GenerateType in Hgen. rewrite Hneeded in Hgen.
  cbn [lift negb] in Hgen. rewrite gbind_ret_l in Hgen.
  apply gbind_Ok_inv in Hgen as ([] & w1 & w2 & _ & Hgen & ->).
  apply gbind_Ok_inv in Hgen as ([] & w3 & w4 & _ & Hgen & ->).
  destruct (generateInterfaces_written t) as (e' & w' & He & _ & Hw).
  rewrite He in Hgen. injection Hgen as <- <-.
  destruct (Hw _ _ Hintfs) as [_ ->].
  exists (w1 ++ w3). by rewrite <- app_assoc.
Qed.

Lemma find_agreeing (b : bool) (agreeing rest : list string) :
  Forall (fun v => String.eqb v "true" = b) agreeing ->
  List.find (fun v => negb (Bool.eqb (String.eqb v "true") b)) (agreeing ++ rest)
  = List.find (fun v => negb (Bool.eqb (String.eqb v "true") b)) rest.
Proof.
  induction 1 as [|x l Hx _ IH]; [done|].
  simpl. by rewrite Hx, Bool.eqb_reflx.
Qed.

(** The receiver that the tag of the non-pointer receivers asks for, when
    its values agree. *)
Lemma extractNonPointerInterfaces_agreeing (comments : list string) (b : bool) :
  Forall (fun v => String.eqb v "true" = b)
    (elems (ExtractCommentTags "+" comments interfacesNonPointerTagName)) ->
  extractNonPointerInterfaces comments
  = Success (match elems (ExtractCommentTags "+" comments interfacesNonPointerTagName) with
             | [] => false
             | _ :: _ => b
             end).
Proof.
  unfold extractNonPointerInterfaces. intros Hall.
  destruct (elems (ExtractCommentTags "+" comments interfacesNonPointerTagName))
    as [|values0 l]; [done|].
  assert (String.eqb values0 "true" = b) as -> by (by inversion Hall).
  pose proof (find_agreeing b (values0 :: l) [] Hall) as Hfind.
  rewrite app_nil_r in Hfind. by rewrite Hfind.
Qed.

Lemma DeepCopyableInterfaces_receiver (t : Type_.t) (intfs : list nat) (npr : bool) :
  DeepCopyableInterfaces t = Success (intfs, npr) ->
  extractNonPointerInterfaces (Type_.SecondClosestCommentLines t ++ Type_.CommentLines t)
  = Success npr.
Proof.
  unfold DeepCopyableInterfaces.
  destruct (deepCopyableInterfaces t); [|discriminate].
  destruct (extractNonPointerInterfaces _); [|discriminate]. by intros [= _ <-].
Qed.

(** C8.  Let [GenerateType] write the adapters of a type, and let a be one
    of the interfaces that [DeepCopyableInterfaces] returns for it.  When
    no value of the tag of the non-pointer receivers of the type is "true"
    -- in particular when the tag is absent -- the adapter written for a
    has a pointer receiver and is the routine that tests the result of
    [in.DeepCopy()] against nil, returns it when it is not nil and returns
    the literal nil otherwise.  When the non-pointer receiver is requested,
    that is, the tag has a value and all its values are "true", the adapter
    written has a non-pointer receiver and is the routine that returns the
    dereferenced result of [in.DeepCopy()]. *)
Theorem adapter_nil_translation (fuel : nat) (g : genDeepCopy) (t : Type_.t)
    (e : option error) (w : list snippet) (intfs : list addr)
    (nonPointerReceiver : bool) (a : addr) :
  GenerateType fuel g t = Ok (e, w) ->
  needsGeneration g t = Ok true ->
  DeepCopyableInterfaces t = Success (intfs, nonPointerReceiver) ->
  In a intfs ->
  let requested :=
    elems (ExtractCommentTags "+"
             (Type_.SecondClosestCommentLines t ++ Type_.CommentLines t)
             interfacesNonPointerTagName) in
  let name := Name.Name (Type_.Name (mem a)) in
  let doc :=
    Do_ ("// DeepCopy" ++ name ++ " is an autogenerated deepcopy function, copying the receiver, creating a new $.type2|raw$.\n")%string
        (argsFromType [t; mem a]) in
  (Forall (fun v => v <> "true") requested ->
   exists pre post,
     w = pre
         ++ [doc;
             Do_ ("func (in *$.type|raw$) DeepCopy" ++ name ++ "() $.type2|raw$ {\n")%string
                 (argsFromType [t; mem a]);
             Do_ "if c := in.DeepCopy(); c != nil {\n" ArgNil;
             Do_ "return c\n" ArgNil;
             Do_ "}\n" ArgNil;
             Do_ "return nil\n" ArgNil;
             Do_ "}\n\n" ArgNil]
         ++ post)
  /\ (requested <> [] ->
      Forall (fun v => v = "true") requested ->
      exists pre post,
        w = pre
            ++ [doc;
                Do_ ("func (in $.type|raw$) DeepCopy" ++ name ++ "() $.type2|raw$ {\n")%string
                    (argsFromType [t; mem a]);
                Do_ "return *in.DeepCopy()" ArgNil;
                Do_ "}\n\n" ArgNil]
            ++ post).
Proof.
  intros Hgen Hneeded Hintfs Hin requested name doc.
  destruct (GenerateType_adapters fuel g t e w intfs nonPointerReceiver Hgen Hneeded Hintfs)
    as (routines & ->).
  destruct (in_flat_map_split
              (fun intf =>
                 match generateInterface t nonPointerReceiver (mem intf) with
                 | Ok (_, w') => w'
                 | _ => []
                 end) intfs a Hin) as (pre & post & ->).
  pose proof (DeepCopyableInterfaces_receiver t intfs nonPointerReceiver Hintfs) as Hrecv.
  rewrite generateInterface_written. subst name doc.
  split.
  - intros Hall.
    rewrite (extractNonPointerInterfaces_agreeing _ false) in Hrecv.
    + assert (nonPointerReceiver = false) as ->.
      { fold requested in Hrecv. destruct requested; by injection Hrecv as <-. }
      exists (routines ++ pre), post. by rewrite <- !app_assoc.
    + fold requested. eapply Forall_impl; [exact Hall|].
      intros v Hv. by apply String.eqb_neq.
  - intros Hne Hall.
    rewrite (extractNonPointerInterfaces_agreeing _ true) in Hrecv.
    + assert (nonPointerReceiver = true) as ->.
      { fold requested in Hrecv. destruct requested; [done|]. by injection Hrecv as <-. }
      exists (routines ++ pre), post. by rewrite <- !app_assoc.
    + fold requested. eapply Forall_impl; [exact Hall|].
      intros v ->. reflexivity.
Qed.

Lemma hasDeepCopyMethod_true_inv (t : Type_.t) :
  hasDeepCopyMethod t = Ok true ->
  exists a sg,
    Type_.Methods t !! "DeepCopy" = Some (Some a)
    /\ Type_.Signature (mem a) = Some sg
    /\ Signature.Parameters sg = []
    /\ exists r, Signature.Results sg = [Some r]
                 /\ Name.eqb (Type_.Name (mem r)) (Type_.Name t) = true.
Proof.
  unfold hasDeepCopyMethod.
  destruct (Type_.Methods t !! "DeepCopy") as [[a|]|]; try discriminate. simpl.
  destruct (Type_.Signature (mem a)) as [sg|] eqn:Hs; try discriminate.
  destruct (Signature.Parameters sg) as [|? ?] eqn:Hp; try discriminate. simpl.
  destruct (Signature.Results sg) as [|[r|] [|? ?]] eqn:Hr; try discriminate. simpl.
  destruct (Name.eqb (Type_.Name (mem r)) (Type_.Name t)) eqn:Hn; try discriminate.
  intros _. exists a, sg. split; [done|]. split; [done|]. split; [done|].
  exists r. by split.
Qed.


(** ** Properties of the synthesizer *)

Lemma generateFor_S (fuel : nat) (g : genDeepCopy) (t : Type_.t) :
  generateFor (S fuel) g t
  = match Type_.Kind t with
    | Kind.Builtin => doBuiltin t
    | Kind.Map => doMap g t
    | Kind.Slice => doSlice (generateFor fuel g) t
    | Kind.Struct => doStruct (generateFor fuel g) t
    | Kind.Interface => doInterface t
    | Kind.Pointer => doPointer (generateFor fuel g) t
    | Kind.Alias => doAlias t
    | _ => doUnknown t
    end.
Proof. reflexivity. Qed.

Lemma doMap_unassignable_key (g : genDeepCopy) (t key : Type_.t) :
  deref (Type_.Key t) = Ok key ->
  IsAssignable key = false ->
  doMap g t
  = Ok (tt, [Do_ "*out = make($.|raw$, len(*in))\n" (ArgType t);
             Do_ "for range *in {\n" ArgNil;
             Do_ "// FIXME: Copying unassignable keys unsupported $.|raw$\n" (ArgType key);
             Do_ "}\n" ArgNil]).
Proof. intros Hkey Hassign. unfold doMap. rewrite Hkey. simpl. by rewrite Hassign. Qed.

(** The code of a member of kind map, slice or pointer without method of
    its own. *)
Lemma doStructMember_reference (generateFor' : Type_.t -> Gen unit) (m : Member.t)
    (t0 t : Type_.t) :
  deref (Member.Type_ m) = Ok t0 ->
  hasDeepCopyMethod t0 = Ok false ->
  unwrapAlias t0 = Ok t ->
  Type_.Kind t = Kind.Map \/ Type_.Kind t = Kind.Slice \/ Type_.Kind t = Kind.Pointer ->
  doStructMember generateFor' m
  = (Do "if in.$.name$ != nil {\n" (ArgMember t (Type_.Kind t) (Member.Name m)) ;;;
     Do "in, out := &in.$.name$, &out.$.name$\n" (ArgMember t (Type_.Kind t) (Member.Name m)) ;;;
     generateFor' t ;;;
     Do "}\n" ArgNil).
Proof.
  intros Ht Hhas Hu Hk. unfold doStructMember. rewrite Ht. cbn [lift]. rewrite gbind_ret_l.
  rewrite Hhas. cbn [lift]. rewrite gbind_ret_l. rewrite Hu. cbn [lift].
  rewrite gbind_ret_l.
  destruct Hk as [Hk|[Hk|Hk]]; rewrite Hk; reflexivity.
Qed.

Lemma unwrapAlias_not_alias (t : Type_.t) :
  Type_.Kind t <> Kind.Alias -> unwrapAlias t = Ok t.
Proof. unfold unwrapAlias. by destruct (Type_.Kind t). Qed.

(** C9.  Let t be a map type whose key type is not assignable.  Wherever
    the code of t itself is written, it is the stub: the allocation of the
    destination and a loop whose body is the marker of the unsupported
    keys, whatever the value type of t is, and nothing aborts.  This is the
    code [doMap] writes for t, the code [generateFor] writes when t is the
    type to copy, the code written around which the other members are
    copied as usual when t is the type of a struct member, and the code
    written under the nil tests when t is the target of a pointer.  The
    code of t is not written, and so no marker is, when t, without a method
    [DeepCopy], is the value type of a map with assignable keys or the
    element type of a slice: there the loop assigns the result of a call
    of [DeepCopy] on the value, dereferenced, or on the element.  A type
    of unknown kind gets a marker as well. *)
Theorem unassignable_key_stub (g : genDeepCopy) (t key : Type_.t) :
  deref (Type_.Key t) = Ok key ->
  IsAssignable key = false ->
  let stub :=
    [Do_ "*out = make($.|raw$, len(*in))\n" (ArgType t);
     Do_ "for range *in {\n" ArgNil;
     Do_ "// FIXME: Copying unassignable keys unsupported $.|raw$\n" (ArgType key);
     Do_ "}\n" ArgNil] in
  doMap g t = Ok (tt, stub)
  /\ (Type_.Kind t = Kind.Map ->
      forall fuel, generateFor (S fuel) g t = Ok (tt, stub))
  /\ (forall fuel s ms1 m ms2 w1 w2,
        Type_.Kind t = Kind.Map ->
        hasDeepCopyMethod t = Ok false ->
        Type_.Kind s = Kind.Struct ->
        hasDeepCopyMethod s = Ok false ->
        Type_.Members s = ms1 ++ m :: ms2 ->
        deref (Member.Type_ m) = Ok t ->
        forEach ms1 (doStructMember (generateFor (S fuel) g)) = Ok (tt, w1) ->
        forEach ms2 (doStructMember (generateFor (S fuel) g)) = Ok (tt, w2) ->
        generateFor (S (S fuel)) g s
        = Ok (tt,
              [Do_ "*out = *in\n" ArgNil]
              ++ w1
              ++ [Do_ "if in.$.name$ != nil {\n" (ArgMember t Kind.Map (Member.Name m));
                  Do_ "in, out := &in.$.name$, &out.$.name$\n"
                      (ArgMember t Kind.Map (Member.Name m))]
              ++ stub
              ++ [Do_ "}\n" ArgNil]
              ++ w2))
  /\ (forall fuel p,
        Type_.Kind t = Kind.Map ->
        hasDeepCopyMethod t = Ok false ->
        IsAssignable t = false ->
        Type_.Kind p = Kind.Pointer ->
        deref (Type_.Elem p) = Ok t ->
        generateFor (S (S fuel)) g p
        = Ok (tt,
              [Do_ "if *in == nil { *out = nil } else {\n" (ArgType p);
               Do_ "*out = new($.Elem|raw$)\n" (ArgType p);
               Do_ "if **in != nil {\n" (ArgType p);
               Do_ "in, out := *in, *out\n" ArgNil]
              ++ stub
              ++ [Do_ "}\n" ArgNil;
                  Do_ "}" (ArgType p)]))
  /\ (forall outer okey ttag,
        Type_.Kind t = Kind.Map ->
        hasDeepCopyMethod t = Ok false ->
        IsAnonymousStruct t = false ->
        IsAssignable t = false ->
        extractTag (Type_.CommentLines t) = Ok ttag ->
        deref (Type_.Key outer) = Ok okey ->
        IsAssignable okey = true ->
        deref (Type_.Elem outer) = Ok t ->
        doMap g outer
        = Ok (tt,
              [Do_ "*out = make($.|raw$, len(*in))\n" (ArgType outer);
               Do_ "for key, val := range *in {\n" ArgNil;
               Do_ "(*out)[key] = *val.DeepCopy()\n" (ArgType t);
               Do_ "}\n" ArgNil]))
  /\ (forall gen outer,
        Type_.Kind t = Kind.Map ->
        hasDeepCopyMethod t = Ok false ->
        IsAssignable t = false ->
        hasDeepCopyMethod outer = Ok false ->
        deref (Type_.Elem outer) = Ok t ->
        doSlice gen outer
        = Ok (tt,
              [Do_ "*out = make($.|raw$, len(*in))\n" (ArgType outer);
               Do_ "for i := range *in {\n" ArgNil;
               Do_ "(*out)[i] = (*in)[i].DeepCopy()\n" ArgNil;
               Do_ "}\n" ArgNil]))
  /\ (forall u, doUnknown u
                = Ok (tt, [Do_ "// FIXME: Type $.|raw$ is unsupported.\n" (ArgType u)])).
Proof.
  intros Hkey Hassign stub.
  pose proof (doMap_unassignable_key g t key Hkey Hassign) as Hmap.
  split; [exact Hmap|].
  split; [by intros Hk fuel; rewrite generateFor_S, Hk|].
  split; [|split; [|split; [|split; [|done]]]].
  - intros fuel s ms1 m ms2 w1 w2 Hk Hhas Hks Hhass Hmembers Hm H1 H2.
    rewrite generateFor_S, Hks. unfold doStruct. rewrite Hhass. cbn [lift].
    rewrite gbind_ret_l. rewrite Hmembers, forEach_app, H1.
    cbn [forEach].
    rewrite (doStructMember_reference _ m t t Hm Hhas)
      by (auto; apply unwrapAlias_not_alias; congruence).
    rewrite generateFor_S, Hk, Hmap, H2. reflexivity.
  - intros fuel p Hk Hhas Has Hkp Hp.
    rewrite generateFor_S, Hkp. unfold doPointer.
    rewrite Hp. simpl. rewrite Hhas. simpl. rewrite Has, !Hk.
    simpl. rewrite ?Hk, Hmap. reflexivity.
  - intros outer okey ttag Hk Hhas Han Has Htag Hokey Hoa Helem.
    unfold doMap, copyableAndInBounds, copyableType.
    rewrite Hokey. simpl. rewrite Hoa, Helem. simpl.
    rewrite Hhas. simpl. rewrite Han, Has, Htag, Hk. simpl.
    by destruct (tagIs ttag "false").
  - intros gen outer Hk Hhas Has Hho Helem.
    unfold doSlice. rewrite Hho. simpl. rewrite Helem. simpl.
    rewrite Hhas. simpl. rewrite Has, Hk. reflexivity.
Qed.

(** ** Blocks *)

Lemma depthAfter_app (d : nat) (w1 w2 : list snippet) :
  depthAfter d (w1 ++ w2)
  = match depthAfter d w1 with
    | Some d1 => depthAfter d1 w2
    | None => None
    end.
Proof.
  revert d. induction w1 as [|s w1 IH]; intros d; [reflexivity|].
  simpl. destruct (Nat.leb (closes (format s)) d); [apply IH | reflexivity].
Qed.

Lemma depthAfter_shift (k d d' : nat) (w : list snippet) :
  depthAfter d w = Some d' -> depthAfter (d + k) w = Some (d' + k).
Proof.
  revert d. induction w as [|s w IH]; intros d; simpl.
  - by intros [= ->].
  - destruct (Nat.leb_spec (closes (format s)) d) as [Hle|Hlt]; [|discriminate].
    intros H. destruct (Nat.leb_spec (closes (format s)) (d + k)) as [_|Hlt]; [|lia].
    apply IH in H. rewrite <- H. f_equal. lia.
Qed.

Lemma balanced_at (d : nat) (w : list snippet) : balanced w -> depthAfter d w = Some d.
Proof. intros H. apply (depthAfter_shift d) in H. exact H. Qed.

Lemma net_bind {A B : Type} (d d1 d2 : nat) (m : Gen A) (k : A -> Gen B) :
  netGen d d1 m -> (forall a, netGen d1 d2 (k a)) -> netGen d d2 (gbind m k).
Proof.
  intros Hm Hk b w H. apply gbind_Ok_inv in H as (a & w1 & w2 & H1 & H2 & ->).
  rewrite depthAfter_app, (Hm _ _ H1). by apply (Hk a b).
Qed.

Lemma net_lift {A : Type} (d : nat) (m : outcome A) : netGen d d (lift m).
Proof. intros a w H. apply lift_Ok_inv in H as [_ ->]. reflexivity. Qed.

Lemma net_gret {A : Type} (d : nat) (a : A) : netGen d d (gret a).
Proof. intros a' w [= _ <-]. reflexivity. Qed.

Lemma net_Do (d d' : nat) (fmt : string) (a : arg) :
  closes fmt <= d -> d' = d - closes fmt + opens fmt -> netGen d d' (Do fmt a).
Proof.
  intros Hle -> u w H. injection H as _ <-. cbn [depthAfter format].
  destruct (Nat.leb_spec (closes fmt) d) as [_|Hlt]; [reflexivity | lia].
Qed.

Lemma net_forEach {A : Type} (d : nat) (l : list A) (f : A -> Gen unit) :
  (forall x, netGen d d (f x)) -> netGen d d (forEach l f).
Proof.
  intros Hf. induction l as [|x l IH]; simpl.
  - apply net_gret.
  - eapply net_bind; [apply Hf | intros _; apply IH].
Qed.

Lemma netGen_balanced {A : Type} (m : Gen A) (a : A) (w : list snippet) :
  (forall d, netGen d d m) -> m = Ok (a, w) -> balanced w.
Proof. intros H Hm. by apply (H 0 a). Qed.

Lemma endsWith_open_call (name : string) : endsWith "{\n" (name ++ "()\n") = false.
Proof.
  induction name as [|c name IH]; [reflexivity|].
  change (String.eqb "{\n" (String c (name ++ "()\n")) || endsWith "{\n" (name ++ "()\n")
          = false).
  rewrite IH, orb_false_r.
  apply String.eqb_neq. intros H. injection H as _ H.
  destruct name as [|c1 [|c2 [|c3 name]]]; simpl in H;
    repeat (first [discriminate H | injection H as _ H]).
Qed.

Lemma opens_call (pre name : string) :
  (forall s, endsWith "{\n" (pre ++ s) = endsWith "{\n" s) ->
  opens (pre ++ name ++ "()\n") = 0.
Proof. intros H. unfold opens. by rewrite H, endsWith_open_call. Qed.

Lemma opens_map_call (name : string) :
  opens ("(*out)[key] = val.DeepCopy" ++ name ++ "()\n") = 0.
Proof. apply opens_call. reflexivity. Qed.

Lemma opens_slice_call (name : string) :
  opens ("(*out)[i] = (*in)[i].DeepCopy" ++ name ++ "()\n") = 0.
Proof. apply opens_call. reflexivity. Qed.

Lemma opens_member_call (name : string) :
  opens ("out.$.name$ = in.$.name$.DeepCopy" ++ name ++ "()\n") = 0.
Proof. apply opens_call. reflexivity. Qed.

Lemma closes_map_call (name : string) :
  closes ("(*out)[key] = val.DeepCopy" ++ name ++ "()\n") = 0.
Proof. reflexivity. Qed.

Lemma closes_slice_call (name : string) :
  closes ("(*out)[i] = (*in)[i].DeepCopy" ++ name ++ "()\n") = 0.
Proof. reflexivity. Qed.

Lemma closes_member_call (name : string) :
  closes ("out.$.name$ = in.$.name$.DeepCopy" ++ name ++ "()\n") = 0.
Proof. reflexivity. Qed.

Lemma net_Do_plain (d : nat) (fmt : string) (a : arg) :
  closes fmt = 0 -> opens fmt = 0 -> netGen d d (Do fmt a).
Proof. intros Hc Ho. apply net_Do; lia. Qed.

Lemma net_Do_open (d : nat) (fmt : string) (a : arg) :
  closes fmt = 0 -> opens fmt = 1 -> netGen d (S d) (Do fmt a).
Proof. intros Hc Ho. apply net_Do; lia. Qed.

Lemma net_Do_close (d : nat) (fmt : string) (a : arg) :
  closes fmt = 1 -> opens fmt = 0 -> netGen (S d) d (Do fmt a).
Proof. intros Hc Ho. apply net_Do; lia. Qed.

Lemma net_Do_close2 (d : nat) (fmt : string) (a : arg) :
  closes fmt = 2 -> opens fmt = 0 -> netGen (S (S d)) d (Do fmt a).
Proof. intros Hc Ho. apply net_Do; lia. Qed.

Ltac net_side :=
  lazymatch goal with
  | |- opens (String.append _ _) = 0 =>
      first [apply opens_map_call | apply opens_slice_call | apply opens_member_call]
  | |- opens (String.append _ _) = _ => fail
  | |- _ => vm_compute; reflexivity
  end.

Ltac net_Do_tac :=
  first [eapply net_Do_plain; [net_side | net_side]
        | eapply net_Do_open; [net_side | net_side]
        | eapply net_Do_close; [net_side | net_side]
        | eapply net_Do_close2; [net_side | net_side]].

Ltac net_step :=
  match goal with
  | |- netGen _ _ (gbind (lift _) _) => eapply net_bind; [apply net_lift | intros ?]
  | |- netGen _ _ (gbind (Do _ _) _) => eapply net_bind; [net_Do_tac | intros _]
  | |- netGen ?d _ (gbind _ _) => eapply (net_bind d d); [ | intros _]
  | |- netGen _ _ (Do _ _) => net_Do_tac
  | |- netGen _ _ (gret _) => apply net_gret
  | |- netGen _ _ (if ?c then _ else _) => destruct c
  | |- netGen _ _ (match ?x with _ => _ end) => destruct x
  end.

Lemma net_doMap (g : genDeepCopy) (t : Type_.t) (d : nat) : netGen d d (doMap g t).
Proof. unfold doMap. repeat net_step. Qed.

Lemma net_doSlice (generateFor' : Type_.t -> Gen unit) (t : Type_.t) (d : nat) :
  (forall t' d', netGen d' d' (generateFor' t')) -> netGen d d (doSlice generateFor' t).
Proof. intros IH. unfold doSlice. repeat first [apply IH | net_step]. Qed.

Lemma net_doStructMember (generateFor' : Type_.t -> Gen unit) (m : Member.t) (d : nat) :
  (forall t' d', netGen d' d' (generateFor' t')) ->
  netGen d d (doStructMember generateFor' m).
Proof. intros IH. unfold doStructMember. repeat first [apply IH | net_step]. Qed.

Lemma net_doStruct (generateFor' : Type_.t -> Gen unit) (t : Type_.t) (d : nat) :
  (forall t' d', netGen d' d' (generateFor' t')) -> netGen d d (doStruct generateFor' t).
Proof.
  intros IH. unfold doStruct.
  repeat first [apply net_forEach; intros ?; by apply net_doStructMember | net_step].
Qed.

Lemma net_doPointer (generateFor' : Type_.t -> Gen unit) (t : Type_.t) (d : nat) :
  (forall t' d', netGen d' d' (generateFor' t')) -> netGen d d (doPointer generateFor' t).
Proof. intros IH. unfold doPointer. repeat first [apply IH | net_step]. Qed.

(** Whatever [generateFor] writes has its blocks closed. *)
Lemma net_generateFor (fuel : nat) (g : genDeepCopy) (t : Type_.t) (d : nat) :
  netGen d d (generateFor fuel g t).
Proof.
  revert t d. induction fuel as [|fuel IH]; intros t d; [by intros a w H|].
  rewrite generateFor_S.
  destruct (Type_.Kind t);
    auto using net_doMap, net_doSlice, net_doStruct, net_doPointer;
    unfold doBuiltin, doInterface, doAlias, doUnknown; net_step.
Qed.

Lemma balanced_generateFor (fuel : nat) (g : genDeepCopy) (t : Type_.t) (w : list snippet) :
  generateFor fuel g t = Ok (tt, w) -> balanced w.
Proof. apply netGen_balanced. intros d. apply net_generateFor. Qed.

Lemma forEach_Ok_inv {A : Type} (l : list A) (f : A -> Gen unit) (w : list snippet) :
  forEach l f = Ok (tt, w) ->
  exists codes, w = concat codes /\ Forall2 (fun x c => f x = Ok (tt, c)) l codes.
Proof.
  revert w. induction l as [|x l IH]; intros w; simpl.
  - intros [= <-]. exists []. by split; [|constructor].
  - intros H. apply gbind_Ok_inv in H as ([] & w1 & w2 & H1 & H2 & ->).
    apply IH in H2 as (codes & -> & Hall). exists (w1 :: codes).
    split; [reflexivity|]. by constructor.
Qed.

(** The code of a member of kind map, slice or pointer is a block guarded
    by the test of the source field against nil. *)
Lemma doStructMember_guarded (generateFor' : Type_.t -> Gen unit) (m : Member.t)
    (t0 t : Type_.t) (w : list snippet) :
  (forall t' w', generateFor' t' = Ok (tt, w') -> balanced w') ->
  deref (Member.Type_ m) = Ok t0 ->
  unwrapAlias t0 = Ok t ->
  Type_.Kind t = Kind.Map \/ Type_.Kind t = Kind.Slice \/ Type_.Kind t = Kind.Pointer ->
  doStructMember generateFor' m = Ok (tt, w) ->
  guardedBy (Do_ "if in.$.name$ != nil {\n" (ArgMember t (Type_.Kind t) (Member.Name m)))
            (Do_ "}\n" ArgNil) w.
Proof.
  intros Hbal Ht0 Hu Hk. unfold doStructMember. rewrite Ht0. cbn [lift].
  rewrite gbind_ret_l.
  destruct (hasDeepCopyMethod t0) as [hasMethod| | |]; try discriminate. cbn [lift].
  rewrite gbind_ret_l, Hu. cbn [lift]. rewrite gbind_ret_l.
  assert (forall body,
            (if hasMethod
             then Do "if in.$.name$ != nil {\n" (ArgMember t (Type_.Kind t) (Member.Name m)) ;;;
                  Do "out.$.name$ = in.$.name$.DeepCopy()\n"
                     (ArgMember t (Type_.Kind t) (Member.Name m)) ;;;
                  Do "}\n" ArgNil
             else Do "if in.$.name$ != nil {\n" (ArgMember t (Type_.Kind t) (Member.Name m)) ;;;
                  Do "in, out := &in.$.name$, &out.$.name$\n"
                     (ArgMember t (Type_.Kind t) (Member.Name m)) ;;;
                  generateFor' t ;;;
                  Do "}\n" ArgNil) = Ok (tt, body) ->
            guardedBy (Do_ "if in.$.name$ != nil {\n"
                           (ArgMember t (Type_.Kind t) (Member.Name m)))
                      (Do_ "}\n" ArgNil) body) as Hcases.
  { intros body. destruct hasMethod.
    - intros [= <-]. eexists [_]. split; [reflexivity|]. reflexivity.
    - intros H.
      apply gbind_Ok_inv in H as ([] & w1 & w2 & [= <-] & H & ->).
      apply gbind_Ok_inv in H as ([] & w3 & w4 & [= <-] & H & ->).
      apply gbind_Ok_inv in H as ([] & inner & w5 & Hinner & [= <-] & ->).
      exists (Do_ "in, out := &in.$.name$, &out.$.name$\n"
                  (ArgMember t (Type_.Kind t) (Member.Name m)) :: inner).
      split; [reflexivity|]. apply Hbal in Hinner. exact Hinner. }
  destruct Hk as [Hk|[Hk|Hk]]; intros H; apply Hcases; rewrite Hk in H |- *; exact H.
Qed.

Lemma doSlice_of_slices (generateFor' : Type_.t -> Gen unit) (t elem : Type_.t)
    (inner : list snippet) :
  hasDeepCopyMethod t = Ok false ->
  deref (Type_.Elem t) = Ok elem ->
  hasDeepCopyMethod elem = Ok false ->
  IsAssignable elem = false ->
  Type_.Kind elem = Kind.Slice ->
  generateFor' elem = Ok (tt, inner) ->
  doSlice generateFor' t
  = Ok (tt,
        [Do_ "*out = make($.|raw$, len(*in))\n" (ArgType t);
         Do_ "for i := range *in {\n" ArgNil;
         Do_ "if (*in)[i] != nil {\n" ArgNil;
         Do_ "in, out := &(*in)[i], &(*out)[i]\n" ArgNil]
        ++ inner
        ++ [Do_ "}\n" ArgNil; Do_ "}\n" ArgNil]).
Proof.
  intros Hh He Hhe Ha Hk Hinner. unfold doSlice.
  rewrite Hh, He. simpl. rewrite Hhe. simpl. rewrite Hk, Ha. simpl.
  rewrite Hinner. simpl. by rewrite <- app_assoc.
Qed.

Lemma doSlice_of_pointers (generateFor' : Type_.t -> Gen unit) (t elem : Type_.t) :
  hasDeepCopyMethod t = Ok false ->
  deref (Type_.Elem t) = Ok elem ->
  hasDeepCopyMethod elem = Ok false ->
  IsAssignable elem = false ->
  Type_.Kind elem = Kind.Pointer ->
  doSlice generateFor' t
  = Ok (tt,
        [Do_ "*out = make($.|raw$, len(*in))\n" (ArgType t);
         Do_ "for i := range *in {\n" ArgNil;
         Do_ "if (*in)[i]==nil { (*out)[i]=nil } else {\n" ArgNil;
         Do_ "(*out)[i] = new($.Elem|raw$)\n" (ArgType elem);
         Do_ "(*in)[i].DeepCopyInto((*out)[i])\n" ArgNil;
         Do_ "}\n" ArgNil;
         Do_ "}\n" ArgNil]).
Proof.
  intros Hh He Hhe Ha Hk. unfold doSlice.
  rewrite Hh, He. simpl. rewrite Hhe. simpl. by rewrite Hk, Ha.
Qed.

(** [copyableAndInBounds] on a type that is no struct. *)
Lemma copyableAndInBounds_not_struct (g : genDeepCopy) (t : Type_.t) (ttag : option tagValue) :
  extractTag (Type_.CommentLines t) = Ok ttag ->
  Type_.Kind t <> Kind.Struct ->
  copyableAndInBounds g t = Ok false.
Proof.
  intros Htag Hk. unfold copyableAndInBounds, copyableType. rewrite Htag. simpl.
  destruct (tagIs ttag "false"); [done|].
  by destruct (Type_.Kind t).
Qed.

Lemma doMap_of_pointers (g : genDeepCopy) (t key elem : Type_.t) (ttag : option tagValue) :
  deref (Type_.Key t) = Ok key ->
  IsAssignable key = true ->
  deref (Type_.Elem t) = Ok elem ->
  hasDeepCopyMethod elem = Ok false ->
  IsAnonymousStruct elem = false ->
  IsAssignable elem = false ->
  extractTag (Type_.CommentLines elem) = Ok ttag ->
  Type_.Kind elem = Kind.Pointer ->
  doMap g t
  = Ok (tt,
        [Do_ "*out = make($.|raw$, len(*in))\n" (ArgType t);
         Do_ "for key, val := range *in {\n" ArgNil;
         Do_ "if val==nil { (*out)[key]=nil } else {\n" ArgNil;
         Do_ "(*out)[key] = new($.Elem|raw$)\n" (ArgType elem);
         Do_ "val.DeepCopyInto((*out)[key])\n" ArgNil;
         Do_ "}\n" ArgNil;
         Do_ "}\n" ArgNil]).
Proof.
  intros Hkey Hka He Hhe Hs Ha Htag Hk. unfold doMap.
  rewrite Hkey. simpl. rewrite Hka, He. simpl. rewrite Hhe. simpl. rewrite Hs, Ha.
  rewrite (copyableAndInBounds_not_struct g elem ttag) by (done || congruence).
  rewrite Hk. reflexivity.
Qed.

Lemma doMap_of_builtin_slices (g : genDeepCopy) (t key elem ee : Type_.t)
    (ttag : option tagValue) :
  deref (Type_.Key t) = Ok key ->
  IsAssignable key = true ->
  deref (Type_.Elem t) = Ok elem ->
  hasDeepCopyMethod elem = Ok false ->
  IsAnonymousStruct elem = false ->
  IsAssignable elem = false ->
  extractTag (Type_.CommentLines elem) = Ok ttag ->
  Type_.Kind elem = Kind.Slice ->
  deref (Type_.Elem elem) = Ok ee ->
  Type_.Kind ee = Kind.Builtin ->
  doMap g t
  = Ok (tt,
        [Do_ "*out = make($.|raw$, len(*in))\n" (ArgType t);
         Do_ "for key, val := range *in {\n" ArgNil;
         Do_ "if val==nil { (*out)[key]=nil } else {\n" ArgNil;
         Do_ "(*out)[key] = make($.|raw$, len(val))\n" (ArgType elem);
         Do_ "copy((*out)[key], val)\n" ArgNil;
         Do_ "}\n" ArgNil;
         Do_ "}\n" ArgNil]).
Proof.
  intros Hkey Hka He Hhe Hs Ha Htag Hk Hee Hkee. unfold doMap.
  rewrite Hkey. simpl. rewrite Hka, He. simpl. rewrite Hhe. simpl. rewrite Hs, Ha.
  rewrite (copyableAndInBounds_not_struct g elem ttag) by (done || congruence).
  rewrite Hk. simpl. rewrite Hee. simpl. rewrite Hkee. reflexivity.
Qed.

Lemma doPointer_guarded (generateFor' : Type_.t -> Gen unit) (t : Type_.t)
    (w : list snippet) :
  (forall t' d, netGen d d (generateFor' t')) ->
  doPointer generateFor' t = Ok (tt, w) ->
  guardedBy (Do_ "if *in == nil { *out = nil } else {\n" (ArgType t)) (Do_ "}" (ArgType t)) w.
Proof.
  intros Hnet H. unfold doPointer in H.
  apply gbind_Ok_inv in H as ([] & w1 & w2 & [= <-] & H & ->).
  apply gbind_Ok_inv in H as ([] & body & w3 & Hbody & [= <-] & ->).
  exists body. split; [reflexivity|].
  revert Hbody. apply netGen_balanced. intros d.
  repeat first [apply Hnet | net_step].
Qed.

Lemma doPointer_to_reference (generateFor' : Type_.t -> Gen unit) (t elem : Type_.t)
    (inner : list snippet) :
  deref (Type_.Elem t) = Ok elem ->
  hasDeepCopyMethod elem = Ok false ->
  IsAssignable elem = false ->
  Type_.Kind elem = Kind.Map \/ Type_.Kind elem = Kind.Slice ->
  generateFor' elem = Ok (tt, inner) ->
  doPointer generateFor' t
  = Ok (tt,
        [Do_ "if *in == nil { *out = nil } else {\n" (ArgType t);
         Do_ "*out = new($.Elem|raw$)\n" (ArgType t);
         Do_ "if **in != nil {\n" (ArgType t);
         Do_ "in, out := *in, *out\n" ArgNil]
        ++ inner
        ++ [Do_ "}\n" ArgNil; Do_ "}" (ArgType t)]).
Proof.
  intros He Hhe Ha Hk Hinner. unfold doPointer.
  rewrite He. simpl. rewrite Hhe. simpl. rewrite Ha.
  destruct Hk as [Hk|Hk]; rewrite Hk; simpl; rewrite Hinner; simpl;
    by rewrite <- app_assoc.
Qed.

(** C1, as the code has it.  The allocating copy that [GenerateType]
    writes, for a type that needs generation and has no method named
    [DeepCopy], returns nil on a nil receiver.  The in-place copy of a
    struct without method [DeepCopy] of its own first assigns the whole
    struct, which keeps a nil field nil, and the code that it writes for a
    field whose type, once an alias is unwrapped, is of kind map, slice or
    pointer is a block guarded by the test of the source field against
    nil.  Below the fields, the code written for a pointer starts with the
    test of the pointer against nil and keeps all the rest in the other
    branch; a pointee of kind map or slice, without method [DeepCopy] and
    not assignable, is copied under a test against nil; in a slice without
    method [DeepCopy], the elements that are themselves slices or
    pointers, of a type without method [DeepCopy] and not assignable, are
    copied under a test of the element against nil; in a map whose key
    type is assignable, the values that are pointers or slices of
    builtins, of a type without method [DeepCopy], not assignable, no
    anonymous struct and with a directive that [extractTag] accepts, are
    copied under a test of the value against nil. *)
Theorem nil_preservation (fuel : nat) (g : genDeepCopy) :
  (forall t e w,
      needsGeneration g t = Ok true ->
      Type_.Methods t !! "DeepCopy" = None ->
      GenerateType fuel g t = Ok (e, w) ->
      exists pre post,
        w = pre
            ++ [Do_ "// DeepCopy is an autogenerated deepcopy function, copying the receiver, creating a new $.type|raw$.\n" (argsFromType [t]);
                Do_ deepCopyDecl (argsFromType [t]);
                Do_ "if in == nil { return nil }\n" ArgNil;
                Do_ "out := new($.type|raw$)\n" (argsFromType [t]);
                Do_ "in.DeepCopyInto(out)\n" ArgNil;
                Do_ "return out\n" ArgNil;
                Do_ "}\n\n" ArgNil]
            ++ post)
  /\ (forall s w,
        Type_.Kind s = Kind.Struct ->
        hasDeepCopyMethod s = Ok false ->
        generateFor (S fuel) g s = Ok (tt, w) ->
        exists codes,
          w = Do_ "*out = *in\n" ArgNil :: concat codes
          /\ Forall2
               (fun m code =>
                  doStructMember (generateFor fuel g) m = Ok (tt, code)
                  /\ forall t0 t,
                       deref (Member.Type_ m) = Ok t0 ->
                       unwrapAlias t0 = Ok t ->
                       Type_.Kind t = Kind.Map \/ Type_.Kind t = Kind.Slice
                       \/ Type_.Kind t = Kind.Pointer ->
                       guardedBy
                         (Do_ "if in.$.name$ != nil {\n"
                              (ArgMember t (Type_.Kind t) (Member.Name m)))
                         (Do_ "}\n" ArgNil) code)
               (Type_.Members s) codes)
  /\ (forall t w,
        Type_.Kind t = Kind.Pointer ->
        generateFor (S fuel) g t = Ok (tt, w) ->
        guardedBy (Do_ "if *in == nil { *out = nil } else {\n" (ArgType t))
                  (Do_ "}" (ArgType t)) w)
  /\ (forall t elem inner,
        Type_.Kind t = Kind.Pointer ->
        deref (Type_.Elem t) = Ok elem ->
        hasDeepCopyMethod elem = Ok false ->
        IsAssignable elem = false ->
        Type_.Kind elem = Kind.Map \/ Type_.Kind elem = Kind.Slice ->
        generateFor fuel g elem = Ok (tt, inner) ->
        balanced inner
        /\ generateFor (S fuel) g t
           = Ok (tt,
                 [Do_ "if *in == nil { *out = nil } else {\n" (ArgType t);
                  Do_ "*out = new($.Elem|raw$)\n" (ArgType t);
                  Do_ "if **in != nil {\n" (ArgType t);
                  Do_ "in, out := *in, *out\n" ArgNil]
                 ++ inner
                 ++ [Do_ "}\n" ArgNil; Do_ "}" (ArgType t)]))
  /\ (forall t elem inner,
        Type_.Kind t = Kind.Slice ->
        hasDeepCopyMethod t = Ok false ->
        deref (Type_.Elem t) = Ok elem ->
        hasDeepCopyMethod elem = Ok false ->
        IsAssignable elem = false ->
        Type_.Kind elem = Kind.Slice ->
        generateFor fuel g elem = Ok (tt, inner) ->
        balanced inner
        /\ generateFor (S fuel) g t
           = Ok (tt,
                 [Do_ "*out = make($.|raw$, len(*in))\n" (ArgType t);
                  Do_ "for i := range *in {\n" ArgNil;
                  Do_ "if (*in)[i] != nil {\n" ArgNil;
                  Do_ "in, out := &(*in)[i], &(*out)[i]\n" ArgNil]
                 ++ inner
                 ++ [Do_ "}\n" ArgNil; Do_ "}\n" ArgNil]))
  /\ (forall t elem,
        Type_.Kind t = Kind.Slice ->
        hasDeepCopyMethod t = Ok false ->
        deref (Type_.Elem t) = Ok elem ->
        hasDeepCopyMethod elem = Ok false ->
        IsAssignable elem = false ->
        Type_.Kind elem = Kind.Pointer ->
        generateFor (S fuel) g t
        = Ok (tt,
              [Do_ "*out = make($.|raw$, len(*in))\n" (ArgType t);
               Do_ "for i := range *in {\n" ArgNil;
               Do_ "if (*in)[i]==nil { (*out)[i]=nil } else {\n" ArgNil;
               Do_ "(*out)[i] = new($.Elem|raw$)\n" (ArgType elem);
               Do_ "(*in)[i].DeepCopyInto((*out)[i])\n" ArgNil;
               Do_ "}\n" ArgNil;
               Do_ "}\n" ArgNil]))
  /\ (forall t key elem ttag,
        Type_.Kind t = Kind.Map ->
        deref (Type_.Key t) = Ok key ->
        IsAssignable key = true ->
        deref (Type_.Elem t) = Ok elem ->
        hasDeepCopyMethod elem = Ok false ->
        IsAnonymousStruct elem = false ->
        IsAssignable elem = false ->
        extractTag (Type_.CommentLines elem) = Ok ttag ->
        (Type_.Kind elem = Kind.Pointer ->
         generateFor (S fuel) g t
         = Ok (tt,
               [Do_ "*out = make($.|raw$, len(*in))\n" (ArgType t);
                Do_ "for key, val := range *in {\n" ArgNil;
                Do_ "if val==nil { (*out)[key]=nil } else {\n" ArgNil;
                Do_ "(*out)[key] = new($.Elem|raw$)\n" (ArgType elem);
                Do_ "val.DeepCopyInto((*out)[key])\n" ArgNil;
                Do_ "}\n" ArgNil;
                Do_ "}\n" ArgNil]))
        /\ (forall ee,
              Type_.Kind elem = Kind.Slice ->
              deref (Type_.Elem elem) = Ok ee ->
              Type_.Kind ee = Kind.Builtin ->
              generateFor (S fuel) g t
              = Ok (tt,
                    [Do_ "*out = make($.|raw$, len(*in))\n" (ArgType t);
                     Do_ "for key, val := range *in {\n" ArgNil;
                     Do_ "if val==nil { (*out)[key]=nil } else {\n" ArgNil;
                     Do_ "(*out)[key] = make($.|raw$, len(val))\n" (ArgType elem);
                     Do_ "copy((*out)[key], val)\n" ArgNil;
                     Do_ "}\n" ArgNil;
                     Do_ "}\n" ArgNil]))).
Proof.
  split; [|split; [|split; [|split; [|split; [|split]]]]].
  - intros t e w Hneeded Hm H.
    unfold GenerateType in H. rewrite Hneeded in H. cbn [lift negb] in H.
    rewrite gbind_ret_l in H.
    apply gbind_Ok_inv in H as ([] & w1 & w2 & _ & H & ->).
    apply gbind_Ok_inv in H as ([] & w3 & w4 & Hcopy & _ & ->).
    unfold generateDeepCopy in Hcopy. rewrite Hm in Hcopy. injection Hcopy as <-.
    exists w1, w4. reflexivity.
  - intros s w Hk Hh H. rewrite generateFor_S, Hk in H. unfold doStruct in H.
    rewrite Hh in H. cbn [lift] in H. rewrite gbind_ret_l in H.
    apply gbind_Ok_inv in H as ([] & w1 & w2 & [= <-] & H & ->).
    apply forEach_Ok_inv in H as (codes & -> & Hall).
    exists codes. split; [reflexivity|].
    eapply Forall2_impl; [exact Hall|]. intros m code Hm. split; [exact Hm|].
    intros t0 t Ht0 Hu Hkt.
    apply (doStructMember_guarded (generateFor fuel g) m t0 t code);
      [intros t' w'; apply balanced_generateFor | exact Ht0 | exact Hu | exact Hkt
      | exact Hm].
  - intros t w Hk H. rewrite generateFor_S, Hk in H.
    eapply doPointer_guarded; [|exact H]. intros t' d. apply net_generateFor.
  - intros t elem inner Hk He Hhe Ha Hke Hinner.
    split; [by eapply balanced_generateFor|].
    rewrite generateFor_S, Hk. by eapply doPointer_to_reference.
  - intros t elem inner Hk Hh He Hhe Ha Hke Hinner.
    split; [by eapply balanced_generateFor|].
    rewrite generateFor_S, Hk. by eapply doSlice_of_slices.
  - intros t elem Hk Hh He Hhe Ha Hke.
    rewrite generateFor_S, Hk. by eapply doSlice_of_pointers.
  - intros t key elem ttag Hk Hkey Hka He Hhe Hs Ha Htag. split.
    + intros Hke. rewrite generateFor_S, Hk. by eapply doMap_of_pointers.
    + intros ee Hke Hee Hkee. rewrite generateFor_S, Hk.
      by eapply doMap_of_builtin_slices.
Qed.

(** ** Termination *)

Lemma wfNode_has (t : Type_.t) :
  wfNode t = true -> exists b, hasDeepCopyMethod t = Ok b.
Proof.
  unfold wfNode. destruct (hasDeepCopyMethod t) as [b| | |]; try discriminate.
  intros _. by exists b.
Qed.

Lemma wfNode_tag (t : Type_.t) :
  wfNode t = true -> exists ttag, extractTag (Type_.CommentLines t) = Ok ttag.
Proof.
  unfold wfNode. rewrite !andb_true_iff.
  destruct (extractTag (Type_.CommentLines t)) as [ttag| | |];
    [intros _; by exists ttag | | |]; intros [[_ H] _]; discriminate H.
Qed.

Lemma wfNode_elem (t : Type_.t) :
  wfNode t = true ->
  Type_.Kind t = Kind.Map \/ Type_.Kind t = Kind.Slice \/ Type_.Kind t = Kind.Pointer ->
  exists e, Type_.Elem t = Some e.
Proof.
  unfold wfNode. rewrite andb_true_iff. intros [_ H] Hk.
  destruct (Type_.Elem t) as [e|]; [by exists e|].
  destruct Hk as [Hk|[Hk|Hk]]; rewrite Hk in H; simpl in H;
    [by rewrite andb_false_r in H| |]; done.
Qed.

Lemma wfNode_key (t : Type_.t) :
  wfNode t = true -> Type_.Kind t = Kind.Map -> exists k, Type_.Key t = Some k.
Proof.
  unfold wfNode. rewrite andb_true_iff. intros [_ H] Hk. rewrite Hk in H.
  destruct (Type_.Key t) as [k|]; [by exists k | done].
Qed.

Lemma wfNode_underlying (t : Type_.t) :
  wfNode t = true -> Type_.Kind t = Kind.Alias -> exists u, Type_.Underlying t = Some u.
Proof.
  unfold wfNode. rewrite andb_true_iff. intros [_ H] Hk. rewrite Hk in H.
  destruct (Type_.Underlying t) as [u|]; [by exists u | done].
Qed.

Lemma wfNode_members (t : Type_.t) (m : Member.t) :
  wfNode t = true -> Type_.Kind t = Kind.Struct -> In m (Type_.Members t) ->
  exists a, Member.Type_ m = Some a.
Proof.
  unfold wfNode. rewrite andb_true_iff. intros [_ H] Hk Hin. rewrite Hk in H.
  rewrite forallb_forall in H. specialize (H m Hin).
  destruct (Member.Type_ m) as [a|]; [by exists a | done].
Qed.

Lemma hasDeepCopyMethod_withName (n : Name.t) (t : Type_.t) :
  isOk (hasDeepCopyMethod t) = true ->
  isOk (hasDeepCopyMethod (Type_.withName n t)) = true.
Proof.
  unfold hasDeepCopyMethod. simpl.
  destruct (Type_.Methods t !! "DeepCopy") as [[a|]|]; try done. simpl.
  destruct (Type_.Signature (mem a)) as [sg|]; try done.
  destruct (negb (Nat.eqb (length (Signature.Parameters sg)) 0)); [done|].
  destruct (negb (Nat.eqb (length (Signature.Results sg)) 1)); [done|].
  destruct (Signature.Results sg) as [|[r|] ?]; try done. simpl.
  intros _. by destruct (negb (Name.eqb (Type_.Name (mem r)) n)).
Qed.

Lemma wfNode_withName (n : Name.t) (t : Type_.t) :
  wfNode t = true -> wfNode (Type_.withName n t) = true.
Proof.
  unfold wfNode. rewrite !andb_true_iff. intros [[Hh Ht] Hk].
  split; [split|]; [by apply hasDeepCopyMethod_withName | exact Ht | exact Hk].
Qed.

Lemma sliceDepth_withName (d : nat) (n : Name.t) (t : Type_.t) :
  sliceDepth d (Type_.withName n t) = sliceDepth d t.
Proof. by destruct d. Qed.

Lemma copyableAndInBounds_ok (g : genDeepCopy) (t : Type_.t) :
  wfNode t = true -> exists b, copyableAndInBounds g t = Ok b.
Proof.
  intros Hwf. destruct (wfNode_tag t Hwf) as [ttag Htag].
  unfold copyableAndInBounds, copyableType. rewrite Htag. simpl.
  destruct (tagIs ttag "false"); [by eexists|].
  destruct (negb (Kind.eqb (Type_.Kind t) Kind.Struct)); [by eexists|].
  destruct (IsPrivateGoName _); [by eexists|]. simpl.
  destruct (negb (isRootedUnder _ _)); by eexists.
Qed.

Lemma doMap_ok (g : genDeepCopy) (t : Type_.t) :
  (forall a, wfNode (mem a) = true) ->
  wfNode t = true ->
  Type_.Kind t = Kind.Map ->
  okGen (doMap g t).
Proof.
  intros Hwf Ht Hk.
  destruct (wfNode_key t Ht Hk) as [k Hkey].
  destruct (wfNode_elem t Ht (or_introl Hk)) as [e Helem].
  unfold okGen, doMap. rewrite Hkey, Helem. simpl.
  destruct (IsAssignable (mem k)); [|reflexivity].
  destruct (wfNode_has _ (Hwf e)) as [b ->]. simpl. destruct b; [reflexivity|].
  destruct (IsAnonymousStruct (mem e)); [reflexivity|].
  destruct (IsAssignable (mem e)); [reflexivity|].
  destruct (Kind.eqb (Type_.Kind (mem e)) Kind.Interface); [reflexivity|].
  destruct (copyableAndInBounds_ok g _ (Hwf e)) as [c ->]. simpl.
  destruct c; [reflexivity|].
  destruct (Type_.Kind (mem e)) eqn:Hke; simpl; try reflexivity.
  - destruct (wfNode_elem _ (Hwf e)) as [ee ->]; [auto|]. simpl.
    by destruct (Kind.eqb (Type_.Kind (mem ee)) Kind.Builtin).
  - destruct (wfNode_underlying _ (Hwf e) Hke) as [u ->]. simpl.
    destruct (Type_.Kind (mem u)) eqn:Hku; simpl; try reflexivity.
    destruct (wfNode_elem _ (Hwf u)) as [ue ->]; [auto|]. simpl.
    by destruct (Kind.eqb (Type_.Kind (mem ue)) Kind.Builtin).
Qed.

Lemma okGen_Ok {A : Type} (m : Gen A) : okGen m -> exists a w, m = Ok (a, w).
Proof. unfold okGen. destruct m as [[a w]| | |]; try discriminate. by exists a, w. Qed.

Lemma doSlice_ok (generateFor' : Type_.t -> Gen unit) (t : Type_.t) :
  (forall a, wfNode (mem a) = true) ->
  wfNode t = true ->
  Type_.Kind t = Kind.Slice ->
  (forall e, Type_.Elem t = Some e -> Type_.Kind (mem e) = Kind.Slice ->
             okGen (generateFor' (mem e))) ->
  okGen (doSlice generateFor' t).
Proof.
  intros Hwf Ht Hk Hrec.
  destruct (wfNode_elem t Ht) as [e Helem]; [auto|].
  destruct (wfNode_has t Ht) as [b Hb].
  unfold okGen, doSlice. rewrite Hb, Helem. simpl. destruct b; [reflexivity|]. simpl.
  destruct (wfNode_has _ (Hwf e)) as [be ->]. simpl. destruct be; [reflexivity|].
  destruct (Kind.eqb (Type_.Kind (mem e)) Kind.Builtin || IsAssignable (mem e));
    [reflexivity|].
  destruct (Type_.Kind (mem e)) eqn:Hke; simpl; try reflexivity.
  destruct (okGen_Ok _ (Hrec e Helem Hke)) as ([] & w & ->). reflexivity.
Qed.

Lemma doPointer_ok (generateFor' : Type_.t -> Gen unit) (t : Type_.t) :
  (forall a, wfNode (mem a) = true) ->
  wfNode t = true ->
  Type_.Kind t = Kind.Pointer ->
  (forall e, Type_.Elem t = Some e ->
             Type_.Kind (mem e) = Kind.Map \/ Type_.Kind (mem e) = Kind.Slice ->
             okGen (generateFor' (mem e))) ->
  okGen (doPointer generateFor' t).
Proof.
  intros Hwf Ht Hk Hrec.
  destruct (wfNode_elem t Ht) as [e Helem]; [auto|].
  unfold okGen, doPointer. rewrite Helem. simpl.
  destruct (wfNode_has _ (Hwf e)) as [be ->]. simpl. destruct be; [reflexivity|].
  destruct (IsAssignable (mem e)); [reflexivity|].
  destruct (Type_.Kind (mem e)) eqn:Hke; simpl; try reflexivity.
  - destruct (okGen_Ok _ (Hrec e Helem (or_introl Hke))) as ([] & w & ->).
    reflexivity.
  - destruct (okGen_Ok _ (Hrec e Helem (or_intror Hke))) as ([] & w & ->).
    reflexivity.
Qed.

Lemma Kind_eqb_eq (a b : Kind.t) : Kind.eqb a b = true -> a = b.
Proof. by destruct a, b. Qed.

Lemma unwrapAlias_ok (d : nat) (a : nat) :
  (forall a, wfNode (mem a) = true) ->
  (forall a, sliceDepth d (mem a) = true) ->
  exists t, unwrapAlias (mem a) = Ok t /\ wfNode t = true /\ sliceDepth d t = true.
Proof.
  intros Hwf Hsd. unfold unwrapAlias.
  destruct (Kind.eqb (Type_.Kind (mem a)) Kind.Alias) eqn:E.
  - apply Kind_eqb_eq in E. destruct (wfNode_underlying _ (Hwf a) E) as [u ->].
    simpl. eexists. split; [reflexivity|]. split.
    + by apply wfNode_withName.
    + by rewrite sliceDepth_withName.
  - exists (mem a). by repeat split.
Qed.

Lemma doStructMember_ok (d : nat) (generateFor' : Type_.t -> Gen unit) (m : Member.t)
    (a : nat) :
  (forall a, wfNode (mem a) = true) ->
  (forall a, sliceDepth d (mem a) = true) ->
  Member.Type_ m = Some a ->
  (forall t, wfNode t = true -> sliceDepth d t = true ->
             Type_.Kind t = Kind.Map \/ Type_.Kind t = Kind.Slice
             \/ Type_.Kind t = Kind.Pointer ->
             okGen (generateFor' t)) ->
  okGen (doStructMember generateFor' m).
Proof.
  intros Hwf Hsd Hm Hrec. unfold okGen, doStructMember. rewrite Hm. simpl.
  destruct (wfNode_has _ (Hwf a)) as [b ->]. simpl.
  destruct (unwrapAlias_ok d a Hwf Hsd) as (t & -> & Hwt & Hst). simpl.
  destruct (Type_.Kind t) eqn:Hk; destruct b; simpl; try reflexivity.
  - destruct (IsAssignable t); reflexivity.
  - destruct (okGen_Ok _ (Hrec t Hwt Hst (or_introl Hk))) as ([] & w & ->).
    reflexivity.
  - destruct (okGen_Ok _ (Hrec t Hwt Hst (or_intror (or_intror Hk)))) as ([] & w & ->).
    reflexivity.
  - destruct (okGen_Ok _ (Hrec t Hwt Hst (or_intror (or_introl Hk)))) as ([] & w & ->).
    reflexivity.
Qed.

Lemma forEach_ok {A : Type} (l : list A) (f : A -> Gen unit) :
  (forall x, In x l -> okGen (f x)) -> okGen (forEach l f).
Proof.
  induction l as [|x l IH]; intros H; [reflexivity|].
  unfold okGen. simpl.
  destruct (okGen_Ok _ (H x (or_introl eq_refl))) as ([] & w & ->). simpl.
  destruct (okGen_Ok _ (IH (fun y Hy => H y (or_intror Hy)))) as ([] & w' & ->).
  reflexivity.
Qed.

Lemma generateFor_slice_ok (g : genDeepCopy) (d fuel : nat) (t : Type_.t) :
  (forall a, wfNode (mem a) = true) ->
  wfNode t = true ->
  Type_.Kind t = Kind.Slice ->
  sliceDepth d t = true ->
  d <= fuel ->
  okGen (generateFor fuel g t).
Proof.
  intros Hwf. revert fuel t. induction d as [|d IH]; intros fuel t Ht Hk Hsd Hle.
  - simpl in Hsd. by rewrite Hk in Hsd.
  - destruct fuel as [|fuel]; [lia|]. rewrite generateFor_S, Hk.
    apply doSlice_ok; try done. intros e He Hke.
    simpl in Hsd. rewrite Hk, He in Hsd.
    apply IH; [apply Hwf | done | done | lia].
Qed.

Lemma generateFor_reference_ok (g : genDeepCopy) (d fuel : nat) (t : Type_.t) :
  (forall a, wfNode (mem a) = true) ->
  (forall a, sliceDepth d (mem a) = true) ->
  wfNode t = true ->
  sliceDepth d t = true ->
  Type_.Kind t = Kind.Map \/ Type_.Kind t = Kind.Slice \/ Type_.Kind t = Kind.Pointer ->
  d + 2 <= fuel ->
  okGen (generateFor fuel g t).
Proof.
  intros Hwf Hsd Ht Hst Hk Hle.
  destruct Hk as [Hk|[Hk|Hk]].
  - destruct fuel as [|fuel]; [lia|]. rewrite generateFor_S, Hk. by apply doMap_ok.
  - apply (generateFor_slice_ok g d); try done. lia.
  - destruct fuel as [|fuel]; [lia|]. rewrite generateFor_S, Hk.
    apply doPointer_ok; try done. intros e He [Hke|Hke].
    + destruct fuel as [|fuel]; [lia|]. rewrite generateFor_S, Hke.
      by apply doMap_ok.
    + apply (generateFor_slice_ok g d); try done. lia.
Qed.

Lemma generateFor_struct_ok (g : genDeepCopy) (d fuel : nat) (t : Type_.t) :
  (forall a, wfNode (mem a) = true) ->
  (forall a, sliceDepth d (mem a) = true) ->
  wfNode t = true ->
  Type_.Kind t = Kind.Struct ->
  d + 3 <= fuel ->
  okGen (generateFor fuel g t).
Proof.
  intros Hwf Hsd Ht Hk Hle.
  destruct fuel as [|fuel]; [lia|]. rewrite generateFor_S, Hk.
  destruct (wfNode_has t Ht) as [b Hb].
  unfold okGen, doStruct. rewrite Hb. simpl. destruct b; [reflexivity|].
  assert (okGen (forEach (Type_.Members t) (doStructMember (generateFor fuel g)))) as Hok.
  { apply forEach_ok. intros m Hin.
    destruct (wfNode_members t m Ht Hk Hin) as [a Ha].
    apply (doStructMember_ok d _ m a); try done.
    intros t' Hwt' Hst' Hk'. apply (generateFor_reference_ok g d); try done. lia. }
  destruct (okGen_Ok _ Hok) as ([] & w & ->). reflexivity.
Qed.

Lemma leGen_refl {A : Type} (m : Gen A) : leGen m m.
Proof. by intros r. Qed.

Lemma leGen_bind {A B : Type} (m m' : Gen A) (k k' : A -> Gen B) :
  leGen m m' -> (forall a, leGen (k a) (k' a)) -> leGen (gbind m k) (gbind m' k').
Proof.
  intros Hm Hk [b w] H. apply gbind_Ok_inv in H as (a & w1 & w2 & H1 & H2 & ->).
  apply Hm in H1. apply Hk in H2. by apply (gbind_Ok m' k' a b w1 w2).
Qed.

Ltac mono_step :=
  match goal with
  | |- leGen ?m ?m => apply leGen_refl
  | |- leGen (gbind _ _) (gbind _ _) => apply leGen_bind; [ | intros ?]
  | |- leGen (if ?c then _ else _) _ => destruct c
  | |- leGen (match ?x with _ => _ end) _ => destruct x
  end.

Lemma doSlice_mono (gen gen' : Type_.t -> Gen unit) (t : Type_.t) :
  (forall t', leGen (gen t') (gen' t')) -> leGen (doSlice gen t) (doSlice gen' t).
Proof. intros H. unfold doSlice. repeat first [apply H | mono_step]. Qed.

Lemma doStructMember_mono (gen gen' : Type_.t -> Gen unit) (m : Member.t) :
  (forall t', leGen (gen t') (gen' t')) ->
  leGen (doStructMember gen m) (doStructMember gen' m).
Proof. intros H. unfold doStructMember. repeat first [apply H | mono_step]. Qed.

Lemma forEach_mono {A : Type} (l : list A) (f f' : A -> Gen unit) :
  (forall x, leGen (f x) (f' x)) -> leGen (forEach l f) (forEach l f').
Proof.
  intros H. induction l as [|x l IH]; simpl; [apply leGen_refl|].
  apply leGen_bind; [apply H | intros _; apply IH].
Qed.

Lemma doStruct_mono (gen gen' : Type_.t -> Gen unit) (t : Type_.t) :
  (forall t', leGen (gen t') (gen' t')) -> leGen (doStruct gen t) (doStruct gen' t).
Proof.
  intros H. unfold doStruct.
  repeat first [apply forEach_mono; intros ?; by apply doStructMember_mono | mono_step].
Qed.

Lemma doPointer_mono (gen gen' : Type_.t -> Gen unit) (t : Type_.t) :
  (forall t', leGen (gen t') (gen' t')) -> leGen (doPointer gen t) (doPointer gen' t).
Proof. intros H. unfold doPointer. repeat first [apply H | mono_step]. Qed.

Lemma generateFor_mono_S (fuel : nat) (g : genDeepCopy) (t : Type_.t) :
  leGen (generateFor fuel g t) (generateFor (S fuel) g t).
Proof.
  revert t. induction fuel as [|fuel IH]; intros t; [by intros r H|].
  rewrite (generateFor_S (S fuel)), (generateFor_S fuel).
  destruct (Type_.Kind t);
    auto using leGen_refl, doSlice_mono, doStruct_mono, doPointer_mono.
Qed.

(** More fuel does not change what [generateFor] returns. *)
Lemma generateFor_mono (fuel fuel' : nat) (g : genDeepCopy) (t : Type_.t)
    (r : unit * list snippet) :
  fuel <= fuel' -> generateFor fuel g t = Ok r -> generateFor fuel' g t = Ok r.
Proof.
  induction 1 as [|fuel' Hle IH]; [done|].
  intros H. by apply generateFor_mono_S, IH.
Qed.

Lemma gbind_ext {A B : Type} (m : Gen A) (k k' : A -> Gen B) :
  (forall a, k a = k' a) -> gbind m k = gbind m k'.
Proof. intros H. destruct m as [[a w]| | |]; simpl; [by rewrite H|done..]. Qed.

Lemma forEach_ext {A : Type} (l : list A) (f f' : A -> Gen unit) :
  (forall x, f x = f' x) -> forEach l f = forEach l f'.
Proof.
  intros H. induction l as [|x l IH]; [done|]. simpl. rewrite H.
  apply gbind_ext. by intros _.
Qed.

(** The sites of the recursion: [doStructMember] calls the generator on a
    map, a slice or a pointer only, [doSlice] on a slice only and
    [doPointer] on a map or a slice only. *)
Lemma doStructMember_sites (gen gen' : Type_.t -> Gen unit) (m : Member.t) :
  (forall u, Type_.Kind u = Kind.Map \/ Type_.Kind u = Kind.Slice
             \/ Type_.Kind u = Kind.Pointer -> gen u = gen' u) ->
  doStructMember gen m = doStructMember gen' m.
Proof.
  intros H. unfold doStructMember.
  apply gbind_ext; intros t0. apply gbind_ext; intros h. apply gbind_ext; intros t'.
  cbv zeta.
  destruct (Type_.Kind t') eqn:Hk; try done; destruct h; try done;
    rewrite (H t') by auto; done.
Qed.

Lemma doSlice_sites (gen gen' : Type_.t -> Gen unit) (t : Type_.t) :
  (forall u, Type_.Kind u = Kind.Slice -> gen u = gen' u) ->
  doSlice gen t = doSlice gen' t.
Proof.
  intros H. unfold doSlice.
  apply gbind_ext; intros h. destruct h; [done|].
  apply gbind_ext; intros _. apply gbind_ext; intros elem. apply gbind_ext; intros he.
  destruct he; [done|]. destruct (_ || _); [done|].
  apply gbind_ext; intros _.
  destruct (Kind.eqb (Type_.Kind elem) Kind.Slice) eqn:Hk; [|done].
  apply Kind_eqb_eq in Hk. by rewrite (H elem Hk).
Qed.

Lemma doPointer_sites (gen gen' : Type_.t -> Gen unit) (t : Type_.t) :
  (forall u, Type_.Kind u = Kind.Map \/ Type_.Kind u = Kind.Slice -> gen u = gen' u) ->
  doPointer gen t = doPointer gen' t.
Proof.
  intros H. unfold doPointer.
  apply gbind_ext; intros _. apply (f_equal (fun m => gbind m _)).
  apply gbind_ext; intros elem. apply gbind_ext; intros h.
  destruct h; [done|]. destruct (IsAssignable elem); [done|].
  destruct (Type_.Kind elem) eqn:Hk; try done; rewrite (H elem) by auto; done.
Qed.

(** C5.  In a well-formed type graph, cyclic or not, whose directly nested
    slices are at most [d] deep, the synthesis for a struct returns with
    fuel [d + 3], and with the same code for any larger fuel: the depth of
    the recursion does not depend on the struct graph.  The code for a
    member that is a struct without method of its own and not assignable
    is the single call of the in-place routine of that struct, whatever the
    recursive generator is; the code for a member that is a pointer to a
    type without method of its own, not assignable and no map or slice, is
    the allocation followed by the single call of the in-place routine of
    the pointee, whatever the fuel is; the code for a member that is a
    pointer to an assignable type without method of its own is the
    allocation followed by the assignment of the pointee, without any
    call.  The recursive generator is called on a map, a slice or a
    pointer only from the members of a struct, on a slice only from the
    elements of a slice, and on a map or a slice only from the target of a
    pointer: what is written does not depend on what the generator does
    for a struct, whose members are so never expanded again. *)
Theorem self_reference_terminates (d : nat) (g : genDeepCopy) (t : Type_.t) :
  (forall a, wfNode (mem a) = true) ->
  (forall a, sliceDepth d (mem a) = true) ->
  wfNode t = true ->
  Type_.Kind t = Kind.Struct ->
  (exists w, forall fuel, d + 3 <= fuel -> generateFor fuel g t = Ok (tt, w))
  /\ (forall generateFor' m mt,
        deref (Member.Type_ m) = Ok mt ->
        Type_.Kind mt = Kind.Struct ->
        hasDeepCopyMethod mt = Ok false ->
        IsAssignable mt = false ->
        doStructMember generateFor' m
        = Ok (tt, [Do_ "in.$.name$.DeepCopyInto(&out.$.name$)\n"
                       (ArgMember mt Kind.Struct (Member.Name m))]))
  /\ (forall fuel m mt e,
        deref (Member.Type_ m) = Ok mt ->
        Type_.Kind mt = Kind.Pointer ->
        hasDeepCopyMethod mt = Ok false ->
        deref (Type_.Elem mt) = Ok e ->
        hasDeepCopyMethod e = Ok false ->
        IsAssignable e = false ->
        Type_.Kind e <> Kind.Map ->
        Type_.Kind e <> Kind.Slice ->
        doStructMember (generateFor (S fuel) g) m
        = Ok (tt, [Do_ "if in.$.name$ != nil {\n" (ArgMember mt Kind.Pointer (Member.Name m));
                   Do_ "in, out := &in.$.name$, &out.$.name$\n"
                       (ArgMember mt Kind.Pointer (Member.Name m));
                   Do_ "if *in == nil { *out = nil } else {\n" (ArgType mt);
                   Do_ "*out = new($.Elem|raw$)\n" (ArgType mt);
                   Do_ "(*in).DeepCopyInto(*out)\n" ArgNil;
                   Do_ "}" (ArgType mt);
                   Do_ "}\n" ArgNil]))
  /\ (forall fuel m mt e,
        deref (Member.Type_ m) = Ok mt ->
        Type_.Kind mt = Kind.Pointer ->
        hasDeepCopyMethod mt = Ok false ->
        deref (Type_.Elem mt) = Ok e ->
        hasDeepCopyMethod e = Ok false ->
        IsAssignable e = true ->
        doStructMember (generateFor (S fuel) g) m
        = Ok (tt, [Do_ "if in.$.name$ != nil {\n" (ArgMember mt Kind.Pointer (Member.Name m));
                   Do_ "in, out := &in.$.name$, &out.$.name$\n"
                       (ArgMember mt Kind.Pointer (Member.Name m));
                   Do_ "if *in == nil { *out = nil } else {\n" (ArgType mt);
                   Do_ "*out = new($.Elem|raw$)\n" (ArgType mt);
                   Do_ "**out = **in" ArgNil;
                   Do_ "}" (ArgType mt);
                   Do_ "}\n" ArgNil]))
  /\ (forall generateFor' generateFor'' s,
        (forall u, Type_.Kind u = Kind.Map \/ Type_.Kind u = Kind.Slice
                   \/ Type_.Kind u = Kind.Pointer -> generateFor' u = generateFor'' u) ->
        doStruct generateFor' s = doStruct generateFor'' s)
  /\ (forall generateFor' generateFor'' s,
        (forall u, Type_.Kind u = Kind.Slice -> generateFor' u = generateFor'' u) ->
        doSlice generateFor' s = doSlice generateFor'' s)
  /\ (forall generateFor' generateFor'' p,
        (forall u, Type_.Kind u = Kind.Map \/ Type_.Kind u = Kind.Slice ->
                   generateFor' u = generateFor'' u) ->
        doPointer generateFor' p = doPointer generateFor'' p).
Proof.
  intros Hwf Hsd Ht Hk. split; [|split; [|split; [|split; [|split; [|split]]]]].
  - destruct (okGen_Ok _ (generateFor_struct_ok g d (d + 3) t Hwf Hsd Ht Hk (le_n _)))
      as ([] & w & Hw).
    exists w. intros fuel Hle. by apply (generateFor_mono (d + 3)).
  - intros gen m mt Hm Hkm Hh Ha. unfold doStructMember.
    rewrite Hm. simpl. rewrite Hh. simpl.
    rewrite unwrapAlias_not_alias by congruence. simpl. by rewrite Hkm, Ha.
  - intros fuel m mt e Hm Hkm Hh He Hhe Ha Hnm Hns.
    rewrite (doStructMember_reference _ m mt mt Hm Hh)
      by (auto; apply unwrapAlias_not_alias; congruence).
    rewrite generateFor_S, Hkm. unfold doPointer. rewrite He. simpl.
    rewrite Hhe. simpl. rewrite Ha.
    by destruct (Type_.Kind e).
  - intros fuel m mt e Hm Hkm Hh He Hhe Ha.
    rewrite (doStructMember_reference _ m mt mt Hm Hh)
      by (auto; apply unwrapAlias_not_alias; congruence).
    rewrite generateFor_S, Hkm. unfold doPointer. rewrite He. simpl.
    rewrite Hhe. simpl. by rewrite Ha.
  - intros gen gen' s H. unfold doStruct.
    apply gbind_ext; intros h. destruct h; [done|].
    apply gbind_ext; intros _. apply forEach_ext. intros m.
    by apply doStructMember_sites.
  - intros gen gen' s H. by apply doSlice_sites.
  - intros gen gen' p H. by apply doPointer_sites.
Qed.

(** ** The declared interfaces *)

Lemma Ascii_compare_refl (a : ascii) : Ascii.compare a a = Eq.
Proof. unfold Ascii.compare. apply N.compare_refl. Qed.

Lemma Ascii_compare_lt_trans (a b c : ascii) :
  Ascii.compare a b = Lt -> Ascii.compare b c = Lt -> Ascii.compare a c = Lt.
Proof. unfold Ascii.compare. rewrite !N.compare_lt_iff. apply N.lt_trans. Qed.

Lemma String_compare_refl (s : string) : String.compare s s = Eq.
Proof. induction s as [|a s IH]; [done|]. simpl. by rewrite Ascii_compare_refl. Qed.

Lemma String_compare_lt_trans (s1 s2 s3 : string) :
  String.compare s1 s2 = Lt -> String.compare s2 s3 = Lt -> String.compare s1 s3 = Lt.
Proof.
  revert s2 s3. induction s1 as [|a s1 IH]; intros [|b s2] [|c s3]; simpl; try done.
  destruct (Ascii.compare a b) eqn:Hab; try done;
    destruct (Ascii.compare b c) eqn:Hbc; try done; intros H1 H2.
  - apply Ascii.compare_eq_iff in Hab, Hbc. subst. rewrite Ascii_compare_refl. eauto.
  - apply Ascii.compare_eq_iff in Hab. subst. by rewrite Hbc.
  - apply Ascii.compare_eq_iff in Hbc. subst. by rewrite Hab.
  - by rewrite (Ascii_compare_lt_trans a b c).
Qed.

Lemma ltb_irrefl (s : string) : String.ltb s s = false.
Proof. unfold String.ltb. by rewrite String_compare_refl. Qed.

Lemma ltb_trans (s1 s2 s3 : string) :
  String.ltb s1 s2 = true -> String.ltb s2 s3 = true -> String.ltb s1 s3 = true.
Proof.
  unfold String.ltb.
  destruct (String.compare s1 s2) eqn:H12; try done.
  destruct (String.compare s2 s3) eqn:H23; try done.
  by rewrite (String_compare_lt_trans s1 s2 s3).
Qed.

Lemma ltb_total (s1 s2 : string) :
  String.ltb s1 s2 = true \/ s1 = s2 \/ String.ltb s2 s1 = true.
Proof.
  unfold String.ltb. rewrite (String.compare_antisym s2 s1).
  destruct (String.compare s1 s2) eqn:H; simpl; auto.
  right. left. by apply String.compare_eq_iff.
Qed.

Lemma ltb_asym (s1 s2 : string) : String.ltb s1 s2 = true -> String.ltb s2 s1 = false.
Proof.
  intros H. destruct (String.ltb s2 s1) eqn:H'; [|done].
  by rewrite <- (ltb_irrefl s1), (ltb_trans s1 s2 s1).
Qed.

Lemma insertSorted_perm (x : nat) (l : list nat) : insertSorted x l ≡ₚ x :: l.
Proof.
  induction l as [|y l IH]; simpl; [done|].
  destruct (Less x y); [done|]. rewrite IH. apply Permutation_swap.
Qed.

Lemma Sort_acc_perm (l acc : list nat) :
  fold_left (fun acc x => insertSorted x acc) l acc ≡ₚ l ++ acc.
Proof.
  revert acc. induction l as [|x l IH]; intros acc; simpl; [done|].
  rewrite IH, insertSorted_perm. by rewrite Permutation_middle.
Qed.

Lemma Sort_perm (l : list nat) : Sort l ≡ₚ l.
Proof. unfold Sort. by rewrite Sort_acc_perm, app_nil_r. Qed.

Lemma insertSorted_sorted (x : nat) (l : list nat) :
  StronglySorted (fun a b => Less b a = false) l ->
  StronglySorted (fun a b => Less b a = false) (insertSorted x l).
Proof.
  induction 1 as [|y l Hl IH Hy]; simpl; [by repeat constructor|].
  destruct (Less x y) eqn:Hxy.
  - constructor; [by constructor|]. constructor.
    + by apply ltb_asym.
    + eapply Forall_impl; [exact Hy|]. intros z Hz. simpl in Hz.
      unfold Less in *. destruct (String.ltb (TypeString (mem z)) (TypeString (mem x))) eqn:Hzx;
        [|done].
      by rewrite (ltb_trans _ _ _ Hzx Hxy) in Hz.
  - constructor; [exact IH|]. rewrite insertSorted_perm. by constructor.
Qed.

Lemma Sort_sorted (l : list nat) : StronglySorted (fun a b => Less b a = false) (Sort l).
Proof.
  unfold Sort.
  assert (forall acc, StronglySorted (fun a b => Less b a = false) acc ->
                      StronglySorted (fun a b => Less b a = false)
                        (fold_left (fun acc x => insertSorted x acc) l acc)) as H.
  { induction l as [|x l IH]; intros acc Hacc; simpl; [done|].
    by apply IH, insertSorted_sorted. }
  apply H. constructor.
Qed.

Lemma sorted_ascending (l : list nat) :
  StronglySorted (fun a b => Less b a = false) l ->
  NoDup ((fun a => TypeString (mem a)) <$> l) ->
  ascending l.
Proof.
  unfold ascending. induction 1 as [|x l Hl IH Hx]; [constructor|].
  rewrite fmap_cons, NoDup_cons. intros [Hnotin Hnd].
  constructor; [by apply IH|].
  rewrite Forall_forall in Hx |- *. intros y Hy. specialize (Hx y Hy). simpl in Hx.
  unfold Less in Hx.
  destruct (ltb_total (TypeString (mem x)) (TypeString (mem y))) as [H|[H|H]];
    [done| |congruence].
  exfalso. apply Hnotin. rewrite H. apply list_elem_of_fmap. by exists y.
Qed.

Lemma ascending_unique (l1 l2 : list nat) :
  ascending l1 -> ascending l2 -> l1 ≡ₚ l2 -> l1 = l2.
Proof.
  apply StronglySorted_unique_strong. intros x1 x2 _ _ H1 H2.
  apply ltb_asym in H1. congruence.
Qed.

Lemma interfaceSet_acc_lookup (ts : list nat) (acc : gmap string nat) (k : string) (a : nat) :
  fold_left (fun set a => <[TypeString (mem a) := a]> set) ts acc !! k = Some a ->
  (In a ts /\ TypeString (mem a) = k) \/ acc !! k = Some a.
Proof.
  revert acc. induction ts as [|b ts IH]; intros acc; simpl; [by right|].
  intros H. apply IH in H as [[Hin Hk]|H]; [left; by split; [right|]|].
  destruct (decide (TypeString (mem b) = k)) as [Heq|Hne].
  - rewrite Heq, lookup_insert_eq in H. injection H as <-. left. by split; [left|].
  - rewrite lookup_insert_ne in H by done. by right.
Qed.

Lemma interfaceSet_acc_dom (ts : list nat) (acc : gmap string nat) :
  (forall k, is_Some (acc !! k) ->
             is_Some (fold_left (fun set a => <[TypeString (mem a) := a]> set) ts acc !! k))
  /\ (forall a, In a ts ->
                is_Some (fold_left (fun set a => <[TypeString (mem a) := a]> set) ts acc
                         !! TypeString (mem a))).
Proof.
  revert acc. induction ts as [|b ts IH]; intros acc; simpl; [by split|].
  destruct (IH (<[TypeString (mem b) := b]> acc)) as [IH1 IH2]. split.
  - intros k Hk. apply IH1.
    destruct (decide (TypeString (mem b) = k)) as [<-|Hne].
    + rewrite lookup_insert_eq. by eexists.
    + by rewrite lookup_insert_ne.
  - intros a [<-|Hin]; [|by apply IH2].
    apply IH1. rewrite lookup_insert_eq. by eexists.
Qed.

Lemma interfaceSet_lookup (ts : list nat) (k : string) (a : nat) :
  interfaceSet ts !! k = Some a -> In a ts /\ TypeString (mem a) = k.
Proof.
  intros H. apply interfaceSet_acc_lookup in H as [H|H]; [done|].
  by rewrite lookup_empty in H.
Qed.

Lemma interfaceSet_values_keys (ts : list nat) :
  (fun a => TypeString (mem a)) <$> (map_to_list (interfaceSet ts)).*2
  = (map_to_list (interfaceSet ts)).*1.
Proof.
  assert (Forall (fun p => TypeString (mem p.2) = p.1) (map_to_list (interfaceSet ts))) as H.
  { apply Forall_forall. intros [k a] Hin. apply elem_of_map_to_list in Hin.
    by apply interfaceSet_lookup in Hin as [_ ?]. }
  revert H. generalize (map_to_list (interfaceSet ts)) as l.
  induction l as [|[k a] l IH]; intros H; [done|].
  apply Forall_cons in H as [Hp Hl]. simpl in Hp. rewrite !fmap_cons. simpl.
  by rewrite Hp, IH.
Qed.

(** What [DeepCopyableInterfaces] returns for the declared interfaces [ts]. *)
Lemma Sort_interfaceSet (ts l : list nat) :
  l ≡ₚ (map_to_list (interfaceSet ts)).*2 ->
  ascending (Sort l)
  /\ (forall a, In a (Sort l) -> In a ts)
  /\ (forall a, In a ts ->
                exists b, In b (Sort l) /\ TypeString (mem b) = TypeString (mem a)).
Proof.
  intros Hl.
  assert (Sort l ≡ₚ (map_to_list (interfaceSet ts)).*2) as Hperm
    by (by rewrite Sort_perm).
  split; [|split].
  - apply sorted_ascending; [apply Sort_sorted|].
    rewrite Hperm, interfaceSet_values_keys. apply NoDup_fst_map_to_list.
  - intros a Ha. apply list_elem_of_In in Ha. rewrite Hperm in Ha.
    apply list_elem_of_fmap in Ha as ([k a'] & -> & Hin). simpl.
    apply elem_of_map_to_list in Hin. by apply interfaceSet_lookup in Hin as [? _].
  - intros a Ha.
    destruct (interfaceSet_acc_dom ts ∅) as [_ Hdom].
    destruct (Hdom a Ha) as [b Hb]. exists b. split.
    + apply list_elem_of_In. rewrite Hperm. apply list_elem_of_fmap.
      exists (TypeString (mem a), b). split; [done|]. by apply elem_of_map_to_list.
    + by apply interfaceSet_lookup in Hb as [_ ?].
Qed.

Lemma ascending_NoDup (l : list nat) :
  ascending l -> NoDup ((fun a => TypeString (mem a)) <$> l).
Proof.
  unfold ascending. induction 1 as [|x l Hl IH Hx]; [constructor|].
  rewrite fmap_cons. constructor; [|exact IH].
  intros Hin. apply list_elem_of_fmap in Hin as (y & Heq & Hy).
  rewrite Forall_forall in Hx. specialize (Hx y Hy). simpl in Hx.
  by rewrite Heq, ltb_irrefl in Hx.
Qed.

Lemma ascending_names (l : list nat) :
  ascending l ->
  StronglySorted (fun s1 s2 => String.ltb s1 s2 = true)
    ((fun a => TypeString (mem a)) <$> l).
Proof. unfold ascending. by apply StronglySorted_fmap. Qed.

Lemma DeepCopyableInterfaces_Sort (t : Type_.t) (ts intfs : list nat) (npr : bool) :
  deepCopyableInterfaces t = Success ts ->
  DeepCopyableInterfaces t = Success (intfs, npr) ->
  intfs = Sort (rangeValues (interfaceSet ts)).
Proof.
  intros Hts. unfold DeepCopyableInterfaces. rewrite Hts.
  destruct (extractNonPointerInterfaces _); [|discriminate]. by intros [= <- <-].
Qed.

(** C7.  Let the range loop visit every entry of the set of declared
    interfaces once.  The interfaces that [DeepCopyableInterfaces] returns
    are in strictly ascending order of their qualified names, so no name
    occurs twice; they are declared interfaces, and every declared
    interface has its name among them.  The list is the same in whatever
    order the range loop visits the set.  Two types that declare the same
    interfaces, in any order and with any repetition, get the same list of
    names, and the same list of interfaces when distinct declared
    interfaces have distinct qualified names.  [GenerateType] writes the
    adapters last, one per interface of the list, in the order of the
    list. *)
Theorem interfaces_deduplicated_sorted (t : Type_.t) (ts intfs : list nat) (npr : bool) :
  (forall set : gmap string nat, rangeValues set ≡ₚ (map_to_list set).*2) ->
  deepCopyableInterfaces t = Success ts ->
  DeepCopyableInterfaces t = Success (intfs, npr) ->
  ascending intfs
  /\ (forall a, In a intfs -> In a ts)
  /\ (forall a, In a ts ->
                exists b, In b intfs /\ TypeString (mem b) = TypeString (mem a))
  /\ (forall visit, visit ≡ₚ (map_to_list (interfaceSet ts)).*2 -> Sort visit = intfs)
  /\ (forall t' ts' intfs' npr',
        deepCopyableInterfaces t' = Success ts' ->
        DeepCopyableInterfaces t' = Success (intfs', npr') ->
        (forall a, In a ts <-> In a ts') ->
        (fun a => TypeString (mem a)) <$> intfs' = (fun a => TypeString (mem a)) <$> intfs
        /\ ((forall a b, In a ts -> In b ts ->
                         TypeString (mem a) = TypeString (mem b) -> a = b) ->
            intfs' = intfs))
  /\ (forall fuel g e w,
        needsGeneration g t = Ok true ->
        GenerateType fuel g t = Ok (e, w) ->
        exists routines,
          w = routines
              ++ flat_map
                   (fun intf =>
                      match generateInterface t npr (mem intf) with
                      | Ok (_, w') => w'
                      | _ => []
                      end) intfs).
Proof.
  intros Hrange Hts Hintfs.
  assert (forall fuel g e w,
             needsGeneration g t = Ok true ->
             GenerateType fuel g t = Ok (e, w) ->
             exists routines,
               w = routines
                   ++ flat_map
                        (fun intf =>
                           match generateInterface t npr (mem intf) with
                           | Ok (_, w') => w'
                           | _ => []
                           end) intfs) as Hemit.
  { intros fuel g e w Hneeded Hgen. by eapply GenerateType_adapters. }
  revert Hemit.
  pose proof (DeepCopyableInterfaces_Sort t ts intfs npr Hts Hintfs) as ->.
  intros Hemit.
  destruct (Sort_interfaceSet ts _ (Hrange (interfaceSet ts))) as (Hasc & Hsub & Hsup).
  split; [exact Hasc|]. split; [exact Hsub|]. split; [exact Hsup|].
  split; [|split; [|exact Hemit]].
  - intros visit Hvisit.
    destruct (Sort_interfaceSet ts visit Hvisit) as (Hasc' & _ & _).
    apply ascending_unique; [done|done|].
    by rewrite !Sort_perm, Hvisit, Hrange.
  - intros t' ts' intfs' npr' Hts' Hintfs' Hsame.
    pose proof (DeepCopyableInterfaces_Sort t' ts' intfs' npr' Hts' Hintfs') as ->.
    destruct (Sort_interfaceSet ts' _ (Hrange (interfaceSet ts')))
      as (Hasc' & Hsub' & Hsup').
    split.
    + apply StronglySorted_unique_strong
        with (R := fun s1 s2 => String.ltb s1 s2 = true).
      * intros s1 s2 _ _ H1 H2. apply ltb_asym in H1. congruence.
      * by apply ascending_names.
      * by apply ascending_names.
      * apply NoDup_Permutation; [by apply ascending_NoDup..|].
        intros s. rewrite !list_elem_of_fmap. split.
        -- intros (a & -> & Ha). apply list_elem_of_In, Hsub', Hsame, Hsup in Ha
             as (b & Hb & Heq).
           exists b. split; [done|]. by apply list_elem_of_In.
        -- intros (a & -> & Ha). apply list_elem_of_In, Hsub, Hsame, Hsup' in Ha
             as (b & Hb & Heq).
           exists b. split; [done|]. by apply list_elem_of_In.
    + intros Hinj. apply ascending_unique; [done|done|].
      apply NoDup_Permutation.
      * eapply NoDup_fmap_1, ascending_NoDup, Hasc'.
      * eapply NoDup_fmap_1, ascending_NoDup, Hasc.
      * intros a. rewrite !list_elem_of_In. split.
        -- intros Ha. pose proof (Hsub' a Ha) as Hats'. apply Hsame in Hats'.
           destruct (Hsup a Hats') as (b & Hb & Heq).
           by rewrite <- (Hinj b a (Hsub b Hb) Hats' Heq).
        -- intros Ha. pose proof (Hsub a Ha) as Hats.
           destruct (Hsup' a (proj1 (Hsame a) Hats)) as (b & Hb & Heq).
           assert (In b ts) as Hbts by (by apply Hsame, Hsub').
           by rewrite <- (Hinj b a Hbts Hats Heq).
Qed.

(** * Further properties *)

(** ** Go strings, continued *)

Lemma append_String (c : ascii) (s t : string) :
  (String c s ++ t)%string = String c (s ++ t)%string.
Proof. reflexivity. Qed.

Lemma append_nil_r (s : string) : (s ++ "")%string = s.
Proof. induction s as [|c s IH]; [done|by rewrite append_String, IH]. Qed.

Lemma append_assoc (s1 s2 s3 : string) :
  ((s1 ++ s2) ++ s3)%string = (s1 ++ s2 ++ s3)%string.
Proof. induction s1 as [|c s1 IH]; [done|by rewrite !append_String, IH]. Qed.

Lemma length_append (s1 s2 : string) :
  String.length (s1 ++ s2) = String.length s1 + String.length s2.
Proof. induction s1 as [|c s1 IH]; [done|rewrite append_String; simpl; by rewrite IH]. Qed.

Lemma append_inv_tail (s1 s2 s : string) :
  (s1 ++ s)%string = (s2 ++ s)%string -> s1 = s2.
Proof.
  revert s2. induction s1 as [|c s1 IH]; intros [|c2 s2] H.
  - done.
  - apply (f_equal String.length) in H. rewrite !length_append in H. simpl in H. lia.
  - apply (f_equal String.length) in H. rewrite !length_append in H. simpl in H. lia.
  - rewrite !append_String in H. injection H as -> H. f_equal. by apply IH.
Qed.

Lemma prefix_append (p s : string) :
  String.prefix p s = true <-> exists r, s = (p ++ r)%string.
Proof.
  revert s. induction p as [|c p IH]; intros s.
  - split; [intros _; by exists s|intros _; by destruct s].
  - destruct s as [|c' s]; simpl.
    + split; [done|intros (r & Hr); discriminate].
    + destruct (ascii_dec c c') as [->|Hne].
      * rewrite IH. split; intros (r & Hr); exists r;
          [by rewrite Hr|rewrite append_String in Hr; by injection Hr].
      * split; [done|]. intros (r & Hr). rewrite append_String in Hr. by injection Hr as ? ?.
Qed.

Lemma substring_append_r (p s : string) (m : nat) :
  String.substring (String.length p) m (p ++ s) = String.substring 0 m s.
Proof. induction p as [|c p IH]; [done|exact IH]. Qed.

Lemma substring_all (s : string) : String.substring 0 (String.length s) s = s.
Proof. induction s as [|c s IH]; simpl; [done|by rewrite IH]. Qed.

Lemma substring_split (s : string) (k : nat) :
  k <= String.length s ->
  s = (String.substring 0 k s ++ String.substring k (String.length s - k) s)%string.
Proof.
  revert k. induction s as [|c s IH]; intros [|k] Hk; simpl in *; try lia.
  - done.
  - by rewrite substring_all.
  - rewrite append_String. f_equal. apply IH. lia.
Qed.

Lemma HasSuffix_append (s suffix : string) :
  strings.HasSuffix s suffix = true <-> exists pre, s = (pre ++ suffix)%string.
Proof.
  unfold strings.HasSuffix. rewrite andb_true_iff, Nat.leb_le, String.eqb_eq. split.
  - intros [Hle Hsub]. exists (String.substring 0 (String.length s - String.length suffix) s).
    pose proof (substring_split s (String.length s - String.length suffix)) as H.
    replace (String.length s - (String.length s - String.length suffix))
      with (String.length suffix) in H by lia.
    rewrite Hsub in H. apply H. lia.
  - intros (pre & ->). rewrite length_append. split; [lia|].
    replace (String.length pre + String.length suffix - String.length suffix)
      with (String.length pre) by lia.
    by rewrite substring_append_r, substring_all.
Qed.

Lemma TrimPrefix_append (p r : string) : strings.TrimPrefix (p ++ r) p = r.
Proof.
  unfold strings.TrimPrefix, strings.HasPrefix.
  assert (String.prefix p (p ++ r) = true) as -> by (apply prefix_append; by exists r).
  rewrite length_append, substring_append_r.
  replace (String.length p + String.length r - String.length p) with (String.length r) by lia.
  apply substring_all.
Qed.

(** A string is empty or ends with a byte. *)
Lemma snoc_inv (s : string) :
  s = "" \/ exists s' c, s = (s' ++ String c "")%string.
Proof.
  induction s as [|a s IH]; [by left|right].
  destruct IH as [->|(s' & c & ->)].
  - by exists "", a.
  - by exists (String a s'), c.
Qed.

Lemma append_snoc_inj (s1 s2 : string) (c1 c2 : ascii) :
  (s1 ++ String c1 "")%string = (s2 ++ String c2 "")%string -> s1 = s2 /\ c1 = c2.
Proof.
  revert s2. induction s1 as [|a s1 IH]; intros [|b s2] H; rewrite ?append_String in H.
  - by injection H.
  - injection H as _ H. destruct s2; discriminate.
  - injection H as _ H. destruct s1; discriminate.
  - injection H as -> H. apply IH in H as [-> ->]. done.
Qed.

(** ** The bounding directories *)

(** X1.  A package is rooted under the roots exactly when it is one of the
    roots or lies below one of them, that is, continues a root with a slash:
    [foo/barn] is not under [foo/bar]. *)
Theorem isRootedUnder_spec (pkg : string) (roots : list string) :
  isRootedUnder pkg roots = true
  <-> exists root,
        In root roots
        /\ (pkg = root \/ exists rest, pkg = (root ++ "/" ++ rest)%string).
Proof.
  unfold isRootedUnder, strings.HasPrefix. rewrite existsb_exists.
  split; intros (root & Hin & H); exists root; (split; [done|]).
  - apply prefix_append in H as (r & Hr). rewrite append_assoc in Hr.
    destruct (snoc_inv r) as [->|(r' & c & ->)].
    + left. by apply append_inv_tail in Hr.
    + right. exists r'.
      change ("/" ++ r' ++ String c "")%string with (String "/" (r' ++ String c ""))%string in Hr.
      change (root ++ String "/" (r' ++ String c ""))%string
        with (root ++ ("/" ++ r') ++ String c "")%string in Hr.
      rewrite <- append_assoc in Hr.
      by apply append_snoc_inj in Hr as [-> _].
  - apply prefix_append. destruct H as [->|(rest & ->)].
    + exists "". by rewrite append_nil_r.
    + exists (rest ++ "/")%string. by rewrite !append_assoc.
Qed.

(** [strings.TrimRight] removes the trailing bytes and nothing else. *)
Lemma TrimRight_no_suffix (s : string) (c : ascii) (pre : string) :
  strings.TrimRight s c <> (pre ++ String c "")%string.
Proof.
  revert pre. induction s as [|a s IH]; intros pre; simpl.
  - by destruct pre.
  - destruct (strings.TrimRight s c) as [|b r] eqn:Hr.
    + destruct (Ascii.eqb a c) eqn:Hac; [by destruct pre|].
      destruct pre as [|p pre]; [|rewrite append_String; intros [= _ H]; by destruct pre].
      intros [= ->]. by rewrite Ascii.eqb_refl in Hac.
    + destruct pre as [|p pre]; [discriminate|].
      rewrite append_String. intros [= _ H]. by apply (IH pre).
Qed.

Lemma TrimRight_HasSuffix (s : string) (c : ascii) :
  strings.HasSuffix (strings.TrimRight s c) (String c "") = false.
Proof.
  apply not_true_is_false. rewrite HasSuffix_append. intros (pre & H).
  by apply TrimRight_no_suffix in H.
Qed.

Lemma TrimRight_trailing (s : string) (c : ascii) :
  exists k, s = (strings.TrimRight s c ++ string_of_list_ascii (repeat c k))%string.
Proof.
  induction s as [|a s (k & IH)]; simpl.
  - by exists 0.
  - destruct (strings.TrimRight s c) as [|b r] eqn:Hr.
    + destruct (Ascii.eqb a c) eqn:Hac.
      * apply Ascii.eqb_eq in Hac as ->. exists (S k). simpl. by rewrite IH at 1.
      * exists k. rewrite append_String. by rewrite IH at 1.
    + exists k. rewrite append_String. by rewrite IH at 1.
Qed.

(** X2.  Without custom arguments of this generator [Packages] has no
    bounding directory; otherwise the bounding directories are the given
    ones, or the inputs when none are given, each without its trailing
    slashes and with nothing else removed: none of them ends with a
    slash, which is what [isRootedUnder] assumes. *)
Theorem packagesBoundingDirs_trimmed (customArgs : option CustomArgs)
    (inputs : slice string) :
  let given :=
    match customArgs with
    | Some customArgs =>
        match BoundingDirs customArgs with
        | Some dirs => dirs
        | None => elems inputs
        end
    | None => []
    end in
  Forall2
    (fun dir bounding =>
       strings.HasSuffix bounding "/" = false
       /\ exists k, dir = (bounding ++ string_of_list_ascii (repeat "/"%char k))%string)
    given (fst (packagesBoundingDirs customArgs inputs))
  /\ (forall customArgs',
        snd (packagesBoundingDirs customArgs inputs) = Some customArgs' ->
        elems (BoundingDirs customArgs') = given).
Proof.
  assert (forall dirs,
             Forall2
               (fun dir bounding =>
                  strings.HasSuffix bounding "/" = false
                  /\ exists k,
                       dir = (bounding ++ string_of_list_ascii (repeat "/"%char k))%string)
               dirs (List.map (fun dir => strings.TrimRight dir "/"%char) dirs)) as Hdirs.
  { induction dirs as [|dir dirs IH]; simpl; constructor; [|done].
    split; [apply TrimRight_HasSuffix|apply TrimRight_trailing]. }
  destruct customArgs as [[[dirs|]]|]; simpl.
  - split; [apply Hdirs|]. by intros ? [= <-].
  - split; [destruct inputs; apply Hdirs|]. intros ? [= <-]. by destruct inputs.
  - split; [constructor|discriminate].
Qed.

(** ** The imports *)

Lemma isOtherPackage_false (g : genDeepCopy) (pkg : string) :
  isOtherPackage g pkg = false
  <-> pkg = targetPackage g
      \/ exists pre, pkg = (pre ++ quote ++ targetPackage g ++ quote)%string.
Proof.
  unfold isOtherPackage.
  destruct (String.eqb pkg (targetPackage g)) eqn:Heq.
  - apply String.eqb_eq in Heq. by split; [left|].
  - apply String.eqb_neq in Heq.
    destruct (strings.HasSuffix pkg _) eqn:Hs.
    + apply HasSuffix_append in Hs. by split; [right|].
    + split; [done|]. intros [?|H]; [done|].
      apply HasSuffix_append in H. congruence.
Qed.

(** X3.  [Imports] returns, in their order, the import lines that are
    neither the target package nor end with the quoted target package; a
    second filtering changes nothing. *)
Theorem Imports_spec (g : genDeepCopy) (importLines : list string) :
  (forall line,
      In line (Imports g importLines)
      <-> In line importLines
          /\ line <> targetPackage g
          /\ forall pre, line <> (pre ++ quote ++ targetPackage g ++ quote)%string)
  /\ sublist (Imports g importLines) importLines
  /\ Imports g (Imports g importLines) = Imports g importLines.
Proof.
  split; [|split].
  - intros line. unfold Imports. rewrite filter_In.
    destruct (isOtherPackage g line) eqn:H.
    + split; [|by intros (Hin & _ & _)]. intros [Hin _]. split; [done|].
      split.
      * intros ->. assert (isOtherPackage g (targetPackage g) = false) as H'
          by (apply isOtherPackage_false; by left). congruence.
      * intros pre ->. assert (isOtherPackage g (pre ++ quote ++ targetPackage g ++ quote) = false)
          as H' by (apply isOtherPackage_false; right; by exists pre). congruence.
    + apply isOtherPackage_false in H. split; [intros [_ ?]; done|].
      intros (_ & Hne & Hns). destruct H as [->|(pre & ->)]; [done|]. by destruct (Hns pre).
  - unfold Imports. induction importLines as [|l ls IH]; simpl; [constructor|].
    destruct (isOtherPackage g l); by constructor.
  - unfold Imports. induction importLines as [|l ls IH]; simpl; [done|].
    destruct (isOtherPackage g l) eqn:H; simpl; [rewrite H; by f_equal|done].
Qed.

(** [strings.Split] and [strings.Join]. *)
Lemma Split_cons (c : ascii) (s : string) (sep : ascii) :
  strings.Split (String c s) sep
  = if Ascii.eqb c sep then "" :: strings.Split s sep
    else match strings.Split s sep with
         | hd :: tl => String c hd :: tl
         | [] => [String c ""]
         end.
Proof. reflexivity. Qed.

Lemma Split_no_sep (s : string) (sep : ascii) :
  Forall (fun part => ~ In sep (list_ascii_of_string part)) (strings.Split s sep).
Proof.
  induction s as [|c s IH]; [simpl; constructor; [by intros []|constructor]|].
  rewrite Split_cons. destruct (Ascii.eqb c sep) eqn:Hc.
  - constructor; [by intros []|done].
  - apply Ascii.eqb_neq in Hc.
    destruct (strings.Split s sep) as [|hd tl] eqn:Hs; [by apply Split_not_nil in Hs|].
    inversion IH as [|?? Hhd Htl]; subst. constructor; [|done].
    simpl. intros [?|?]; [congruence|done].
Qed.

Lemma Join_cons (e : string) (rest : list string) (sep : string) :
  rest <> [] -> strings.Join (e :: rest) sep = (e ++ sep ++ strings.Join rest sep)%string.
Proof. by destruct rest. Qed.

Lemma Split_no_sep_id (s : string) (sep : ascii) :
  ~ In sep (list_ascii_of_string s) -> strings.Split s sep = [s].
Proof.
  induction s as [|c s IH]; [done|]. simpl. intros H.
  destruct (Ascii.eqb c sep) eqn:Hc; [apply Ascii.eqb_eq in Hc; destruct H; by left|].
  rewrite IH by (intros Hin; apply H; by right). done.
Qed.

Lemma Split_append (s rest : string) (sep : ascii) :
  ~ In sep (list_ascii_of_string s) ->
  strings.Split (s ++ String sep rest) sep = s :: strings.Split rest sep.
Proof.
  induction s as [|c s IH]; intros H.
  - change ("" ++ String sep rest)%string with (String sep rest).
    by rewrite Split_cons, Ascii.eqb_refl.
  - rewrite append_String, Split_cons. simpl in H.
    destruct (Ascii.eqb c sep) eqn:Hc; [apply Ascii.eqb_eq in Hc; destruct H; by left|].
    rewrite IH by (intros Hin; apply H; by right). done.
Qed.

Lemma Split_Join (names : list string) (sep : ascii) :
  names <> [] ->
  Forall (fun name => ~ In sep (list_ascii_of_string name)) names ->
  strings.Split (strings.Join names (String sep "")) sep = names.
Proof.
  induction names as [|n ns IH]; [done|]. intros _ H.
  inversion H as [|?? Hn Hns]; subst.
  destruct ns as [|n' ns]; [by apply Split_no_sep_id|].
  rewrite Join_cons by done.
  change (n ++ String sep "" ++ strings.Join (n' :: ns) (String sep ""))%string
    with (n ++ String sep (strings.Join (n' :: ns) (String sep "")))%string.
  rewrite Split_append by done. f_equal. by apply IH.
Qed.

Lemma Join_Split (s : string) (sep : ascii) :
  strings.Join (strings.Split s sep) (String sep "") = s.
Proof.
  induction s as [|c s IH]; [done|].
  rewrite Split_cons. pose proof (Split_not_nil s sep) as Hne.
  destruct (Ascii.eqb c sep) eqn:Hc.
  - apply Ascii.eqb_eq in Hc as ->. rewrite Join_cons by done. by rewrite IH.
  - destruct (strings.Split s sep) as [|hd tl]; [done|].
    destruct tl as [|hd' tl].
    + simpl in *. by rewrite IH.
    + rewrite Join_cons in * by done. by rewrite append_String, IH.
Qed.

(** [strings.Contains] for one byte, and the last element of a path. *)
Lemma Contains_byte (s : string) (c : ascii) :
  strings.Contains s (String c "") = true <-> In c (list_ascii_of_string s).
Proof.
  induction s as [|a s IH]; simpl; [by split|].
  rewrite orb_true_iff, IH.
  destruct (ascii_dec c a) as [->|Hne].
  - split; [by left|]. intros _. left. by destruct s.
  - split; [intros [?|?]; [done|by right]|intros [?|?]; [done|by right]].
Qed.

Lemma lastElement_no_slash (path : string) :
  ~ In "/"%char (list_ascii_of_string (filepath.lastElement path)).
Proof.
  induction path as [|c path IH]; simpl; [by intros []|].
  destruct (strings.Contains path "/") eqn:Hc; [done|].
  assert (~ In "/"%char (list_ascii_of_string path)) as Hno.
  { rewrite <- Contains_byte. change (String "/" "") with "/". by rewrite Hc. }
  destruct (Ascii.eqb c "/") eqn:Hs; [done|].
  apply Ascii.eqb_neq in Hs. simpl. intros [?|?]; [done|done].
Qed.

Lemma Split_hd_bytes (s : string) (sep : ascii) (hd : string) (tl : list string) (c : ascii) :
  strings.Split s sep = hd :: tl ->
  In c (list_ascii_of_string hd) -> In c (list_ascii_of_string s).
Proof.
  revert hd tl. induction s as [|a s IH]; intros hd tl.
  - by intros [= <- <-].
  - rewrite Split_cons. destruct (Ascii.eqb a sep).
    + by intros [= <- <-].
    + destruct (strings.Split s sep) as [|hd' tl'] eqn:Hs.
      * intros [= <- <-]. simpl. intros [?|[]]. by left.
      * intros [= <- <-]. simpl. intros [?|?]; [by left|right]. by eapply IH.
Qed.

(** X4.  The name of the generated package is always defined; it has no
    dot, and it has no slash unless it is the name "/" of a path of slashes
    only. *)
Theorem PackageName_no_dot (path : string) :
  exists name,
    PackageName path = Ok name
    /\ ~ hasByte "."%char name
    /\ (hasByte "/"%char name -> name = "/").
Proof.
  unfold PackageName.
  pose proof (Split_no_sep (filepath.Base path) ".") as Hno.
  destruct (strings.Split (filepath.Base path) ".") as [|name tl] eqn:Hs;
    [by apply Split_not_nil in Hs|].
  exists name. split; [done|]. split; [by inversion Hno|].
  intros Hslash. apply (Split_hd_bytes _ _ _ _ _ Hs) in Hslash.
  revert Hs Hslash. unfold filepath.Base.
  destruct (String.eqb path ""); [intros _ H; simpl in H; by destruct H as [H|[]]|].
  destruct (String.eqb (filepath.lastElement _) "") eqn:He.
  - by intros [= <- _] _.
  - intros _ H. by apply lastElement_no_slash in H.
Qed.

(** X5.  The path of the generated package is what follows the output
    base in the source path when the source path starts with the output
    base and the rest contains [/vendor/]; it is the path of the package in
    every other case. *)
Theorem PackagePath_spec (path sourcePath outputBase : string) :
  (forall rest,
      sourcePath = (outputBase ++ rest)%string ->
      PackagePath path sourcePath outputBase
      = if strings.Contains rest "/vendor/" then rest else path)
  /\ ((forall rest, sourcePath <> (outputBase ++ rest)%string) ->
      PackagePath path sourcePath outputBase = path).
Proof.
  unfold PackagePath, strings.HasPrefix. split.
  - intros rest ->.
    assert (String.prefix outputBase (outputBase ++ rest) = true) as ->
      by (apply prefix_append; by exists rest).
    by rewrite TrimPrefix_append.
  - intros H. destruct (String.prefix outputBase sourcePath) eqn:Hp; [|done].
    apply prefix_append in Hp as (r & ->). by destruct (H r).
Qed.

(** ** The eligibility filter, continued *)

(** X6.  [Filter] changes nothing of the generator but the list of the
    types for the initialization, to which it appends exactly the types
    that it accepts; an accepted type is a copyable one: a struct with a
    public name. *)
Theorem Filter_records_accepted (g g' : genDeepCopy) (t : Type_.t) (b : bool) :
  Filter g t = Ok (b, g') ->
  targetPackage g' = targetPackage g
  /\ boundingDirs g' = boundingDirs g
  /\ allTypes g' = allTypes g
  /\ registerTypes g' = registerTypes g
  /\ typesForInit g' = typesForInit g ++ (if b then [t] else [])
  /\ (b = true ->
      copyableType t = Ok true
      /\ Type_.Kind t = Kind.Struct
      /\ IsPrivateGoName (Name.Name (Type_.Name t)) = false).
Proof.
  unfold Filter. intros H.
  assert (forall c, copyableType t = Ok c -> c = true ->
                    Type_.Kind t = Kind.Struct
                    /\ IsPrivateGoName (Name.Name (Type_.Name t)) = false) as Hcopy.
  { unfold copyableType. intros c Hc ->.
    destruct (extractTag (Type_.CommentLines t)) as [ttag| | |]; simpl in Hc; try discriminate.
    destruct (tagIs ttag "false"); [discriminate|].
    destruct (Kind.eqb (Type_.Kind t) Kind.Struct) eqn:Hk; simpl in Hc; [|discriminate].
    destruct (IsPrivateGoName _); [discriminate|]. split; [by apply Kind_eqb_eq|done]. }
  destruct (allTypes g) eqn:Hall; simpl in H.
  - destruct (copyableType t) as [[]| | |] eqn:Hc; simpl in H; try discriminate;
      injection H as <- <-; simpl; rewrite ?app_nil_r; do 5 (split; [done|]);
      [intros _; split; [done|]; by apply (Hcopy true)|discriminate].
  - destruct (extractTag (Type_.CommentLines t)) as [ttag| | |]; simpl in H; try discriminate.
    destruct (tagIs ttag "true"); simpl in H;
      [|injection H as <- <-; rewrite app_nil_r; do 5 (split; [done|]); discriminate].
    destruct (copyableType t) as [[]| | |] eqn:Hc; simpl in H; try discriminate;
      injection H as <- <-; simpl; rewrite ?app_nil_r; do 5 (split; [done|]);
      [intros _; split; [done|]; by apply (Hcopy true)|discriminate].
Qed.

(** X7.  A type that [Filter] accepts is never left out by
    [needsGeneration]: the routines of the type are generated, or, in
    generate-all mode and for a directive whose value is neither "true" nor
    "false", the run aborts there. *)
Theorem Filter_accepted_generated (g g' : genDeepCopy) (t : Type_.t) :
  Filter g t = Ok (true, g') ->
  needsGeneration g t = Ok true
  \/ exists tag,
       allTypes g = true
       /\ extractTag (Type_.CommentLines t) = Ok (Some tag)
       /\ value tag <> "true" /\ value tag <> "false"
       /\ needsGeneration g t
          = Fatal (TypeUnsupportedValue (Type_.Name t) (value tag)).
Proof.
  unfold Filter, needsGeneration, copyableType. intros H.
  destruct (extractTag (Type_.CommentLines t)) as [ttag| | |] eqn:Htag;
    [|destruct (allTypes g); simpl in H; discriminate..].
  destruct (allTypes g) eqn:Hall; simpl in *.
  - destruct ttag as [tag|]; simpl in *; [|by left].
    destruct (String.eqb (value tag) "false") eqn:Hf; [discriminate|].
    destruct (String.eqb (value tag) "true") eqn:Ht; simpl.
    + left. by rewrite Hf.
    + right. exists tag. apply String.eqb_neq in Hf, Ht. by split_and!.
  - destruct ttag as [tag|]; simpl in *; [|discriminate].
    destruct (String.eqb (value tag) "true") eqn:Ht; simpl in *; [left|discriminate].
    by rewrite Ht.
Qed.

(** ** The packages *)

Lemma considerPackage_generator (bounding : list string) (i : string) (pkg : Package)
    (g : genDeepCopy) :
  considerPackage bounding i pkg = Ok (Some g) ->
  exists all reg,
    g = NewGenDeepCopy (Path pkg) bounding all reg /\ (reg = true -> all = true).
Proof.
  unfold considerPackage. intros H.
  destruct (extractTag (Comments pkg)) as [[tag|]| | |]; simpl in H; try discriminate.
  - destruct (String.eqb (value tag) tagValuePackage) eqn:Hv; simpl in H; [|discriminate].
    rewrite Hv in H. simpl in H. injection H as <-. by exists true, (register tag).
  - destruct (scanTypes (Types pkg)) as [[]| | |]; simpl in H; try discriminate.
    injection H as <-. by exists false, false.
Qed.

Lemma Packages_cons (universe : string -> option Package) (bounding : list string)
    (i : string) (rest : list string) :
  Packages universe bounding (i :: rest)
  = let* r := considerInput universe bounding i in
    let* packages := Packages universe bounding rest in
    Ok (r ++ packages).
Proof.
  simpl. unfold considerInput. destruct (universe i) as [pkg|]; simpl.
  - destruct (considerPackage bounding i pkg) as [[g|]| | |]; simpl; try done;
      by destruct (Packages universe bounding rest).
  - by destruct (Packages universe bounding rest).
Qed.

(** X8.  [Packages] appends at most one generator per input; each one is
    a fresh generator for the package of an input, with the bounding
    directories of the run, and it registers types only in generate-all
    mode. *)
Theorem Packages_generators (universe : string -> option Package)
    (bounding : list string) (inputs : list string) (gs : list genDeepCopy) :
  Packages universe bounding inputs = Ok gs ->
  length gs <= length inputs
  /\ Forall
       (fun g =>
          boundingDirs g = bounding
          /\ typesForInit g = []
          /\ (registerTypes g = true -> allTypes g = true)
          /\ exists i pkg,
               In i inputs /\ universe i = Some pkg /\ targetPackage g = Path pkg)
       gs.
Proof.
  revert gs. induction inputs as [|i rest IH]; intros gs H.
  - injection H as <-. split; [done|constructor].
  - simpl in H. destruct (universe i) as [pkg|] eqn:Hu.
    + destruct (considerPackage bounding i pkg) as [r| | |] eqn:Hc; simpl in H;
        try discriminate.
      destruct (Packages universe bounding rest) as [packages| | |]; simpl in H;
        try discriminate.
      injection H as <-. destruct (IH packages eq_refl) as [Hlen Hall].
      assert (Forall
                (fun g =>
                   boundingDirs g = bounding
                   /\ typesForInit g = []
                   /\ (registerTypes g = true -> allTypes g = true)
                   /\ exists i0 pkg0,
                        In i0 (i :: rest) /\ universe i0 = Some pkg0
                        /\ targetPackage g = Path pkg0) packages) as Hall'.
      { eapply Forall_impl; [exact Hall|]. intros g (? & ? & ? & i0 & pkg0 & ? & ? & ?).
        repeat (split; [done|]). exists i0, pkg0. split; [by right|done]. }
      destruct r as [g|]; simpl; [|split; [lia|done]].
      split; [lia|]. constructor; [|done].
      apply considerPackage_generator in Hc as (all & reg & -> & Hreg). simpl.
      repeat (split; [done|]). exists i, pkg. split; [by left|done].
    + destruct (IH gs H) as [Hlen Hall]. split; [simpl; lia|].
      eapply Forall_impl; [exact Hall|]. intros g (? & ? & ? & i0 & pkg0 & ? & ? & ?).
      repeat (split; [done|]). exists i0, pkg0. split; [by right|done].
Qed.

(** X10.  The inputs are visited in the order of a range over a set.
    Whether [Packages] returns does not depend on that order, and the
    generators that it returns are the same up to their order. *)
Theorem Packages_any_order (universe : string -> option Package)
    (bounding : list string) (inputs inputs' : list string) (gs : list genDeepCopy) :
  inputs ≡ₚ inputs' ->
  Packages universe bounding inputs = Ok gs ->
  exists gs', Packages universe bounding inputs' = Ok gs' /\ gs ≡ₚ gs'.
Proof.
  intros Hperm. revert gs.
  induction Hperm as [|i l l' Hperm IH|i j l|l l' l'' H1 IH1 H2 IH2]; intros gs H.
  - by exists gs.
  - rewrite Packages_cons in H |- *.
    destruct (considerInput universe bounding i) as [r| | |]; simpl in *; try discriminate.
    destruct (Packages universe bounding l) as [p| | |]; simpl in *; try discriminate.
    injection H as <-. destruct (IH p eq_refl) as (p' & -> & Hp).
    exists (r ++ p'). split; [done|]. by rewrite Hp.
  - rewrite !Packages_cons in H |- *.
    destruct (considerInput universe bounding i) as [ri| | |];
      destruct (considerInput universe bounding j) as [rj| | |];
      simpl in *; try discriminate.
    destruct (Packages universe bounding l) as [p| | |]; simpl in *; try discriminate.
    injection H as <-. exists (ri ++ rj ++ p). split; [done|].
    rewrite !app_assoc. f_equiv. apply Permutation_app_comm.
  - destruct (IH1 gs H) as (gs' & H' & Hp').
    destruct (IH2 gs' H') as (gs'' & H'' & Hp'').
    exists gs''. split; [done|]. by rewrite Hp'.
Qed.

(** ** The declared interfaces, continued *)

Lemma Join_nonempty (name : string) (names : list string) (sep : string) :
  name <> "" -> strings.Join (name :: names) sep <> "".
Proof.
  intros Hne. destruct names as [|n ns]; [done|].
  rewrite Join_cons by done. destruct name; [done|]. by rewrite append_String.
Qed.

Lemma extractInterfacesTag_values (comments : list string) :
  extractInterfacesTag comments
  = flat_map
      (fun v => List.filter (fun intf => negb (String.eqb intf ""))
                  (if Nat.eqb (String.length v) 0 then []
                   else strings.Split v ","%char))
      (elems (ExtractCommentTags "+" comments interfacesTagName)).
Proof.
  unfold extractInterfacesTag. apply flat_map_ext. intros v.
  destruct (Nat.eqb (String.length v) 0); [done|].
  induction (strings.Split v ","%char) as [|x l IH]; [done|].
  simpl. rewrite filter_cons.
  destruct (decide _) as [Hd|Hd]; destruct (String.eqb x "") eqn:Hx; simpl in *;
    try done; try (by rewrite IH); try (by destruct Hd).
Qed.

(** X11.  Every name that [extractInterfacesTag] returns is not empty and
    has no comma. *)
Theorem extractInterfacesTag_names (comments : list string) :
  Forall interfaceName (extractInterfacesTag comments).
Proof.
  rewrite extractInterfacesTag_values. apply List.Forall_forall. intros name Hin.
  apply in_flat_map in Hin as (v & _ & Hin). apply filter_In in Hin as [Hin Hne].
  split.
  - intros ->. discriminate.
  - destruct (Nat.eqb (String.length v) 0); [done|].
    pose proof (Split_no_sep v ","%char) as H. rewrite List.Forall_forall in H.
    by apply H.
Qed.

Lemma filter_interfaceNames (names : list string) :
  Forall interfaceName names ->
  List.filter (fun intf => negb (String.eqb intf "")) names = names.
Proof.
  induction 1 as [|n ns [Hn _] _ IHn]; [done|].
  simpl. apply String.eqb_neq in Hn. rewrite Hn. simpl. by rewrite IHn.
Qed.

(** X12.  Reading back what was written: when the values of the tag are
    lists of names joined by commas, each name not empty and without comma,
    [extractInterfacesTag] returns the names of all the lists, in their
    order. *)
Theorem extractInterfacesTag_joined (comments : list string) (lists : list (list string)) :
  ExtractCommentTags "+" comments interfacesTagName
  = Some (List.map (fun names => strings.Join names ",") lists) ->
  Forall (Forall interfaceName) lists ->
  extractInterfacesTag comments = concat lists.
Proof.
  intros Htag Hlists. rewrite extractInterfacesTag_values, Htag. simpl. clear Htag.
  induction Hlists as [|names lists Hnames _ IH]; [done|].
  simpl. rewrite IH. f_equal.
  destruct names as [|name names]; [done|].
  assert (strings.Join (name :: names) "," <> "") as Hne.
  { apply Join_nonempty. inversion Hnames as [|?? [? _] _]. done. }
  destruct (strings.Join (name :: names) ",") as [|c s] eqn:Hj; [done|]. simpl Nat.eqb. cbv iota.
  rewrite <- Hj. change "," with (String ","%char "").
  rewrite Split_Join; [|done|eapply Forall_impl; [exact Hnames|by intros ? [_ ?]]].
  by apply filter_interfaceNames.
Qed.

(** X13.  [extractNonPointerInterfaces] is false without value of the
    tag; it is the common answer when all the values agree on being "true"
    or not; otherwise it is an error that names the first value that
    disagrees with the first one. *)
Theorem extractNonPointerInterfaces_spec (comments : list string) :
  let values := elems (ExtractCommentTags "+" comments interfacesNonPointerTagName) in
  (values = [] -> extractNonPointerInterfaces comments = Success false)
  /\ (forall b,
        values <> [] ->
        Forall (fun v => String.eqb v "true" = b) values ->
        extractNonPointerInterfaces comments = Success b)
  /\ (forall values0 agreeing v rest,
        values = values0 :: agreeing ++ v :: rest ->
        Forall (fun u => String.eqb u "true" = String.eqb values0 "true") agreeing ->
        String.eqb v "true" <> String.eqb values0 "true" ->
        extractNonPointerInterfaces comments
        = Failure (Contradicting v (String.eqb values0 "true"))).
Proof.
  intros values. unfold extractNonPointerInterfaces. fold values.
  split; [by intros ->|]. split.
  - intros b Hne Hall. destruct values as [|values0 l]; [done|].
    assert (String.eqb values0 "true" = b) as -> by (by inversion Hall).
    pose proof (find_agreeing b (values0 :: l) [] Hall) as Hfind.
    rewrite app_nil_r in Hfind. by rewrite Hfind.
  - intros values0 agreeing v rest -> Hall Hv.
    rewrite (find_agreeing _ (values0 :: agreeing) (v :: rest)) by (by constructor).
    simpl. destruct (Bool.eqb _ _) eqn:He; [by apply Bool.eqb_prop in He|done].
Qed.

Lemma resolveInterfaces_kinds (intfs : list string) (ts r : list nat) :
  Forall (fun a => Type_.Kind (mem a) = Kind.Interface) ts ->
  resolveInterfaces intfs ts = Success r ->
  Forall (fun a => Type_.Kind (mem a) = Kind.Interface) r.
Proof.
  revert ts. induction intfs as [|intf rest IH]; intros ts Hts; simpl.
  - by intros [= <-].
  - destruct (UniverseType (ParseFullyQualifiedName intf)) as [a|]; [|discriminate].
    destruct (Kind.eqb (Type_.Kind (mem a)) Kind.Interface) eqn:Hk; simpl; [|discriminate].
    apply IH. apply Forall_app. split; [done|]. constructor; [by apply Kind_eqb_eq|done].
Qed.

(** X14.  Every type that [DeepCopyableInterfaces] returns is an
    interface, and for a type that is no struct it returns none, whatever
    the comments of the type declare. *)
Theorem DeepCopyableInterfaces_kinds (t : Type_.t) (intfs : list nat) (npr : bool) :
  (forall set : gmap string nat, rangeValues set ≡ₚ (map_to_list set).*2) ->
  DeepCopyableInterfaces t = Success (intfs, npr) ->
  Forall (fun a => Type_.Kind (mem a) = Kind.Interface) intfs
  /\ (Type_.Kind t <> Kind.Struct -> intfs = []).
Proof.
  intros Hrange H.
  destruct (deepCopyableInterfaces t) as [ts|] eqn:Hts;
    [|unfold DeepCopyableInterfaces in H; by rewrite Hts in H].
  pose proof (DeepCopyableInterfaces_Sort t ts intfs npr Hts H) as ->.
  destruct (Sort_interfaceSet ts _ (Hrange (interfaceSet ts))) as (_ & Hsub & _).
  assert (Forall (fun a => Type_.Kind (mem a) = Kind.Interface) ts) as Hkinds.
  { unfold deepCopyableInterfaces in Hts.
    destruct (negb (Kind.eqb (Type_.Kind t) Kind.Struct)); [by injection Hts as <-|].
    by eapply (resolveInterfaces_kinds _ [] ts); [constructor|exact Hts]. }
  split.
  - rewrite List.Forall_forall in *. intros a Ha. by apply Hkinds, Hsub.
  - intros Hk. unfold deepCopyableInterfaces in Hts.
    destruct (Kind.eqb (Type_.Kind t) Kind.Struct) eqn:Hkb;
      [by apply Kind_eqb_eq in Hkb|].
    simpl in Hts. injection Hts as <-.
    destruct (Sort (rangeValues (interfaceSet []))) as [|a l]; [done|].
    by destruct (Hsub a (or_introl eq_refl)).
Qed.

Lemma resolveInterfaces_first_failure (good : list string) (bad : string)
    (rest : list string) (ts : list nat) :
  Forall
    (fun intf =>
       exists a, UniverseType (ParseFullyQualifiedName intf) = Some a
                 /\ Type_.Kind (mem a) = Kind.Interface) good ->
  resolveInterfaces (good ++ bad :: rest) ts
  = match UniverseType (ParseFullyQualifiedName bad) with
    | None => Failure (UnknownType bad)
    | Some a =>
        if negb (Kind.eqb (Type_.Kind (mem a)) Kind.Interface)
        then Failure (NotAnInterface bad (ParseFullyQualifiedName bad))
        else
          resolveInterfaces rest
            ((ts ++ List.map
                      (fun intf => default 0 (UniverseType (ParseFullyQualifiedName intf)))
                      good)
             ++ [a])
    end.
Proof.
  intros Hgood. revert ts. induction Hgood as [|intf good (a & Ha & Hk) _ IH]; intros ts.
  - simpl. by rewrite app_nil_r.
  - simpl. rewrite Ha, Hk. simpl. rewrite IH.
    destruct (UniverseType (ParseFullyQualifiedName bad)) as [b|]; [|done].
    destruct (negb _); [done|]. by rewrite <- !app_assoc.
Qed.

(** X15.  The names of the tag are resolved in their order, and the first
    one that is unknown, or known but no interface, is the error of
    [DeepCopyableInterfaces], whatever names follow and whatever the tag of
    the non-pointer receivers says. *)
Theorem DeepCopyableInterfaces_first_failure (t : Type_.t) (good : list string)
    (bad : string) (rest : list string) :
  Type_.Kind t = Kind.Struct ->
  extractInterfacesTag (Type_.SecondClosestCommentLines t ++ Type_.CommentLines t)
  = good ++ bad :: rest ->
  Forall
    (fun intf =>
       exists a, UniverseType (ParseFullyQualifiedName intf) = Some a
                 /\ Type_.Kind (mem a) = Kind.Interface) good ->
  (UniverseType (ParseFullyQualifiedName bad) = None ->
   DeepCopyableInterfaces t = Failure (UnknownType bad))
  /\ (forall a,
        UniverseType (ParseFullyQualifiedName bad) = Some a ->
        Type_.Kind (mem a) <> Kind.Interface ->
        DeepCopyableInterfaces t
        = Failure (NotAnInterface bad (ParseFullyQualifiedName bad))).
Proof.
  intros Hk Htag Hgood. unfold DeepCopyableInterfaces, deepCopyableInterfaces.
  rewrite Hk, Htag, (resolveInterfaces_first_failure good bad rest [] Hgood). simpl.
  split.
  - by intros ->.
  - intros a -> Hne. destruct (Kind.eqb (Type_.Kind (mem a)) Kind.Interface) eqn:Hkb;
      [by apply Kind_eqb_eq in Hkb|done].
Qed.

(** ** The slice of types *)

Lemma StronglySorted_lookup {A : Type} (R : A -> A -> Prop) (l : list A) (i j : nat)
    (a b : A) :
  StronglySorted R l -> i < j -> l !! i = Some a -> l !! j = Some b -> R a b.
Proof.
  intros Hl. revert i j. induction Hl as [|x l Hl IH Hx]; intros i j Hij Hi Hj.
  - done.
  - destruct j as [|j]; [lia|]. destruct i as [|i]; simpl in *.
    + injection Hi as ->. rewrite List.Forall_forall in Hx. apply Hx.
      apply list_elem_of_In. by eapply list_elem_of_lookup_2.
    + apply (IH i j); [lia|done..].
Qed.

(** X16.  [Swap] panics on an index out of range and nowhere else; it
    exchanges the two elements and leaves the others and the length as they
    are, so the slice after it is a permutation of the slice before; the
    same [Swap] once more restores the slice, and [Less] after the exchange
    is [Less] before it with the indices exchanged. *)
Theorem TypeSlice_Swap_spec (s : list nat) (i j : nat) :
  (TypeSlice_Len s <= i \/ TypeSlice_Len s <= j -> TypeSlice_Swap s i j = Panic)
  /\ (i < TypeSlice_Len s -> j < TypeSlice_Len s ->
      exists s',
        TypeSlice_Swap s i j = Ok s'
        /\ TypeSlice_Len s' = TypeSlice_Len s
        /\ s' ≡ₚ s
        /\ s' !! i = s !! j
        /\ s' !! j = s !! i
        /\ (forall k, k <> i -> k <> j -> s' !! k = s !! k)
        /\ TypeSlice_Swap s' i j = Ok s
        /\ TypeSlice_Less s' i j = TypeSlice_Less s j i).
Proof.
  unfold TypeSlice_Len, TypeSlice_Swap, TypeSlice_Less. split.
  - intros [H|H]; apply lookup_ge_None_2 in H; rewrite H; [done|by destruct (s !! i)].
  - intros Hi Hj.
    destruct (lookup_lt_is_Some_2 s i Hi) as [a Ha].
    destruct (lookup_lt_is_Some_2 s j Hj) as [b Hb].
    rewrite Ha, Hb. eexists. split; [done|].
    assert (<[j:=a]> (<[i:=b]> s) !! j = Some a) as Hj'
      by (apply list_lookup_insert_eq; by rewrite length_insert).
    assert (<[j:=a]> (<[i:=b]> s) !! i = Some b) as Hi'.
    { destruct (decide (i = j)) as [->|Hne]; [congruence|].
      rewrite list_lookup_insert_ne by done. by apply list_lookup_insert_eq. }
    split; [by rewrite !length_insert|].
    split; [by apply Permutation_insert_swap|].
    split; [done|]. split; [done|].
    split; [intros k Hki Hkj; by rewrite !list_lookup_insert_ne by done|].
    rewrite Hi', Hj'. split; [|done]. f_equal.
    apply list_eq. intros k.
    destruct (decide (k = j)) as [->|Hkj].
    + rewrite list_lookup_insert_eq by (by rewrite !length_insert). done.
    + rewrite list_lookup_insert_ne by done.
      destruct (decide (k = i)) as [->|Hki].
      * rewrite list_lookup_insert_eq by (by rewrite !length_insert). done.
      * by rewrite !list_lookup_insert_ne by done.
Qed.

(** X17.  On the indices of the slice [Less] is a strict weak order, as
    sorting needs: no element is less than itself, two elements are never
    less than each other, [Less] is transitive, and two elements neither of
    which is less than the other have the same [String()]. *)
Theorem TypeSlice_Less_order (s : list nat) (i j k : nat) (a b : nat) :
  s !! i = Some a -> s !! j = Some b -> is_Some (s !! k) ->
  TypeSlice_Less s i i = Ok false
  /\ (TypeSlice_Less s i j = Ok true -> TypeSlice_Less s j i = Ok false)
  /\ (TypeSlice_Less s i j = Ok true -> TypeSlice_Less s j k = Ok true ->
      TypeSlice_Less s i k = Ok true)
  /\ (TypeSlice_Less s i j = Ok false -> TypeSlice_Less s j i = Ok false ->
      TypeString (mem a) = TypeString (mem b)).
Proof.
  intros Ha Hb [c Hc]. unfold TypeSlice_Less, Less. rewrite Ha, Hb, Hc.
  split; [by rewrite ltb_irrefl|]. split; [|split].
  - intros [= H]. by rewrite (ltb_asym _ _ H).
  - intros [= H1] [= H2]. by rewrite (ltb_trans _ _ _ H1 H2).
  - intros [= H1] [= H2].
    destruct (ltb_total (TypeString (mem a)) (TypeString (mem b))) as [?|[?|?]];
      congruence.
Qed.

(** X18.  [Sort] keeps the elements of the slice and its length, and
    leaves no element at a larger index less than one at a smaller
    index. *)
Theorem TypeSlice_Sort_sorted (s : list nat) :
  Sort s ≡ₚ s
  /\ TypeSlice_Len (Sort s) = TypeSlice_Len s
  /\ forall i j,
       i < j -> j < TypeSlice_Len s -> TypeSlice_Less (Sort s) j i = Ok false.
Proof.
  pose proof (Sort_perm s) as Hperm. split; [done|].
  unfold TypeSlice_Len. split; [by rewrite Hperm|].
  intros i j Hij Hj. rewrite <- Hperm in Hj.
  destruct (lookup_lt_is_Some_2 (Sort s) j Hj) as [b Hb].
  destruct (lookup_lt_is_Some_2 (Sort s) i ltac:(lia)) as [a Ha].
  unfold TypeSlice_Less. rewrite Ha, Hb. f_equal.
  exact (StronglySorted_lookup _ _ i j a b (Sort_sorted s) Hij Ha Hb).
Qed.

(** ** The routines of a type, continued *)

Lemma endsWith_append (suffix pre tail : string) :
  String.length suffix <= String.length tail ->
  endsWith suffix (pre ++ tail) = endsWith suffix tail.
Proof.
  intros Hlen. induction pre as [|c pre IH]; [done|].
  rewrite append_String.
  change (String.eqb suffix (String c (pre ++ tail)) || endsWith suffix (pre ++ tail)
          = endsWith suffix tail).
  rewrite IH.
  assert (String.eqb suffix (String c (pre ++ tail)) = false) as ->; [|done].
  apply String.eqb_neq. intros ->. simpl in Hlen. rewrite length_append in Hlen. lia.
Qed.

Lemma opens_adapter_doc (name : string) :
  opens ("// DeepCopy" ++ name ++ " is an autogenerated deepcopy function, copying the receiver, creating a new $.type2|raw$.\n") = 0.
Proof.
  unfold opens. rewrite !endsWith_append; [done|simpl; lia|].
  rewrite length_append. simpl. lia.
Qed.

Lemma opens_adapter_decl (pre name : string) :
  opens (pre ++ name ++ "() $.type2|raw$ {\n") = 1.
Proof.
  unfold opens. rewrite !endsWith_append; [done|simpl; lia|].
  rewrite length_append. simpl. lia.
Qed.

Lemma net_generateInterface (t : Type_.t) (nonPointerReceiver : bool) (intf : Type_.t)
    (d : nat) :
  netGen d d (generateInterface t nonPointerReceiver intf).
Proof.
  unfold generateInterface.
  eapply net_bind; [apply net_Do_plain; [reflexivity|apply opens_adapter_doc]|intros _].
  destruct nonPointerReceiver;
    (eapply net_bind; [apply net_Do_open; [reflexivity|apply opens_adapter_decl]|intros _]);
    repeat net_step.
Qed.

Lemma net_GenerateType (fuel : nat) (g : genDeepCopy) (t : Type_.t) (d : nat) :
  netGen d d (GenerateType fuel g t).
Proof.
  unfold GenerateType, generateDeepCopyInto, generateDeepCopy, generateInterfaces.
  cbv zeta.
  repeat first [apply net_generateFor
               | apply net_forEach; intros ?; apply net_generateInterface
               | net_step].
Qed.

(** X19.  Whatever [GenerateType] writes, every block that it opens is
    closed again, and no block is closed that was not opened. *)
Theorem GenerateType_balanced (fuel : nat) (g : genDeepCopy) (t : Type_.t)
    (e : option error) (w : list snippet) :
  GenerateType fuel g t = Ok (e, w) -> balanced w.
Proof. apply netGen_balanced. intros d. apply net_GenerateType. Qed.

Lemma generateInterfaces_error (t : Type_.t) (e : option error) (w : list snippet)
    (err : error) :
  DeepCopyableInterfaces t = Failure err ->
  generateInterfaces t = Ok (e, w) ->
  e = Some err /\ w = [].
Proof. unfold generateInterfaces. intros ->. by intros [= <- <-]. Qed.

(** X20.  When [DeepCopyableInterfaces] fails for a type that needs
    generation, [GenerateType] returns its error.  By then the routines
    of the type are written: the error leaves out the adapters only. *)
Theorem GenerateType_error (fuel : nat) (g : genDeepCopy) (t : Type_.t)
    (e : option error) (w : list snippet) (err : error) :
  GenerateType fuel g t = Ok (e, w) ->
  needsGeneration g t = Ok true ->
  DeepCopyableInterfaces t = Failure err ->
  e = Some err
  /\ (exists w1 w2,
        generateDeepCopyInto fuel g t = Ok (tt, w1)
        /\ generateDeepCopy t = Ok (tt, w2)
        /\ w = w1 ++ w2)
  /\ (Type_.Methods t !! "DeepCopyInto" = None ->
      In (Do_ deepCopyIntoDecl (argsFromType [t])) w)
  /\ (Type_.Methods t !! "DeepCopy" = None ->
      In (Do_ deepCopyDecl (argsFromType [t])) w).
Proof.
  unfold GenerateType. intros H Hneeded Herr.
  rewrite Hneeded in H. cbn [lift negb] in H. rewrite gbind_ret_l in H.
  apply gbind_Ok_inv in H as ([] & w1 & w' & Hinto & H & ->).
  apply gbind_Ok_inv in H as ([] & w2 & w3 & Hcopy & H & ->).
  apply (generateInterfaces_error t _ _ err Herr) in H. destruct H as [-> ->].
  rewrite app_nil_r. split; [done|]. split; [by exists w1, w2|]. split.
  - intros Hm. apply in_or_app. left. revert Hinto. unfold generateDeepCopyInto.
    rewrite Hm. cbv zeta. rewrite bool_decide_eq_false_2 by (by intros [? ?]).
    simpl negb. cbv iota. intros Hinto.
    apply gbind_Ok_inv in Hinto as ([] & ? & ? & [= <-] & Hinto & ->).
    apply gbind_Ok_inv in Hinto as ([] & ? & ? & [= <-] & _ & ->).
    right. by left.
  - intros Hm. apply in_or_app. right. revert Hcopy. unfold generateDeepCopy.
    rewrite Hm. cbv zeta. rewrite bool_decide_eq_false_2 by (by intros [? ?]).
    intros [= <-]. right. by left.
Qed.

(** X22.  [GenerateType] tests only whether the type has a method named
    [DeepCopy], not its signature: also when the method does not have the
    signature that [hasDeepCopyMethod] asks for, no routine [DeepCopy] is
    written and the routine [DeepCopyInto] written is the wrapper that
    calls the method. *)
Theorem GenerateType_method_presence (fuel : nat) (g : genDeepCopy) (t : Type_.t)
    (a : nat) (sg : Signature.t) (receiver : nat) :
  needsGeneration g t = Ok true ->
  hasDeepCopyMethod t = Ok false ->
  Type_.Methods t !! "DeepCopy" = Some (Some a) ->
  Type_.Methods t !! "DeepCopyInto" = None ->
  Type_.Signature (mem a) = Some sg ->
  Signature.Receiver sg = Some receiver ->
  exists e adapters,
    GenerateType fuel g t
    = Ok (e,
          [Do_ "// DeepCopyInto is an autogenerated deepcopy function, copying the receiver, writing into out. in must be non-nil.\n" (argsFromType [t]);
           Do_ deepCopyIntoDecl (argsFromType [t])]
          ++ (if Kind.eqb (Type_.Kind (mem receiver)) Kind.Pointer
              then [Do_ "clone := in.DeepCopy()\n" ArgNil;
                    Do_ "*out = *clone\n" ArgNil]
              else [Do_ "*out = in.DeepCopy()\n" ArgNil])
          ++ [Do_ "return\n" ArgNil; Do_ "}\n\n" ArgNil]
          ++ adapters)
    /\ Forall (fun s => format s <> deepCopyDecl /\ format s <> deepCopyIntoDecl) adapters.
Proof.
  intros Hneeded _ Hm Hinto Hsig Hr.
  destruct (generateInterfaces_written t) as (e & wi & Hi & Hne & _).
  exists e, wi. split; [|done].
  unfold GenerateType. rewrite Hneeded. cbn [lift negb]. rewrite gbind_ret_l.
  assert (generateDeepCopy t = Ok (tt, [])) as Hcopy.
  { unfold generateDeepCopy. by rewrite Hm. }
  unfold generateDeepCopyInto. rewrite Hinto, Hm, Hcopy, Hi. simpl.
  rewrite Hsig. simpl. rewrite Hr. simpl.
  destruct (Kind.eqb (Type_.Kind (mem receiver)) Kind.Pointer); reflexivity.
Qed.

(** ** The synthesizer, continued *)

Ltac writes_something H :=
  exfalso; unfold Do in H; simpl in H;
  repeat match type of H with
         | context [match ?x with _ => _ end] => destruct x as [[? ?]| | |]; simpl in H
         end;
  discriminate H.

Lemma doStructMember_silent (generateFor' : Type_.t -> Gen unit) (m : Member.t) :
  doStructMember generateFor' m = Ok (tt, [])
  <-> exists t0 t,
        deref (Member.Type_ m) = Ok t0
        /\ hasDeepCopyMethod t0 = Ok false
        /\ unwrapAlias t0 = Ok t
        /\ Type_.Kind t = Kind.Builtin.
Proof.
  unfold doStructMember. split.
  - destruct (deref (Member.Type_ m)) as [t0| | |] eqn:Hd; cbn [lift]; [|discriminate..].
    rewrite gbind_ret_l.
    destruct (hasDeepCopyMethod t0) as [hasMethod| | |] eqn:Hh; cbn [lift];
      [|discriminate..].
    rewrite gbind_ret_l.
    destruct (unwrapAlias t0) as [t| | |] eqn:Hu; cbn [lift]; [|discriminate..].
    rewrite gbind_ret_l. intros H. exists t0, t.
    destruct (Type_.Kind t) eqn:Hk; destruct hasMethod;
      try done; try destruct (IsAssignable t); writes_something H.
  - intros (t0 & t & Hd & Hh & Hu & Hk).
    rewrite Hd. cbn [lift]. rewrite gbind_ret_l, Hh. cbn [lift].
    rewrite gbind_ret_l, Hu. cbn [lift]. by rewrite gbind_ret_l, Hk.
Qed.

Lemma concat_nil_inv {A : Type} (ls : list (list A)) :
  concat ls = [] -> Forall (fun l => l = []) ls.
Proof.
  induction ls as [|l ls IH]; [constructor|]. simpl.
  intros H. apply app_eq_nil in H as [-> H]. constructor; [done|by apply IH].
Qed.

Lemma flat_map_nil {A B : Type} (l : list A) : flat_map (fun _ => @nil B) l = [].
Proof. induction l as [|x l IH]; [done|exact IH]. Qed.

(** X23.  The simple copy covers the fields of builtin kind: the code of a
    struct without method of its own is the assignment of the whole struct
    and nothing else exactly when every field is, behind its alias if it is
    one, of builtin kind and has no method [DeepCopy] of the right
    signature. *)
Theorem struct_of_builtin_fields (fuel : nat) (g : genDeepCopy) (s : Type_.t) :
  Type_.Kind s = Kind.Struct ->
  hasDeepCopyMethod s = Ok false ->
  generateFor (S fuel) g s = Ok (tt, [Do_ "*out = *in\n" ArgNil])
  <-> Forall
        (fun m =>
           exists t0 t,
             deref (Member.Type_ m) = Ok t0
             /\ hasDeepCopyMethod t0 = Ok false
             /\ unwrapAlias t0 = Ok t
             /\ Type_.Kind t = Kind.Builtin)
        (Type_.Members s).
Proof.
  intros Hk Hh. rewrite generateFor_S, Hk. unfold doStruct. rewrite Hh.
  cbn [lift]. rewrite gbind_ret_l. cbv iota. split.
  - intros H. apply gbind_Ok_inv in H as ([] & w1 & w2 & [= <-] & H & [= Hw]).
    symmetry in Hw. subst w2.
    apply forEach_Ok_inv in H as (codes & Hcodes & Hall).
    symmetry in Hcodes. apply concat_nil_inv in Hcodes.
    revert Hcodes. induction Hall as [|m code ms codes Hm _ IH]; [constructor|].
    intros Hcodes. inversion Hcodes as [|?? -> Hrest]; subst.
    constructor; [by apply (doStructMember_silent (generateFor fuel g))|by apply IH].
  - intros Hall.
    rewrite (forEach_Ok _ _ (fun _ => [])).
    + by rewrite flat_map_nil.
    + intros m Hm. rewrite List.Forall_forall in Hall.
      by apply doStructMember_silent, Hall.
Qed.

Lemma copyableType_true_inv (t : Type_.t) :
  copyableType t = Ok true ->
  exists ttag,
    extractTag (Type_.CommentLines t) = Ok ttag
    /\ Type_.Kind t = Kind.Struct
    /\ IsPrivateGoName (Name.Name (Type_.Name t)) = false.
Proof.
  unfold copyableType.
  destruct (extractTag (Type_.CommentLines t)) as [ttag| | |]; simpl; try discriminate.
  destruct (tagIs ttag "false"); [discriminate|].
  destruct (Kind.eqb (Type_.Kind t) Kind.Struct) eqn:Hk; simpl; [|discriminate].
  destruct (IsPrivateGoName _); [discriminate|].
  intros _. exists ttag. split; [done|]. split; [by apply Kind_eqb_eq|done].
Qed.

(** X24.  In a map whose key type is assignable, the values of a type
    that is a copyable struct, has no method [DeepCopy], is no anonymous
    struct and is not assignable are copied through their routine
    [DeepCopyInto] when the package of the struct is rooted under a
    bounding directory, and through [DeepCopy] when it is not. *)
Theorem doMap_struct_values (g : genDeepCopy) (t key elem : Type_.t) :
  deref (Type_.Key t) = Ok key ->
  IsAssignable key = true ->
  deref (Type_.Elem t) = Ok elem ->
  hasDeepCopyMethod elem = Ok false ->
  IsAnonymousStruct elem = false ->
  IsAssignable elem = false ->
  copyableType elem = Ok true ->
  doMap g t
  = Ok (tt,
        [Do_ "*out = make($.|raw$, len(*in))\n" (ArgType t);
         Do_ "for key, val := range *in {\n" ArgNil]
        ++ (if isRootedUnder (Name.Package (Type_.Name elem)) (boundingDirs g)
            then [Do_ "newVal := new($.|raw$)\n" (ArgType elem);
                  Do_ "val.DeepCopyInto(newVal)\n" ArgNil;
                  Do_ "(*out)[key] = *newVal\n" ArgNil]
            else [Do_ "(*out)[key] = *val.DeepCopy()\n" (ArgType elem)])
        ++ [Do_ "}\n" ArgNil]).
Proof.
  intros Hkey Hka Helem Hh Han Has Hc.
  destruct (copyableType_true_inv elem Hc) as (ttag & Htag & Hk & Hp).
  unfold doMap, copyableAndInBounds. rewrite Hkey. simpl. rewrite Hka, Helem. simpl.
  rewrite Hh. simpl. rewrite Han, Has, Hk, Hc. simpl.
  by destruct (isRootedUnder _ _).
Qed.

(** X25.  In a map whose key type is assignable and whose value type has
    no method [DeepCopy], is no anonymous struct, is not assignable and is
    no interface, the synthesizer reads the directive of the value type:
    when that directive is one for which [extractTag] aborts, the code for
    the map is not written and the run aborts with the same error. *)
Theorem doMap_value_directive_fatal (g : genDeepCopy) (t key elem : Type_.t) (f : fatal) :
  deref (Type_.Key t) = Ok key ->
  IsAssignable key = true ->
  deref (Type_.Elem t) = Ok elem ->
  hasDeepCopyMethod elem = Ok false ->
  IsAnonymousStruct elem = false ->
  IsAssignable elem = false ->
  Type_.Kind elem <> Kind.Interface ->
  extractTag (Type_.CommentLines elem) = Fatal f ->
  doMap g t = Fatal f
  /\ (Type_.Kind t = Kind.Map -> forall fuel, generateFor (S fuel) g t = Fatal f).
Proof.
  intros Hkey Hka Helem Hh Han Has Hk Htag.
  assert (doMap g t = Fatal f) as Hmap.
  { unfold doMap, copyableAndInBounds, copyableType.
    rewrite Hkey. simpl. rewrite Hka, Helem. simpl.
    rewrite Hh. simpl. rewrite Han, Has, Htag.
    by destruct (Type_.Kind elem). }
  split; [done|]. intros Hkt fuel. by rewrite generateFor_S, Hkt.
Qed.

(** X26.  An alias is not supported as the type to copy, for which the
    synthesizer writes the marker only, but it is as the type of a field:
    a field whose type is an alias of a map, slice or pointer type is
    copied under the test against nil by the code of the underlying type,
    which keeps the name of the alias. *)
Theorem alias_field_unwrapped (fuel : nat) (g : genDeepCopy) (m : Member.t)
    (t0 u : Type_.t) :
  deref (Member.Type_ m) = Ok t0 ->
  Type_.Kind t0 = Kind.Alias ->
  hasDeepCopyMethod t0 = Ok false ->
  deref (Type_.Underlying t0) = Ok u ->
  Type_.Kind u = Kind.Map \/ Type_.Kind u = Kind.Slice \/ Type_.Kind u = Kind.Pointer ->
  let t := Type_.withName (Type_.Name t0) u in
  generateFor (S fuel) g t0
  = Ok (tt, [Do_ "// FIXME: Type $.|raw$ is unsupported.\n" (ArgType t0)])
  /\ doStructMember (generateFor fuel g) m
     = (Do "if in.$.name$ != nil {\n" (ArgMember t (Type_.Kind u) (Member.Name m)) ;;;
        Do "in, out := &in.$.name$, &out.$.name$\n"
           (ArgMember t (Type_.Kind u) (Member.Name m)) ;;;
        generateFor fuel g t ;;;
        Do "}\n" ArgNil).
Proof.
  intros Hm Hk Hh Hu Hku t. split.
  - by rewrite generateFor_S, Hk.
  - assert (unwrapAlias t0 = Ok t) as Hun.
    { unfold unwrapAlias. by rewrite Hk, Hu. }
    by rewrite (doStructMember_reference _ m t0 t Hm Hh Hun Hku).
Qed.

(** ** The template arguments *)

Lemma pretty_N_go_nonempty (x : N) (s : string) : s <> "" -> pretty_N_go x s <> "".
Proof.
  revert s. induction (N.lt_wf_0 x) as [x _ IH]; intros s Hs.
  assert (x = 0 \/ 0 < x)%N as [->|Hx] by lia.
  - by rewrite pretty_N_go_0.
  - rewrite pretty_N_go_step by done. apply IH; [by apply N.div_lt|done].
Qed.

Lemma pretty_nat_nonempty (n : nat) : pretty n <> "".
Proof.
  unfold pretty, pretty_nat, pretty, pretty_N.
  destruct (decide (N.of_nat n = 0%N)) as [|Hn]; [done|].
  rewrite pretty_N_go_step by lia. by apply pretty_N_go_nonempty.
Qed.

Lemma typeKey_inj (i j : nat) : typeKey i = typeKey j -> i = j.
Proof.
  unfold typeKey. intros H. apply String.app_inj in H.
  apply pretty_nat_inj in H. lia.
Qed.

Lemma typeKey_ne_type (i : nat) : typeKey i <> "type".
Proof.
  unfold typeKey. intros H.
  change "type" with ("type" ++ "")%string in H at 2.
  apply String.app_inj in H. by apply pretty_nat_nonempty in H.
Qed.

Lemma typeArgs_fold (ts : list Type_.t) (n : nat) (acc : gmap string Type_.t) :
  let r := fold_left (fun a it => <[typeKey (fst it) := snd it]> a)
             (imap (fun i t => (n + i, t)) ts) acc in
  (forall i, i < length ts -> r !! typeKey (n + i) = ts !! i)
  /\ (forall k, (forall i, i < length ts -> k <> typeKey (n + i)) -> r !! k = acc !! k).
Proof.
  revert n acc. induction ts as [|t ts IH]; intros n acc r.
  - split; [simpl; lia|done].
  - subst r. simpl.
    rewrite (imap_ext _ (fun i t' => (S n + i, t')))
      by (intros i x _; unfold compose; f_equal; lia).
    destruct (IH (S n) (<[typeKey (n + 0) := t]> acc)) as [IH1 IH2].
    split.
    + intros [|i] Hi.
      * rewrite IH2.
        -- by rewrite lookup_insert_eq.
        -- intros j _ H. apply typeKey_inj in H. lia.
      * replace (n + S i) with (S n + i) by lia. apply IH1. simpl in Hi. lia.
    + intros k Hk. rewrite IH2.
      * rewrite lookup_insert_ne; [done|]. intros <-. by apply (Hk 0); [simpl; lia|].
      * intros i Hi. replace (S n + i) with (n + S i) by lia. apply Hk. simpl. lia.
Qed.

(** X27.  [argsFromType] panics without types.  Otherwise the template
    arguments are the first type under "type" and the type at every
    position, counted from one, under "type" followed by the position, and
    nothing else: "type" and "type1" name the same type. *)
Theorem typeArgs_lookup (ts : list Type_.t) :
  (ts = [] -> typeArgs ts = Panic)
  /\ (ts <> [] ->
      exists a,
        typeArgs ts = Ok a
        /\ a !! "type" = ts !! 0
        /\ (forall i, a !! typeKey i = ts !! i)
        /\ (forall k, is_Some (a !! k) ->
                      k = "type" \/ exists i, i < length ts /\ k = typeKey i)).
Proof.
  split; [by intros ->|]. intros Hne.
  assert (exists ts0, ts !! 0 = Some ts0
                      /\ typeArgs ts
                         = Ok (fold_left (fun a it => <[typeKey (fst it) := snd it]> a)
                                 (imap (fun i t => (0 + i, t)) ts) {[ "type" := ts0 ]}))
    as (ts0 & Hts0 & ->).
  { destruct ts as [|ts0 ts']; [done|]. exists ts0. split; [done|].
    reflexivity. }
  eexists. split; [done|].
  destruct (typeArgs_fold ts 0 {[ "type" := ts0 ]}) as [H1 H2]. cbv zeta in H1, H2.
  split; [|split].
  - rewrite H2; [by rewrite lookup_singleton_eq|].
    intros i _ H. symmetry in H. by apply typeKey_ne_type in H.
  - intros i. destruct (decide (i < length ts)) as [Hi|Hi].
    + by apply (H1 i).
    + rewrite H2.
      * rewrite lookup_singleton_ne by (intros H; symmetry in H; by apply typeKey_ne_type in H).
        symmetry. apply lookup_ge_None_2. lia.
      * intros j Hj H. apply typeKey_inj in H. simpl in H. lia.
  - intros k Hk.
    destruct (decide (k = "type")) as [|Hkt]; [by left|right].
    destruct (decide (Exists (fun i => k = typeKey i) (seq 0 (length ts)))) as [Hex|Hno].
    + apply List.Exists_exists in Hex as (i & Hi & ->). apply in_seq in Hi.
      exists i. split; [lia|done].
    + exfalso. rewrite H2 in Hk.
      * rewrite lookup_singleton_ne in Hk by done. by destruct Hk.
      * intros i Hi ->. apply Hno. apply List.Exists_exists. exists i.
        split; [apply in_seq; lia|done].
Qed.

(** ** The declared functions *)

Lemma writesOnly_bind {A B : Type} (P : snippet -> Prop) (m : Gen A) (k : A -> Gen B) :
  writesOnly P m -> (forall a, writesOnly P (k a)) -> writesOnly P (gbind m k).
Proof.
  intros Hm Hk b w H. apply gbind_Ok_inv in H as (a & w1 & w2 & H1 & H2 & ->).
  apply Forall_app. split; [by eapply Hm|by eapply Hk].
Qed.

Lemma writesOnly_lift {A : Type} (P : snippet -> Prop) (m : outcome A) :
  writesOnly P (lift m).
Proof. intros a w H. apply lift_Ok_inv in H as [_ ->]. constructor. Qed.

Lemma writesOnly_gret {A : Type} (P : snippet -> Prop) (a : A) : writesOnly P (gret a).
Proof. intros a' w [= _ <-]. constructor. Qed.

Lemma writesOnly_Do (P : snippet -> Prop) (fmt : string) (a : arg) :
  P (Do_ fmt a) -> writesOnly P (Do fmt a).
Proof. intros HP [] w [= <-]. by constructor. Qed.

Lemma writesOnly_forEach {A : Type} (P : snippet -> Prop) (l : list A) (f : A -> Gen unit) :
  (forall x, writesOnly P (f x)) -> writesOnly P (forEach l f).
Proof.
  intros Hf. induction l as [|x l IH]; [apply writesOnly_gret|].
  simpl. apply writesOnly_bind; [apply Hf|by intros _].
Qed.

Ltac only_step :=
  match goal with
  | |- writesOnly _ (gbind (lift _) _) =>
      apply writesOnly_bind; [apply writesOnly_lift | intros ?]
  | |- writesOnly _ (gbind _ _) => apply writesOnly_bind; [ | intros ?]
  | |- writesOnly _ (Do _ _) => apply writesOnly_Do; reflexivity
  | |- writesOnly _ (gret _) => apply writesOnly_gret
  | |- writesOnly _ (if ?c then _ else _) => destruct c
  | |- writesOnly _ (match ?x with _ => _ end) => destruct x
  end.

Lemma doMap_no_func (g : genDeepCopy) (t : Type_.t) :
  writesOnly (fun s => declaresFunc s = false) (doMap g t).
Proof. unfold doMap. repeat only_step. Qed.

Lemma doSlice_no_func (generateFor' : Type_.t -> Gen unit) (t : Type_.t) :
  (forall t', writesOnly (fun s => declaresFunc s = false) (generateFor' t')) ->
  writesOnly (fun s => declaresFunc s = false) (doSlice generateFor' t).
Proof. intros IH. unfold doSlice. repeat first [apply IH | only_step]. Qed.

Lemma doStructMember_no_func (generateFor' : Type_.t -> Gen unit) (m : Member.t) :
  (forall t', writesOnly (fun s => declaresFunc s = false) (generateFor' t')) ->
  writesOnly (fun s => declaresFunc s = false) (doStructMember generateFor' m).
Proof. intros IH. unfold doStructMember. repeat first [apply IH | only_step]. Qed.

Lemma doStruct_no_func (generateFor' : Type_.t -> Gen unit) (t : Type_.t) :
  (forall t', writesOnly (fun s => declaresFunc s = false) (generateFor' t')) ->
  writesOnly (fun s => declaresFunc s = false) (doStruct generateFor' t).
Proof.
  intros IH. unfold doStruct.
  repeat first [apply writesOnly_forEach; intros ?; by apply doStructMember_no_func
               | only_step].
Qed.

Lemma doPointer_no_func (generateFor' : Type_.t -> Gen unit) (t : Type_.t) :
  (forall t', writesOnly (fun s => declaresFunc s = false) (generateFor' t')) ->
  writesOnly (fun s => declaresFunc s = false) (doPointer generateFor' t).
Proof. intros IH. unfold doPointer. repeat first [apply IH | only_step]. Qed.

Lemma generateFor_no_func (fuel : nat) (g : genDeepCopy) (t : Type_.t) :
  writesOnly (fun s => declaresFunc s = false) (generateFor fuel g t).
Proof.
  revert t. induction fuel as [|fuel IH]; intros t; [by intros a w H|].
  rewrite generateFor_S.
  destruct (Type_.Kind t);
    first [apply doMap_no_func | by apply doSlice_no_func | by apply doStruct_no_func
          | by apply doPointer_no_func | apply writesOnly_Do; reflexivity].
Qed.

Lemma filter_no_func (w : list snippet) :
  Forall (fun s => declaresFunc s = false) w -> List.filter declaresFunc w = [].
Proof. induction 1 as [|s w Hs _ IH]; [done|]. simpl. by rewrite Hs. Qed.

(** The declaration of the adapter of a type for the interface [intf]. *)
Lemma generateInterface_declares (t : Type_.t) (nonPointerReceiver : bool) (intf : Type_.t)
    (w : list snippet) :
  generateInterface t nonPointerReceiver intf = Ok (tt, w) ->
  List.filter declaresFunc w
  = [Do_ ((if nonPointerReceiver then "func (in $.type|raw$) DeepCopy"
           else "func (in *$.type|raw$) DeepCopy")
          ++ Name.Name (Type_.Name intf) ++ "() $.type2|raw$ {\n")%string
         (argsFromType [t; intf])].
Proof.
  rewrite generateInterface_written. intros [= <-]. by destruct nonPointerReceiver.
Qed.

Lemma generateDeepCopyInto_declares (fuel : nat) (g : genDeepCopy) (t : Type_.t)
    (w : list snippet) :
  generateDeepCopyInto fuel g t = Ok (tt, w) ->
  List.filter declaresFunc w
  = if bool_decide (is_Some (Type_.Methods t !! "DeepCopyInto")) then []
    else [Do_ deepCopyIntoDecl (argsFromType [t])].
Proof.
  unfold generateDeepCopyInto. cbv zeta.
  destruct (bool_decide (is_Some (Type_.Methods t !! "DeepCopyInto")));
    cbn [negb]; [by intros [= <-]|].
  intros H.
  apply gbind_Ok_inv in H as ([] & ? & w1 & [= <-] & H & ->).
  apply gbind_Ok_inv in H as ([] & ? & w2 & [= <-] & H & ->).
  apply gbind_Ok_inv in H as ([] & body & w3 & Hbody & [= <-] & ->).
  assert (Forall (fun s => declaresFunc s = false) body) as Hno.
  { revert Hbody.
    assert (writesOnly (fun s => declaresFunc s = false)
              (if bool_decide (is_Some (Type_.Methods t !! "DeepCopy"))
               then
                 gbind
                   (lift
                      (let* mt := deref (default None (Type_.Methods t !! "DeepCopy")) in
                       match Type_.Signature mt with
                       | Some sig => deref (Signature.Receiver sig)
                       | None => Panic
                       end))
                   (fun receiver =>
                      gbind
                        (if Kind.eqb (Type_.Kind receiver) Kind.Pointer
                         then gbind (Do "clone := in.DeepCopy()\n" ArgNil)
                                (fun _ => Do "*out = *clone\n" ArgNil)
                         else Do "*out = in.DeepCopy()\n" ArgNil)
                        (fun _ => Do "return\n" ArgNil))
               else gbind (generateFor fuel g t) (fun _ => Do "return\n" ArgNil))) as Hw.
    { repeat first [apply generateFor_no_func | only_step]. }
    intros Hbody. by eapply Hw. }
  simpl. rewrite List.filter_app, (filter_no_func body Hno). done.
Qed.

(** X28.  The functions that [GenerateType] declares for a type are, in
    this order: [DeepCopyInto] unless the type has a method of that name,
    [DeepCopy] unless the type has a method of that name, and one adapter
    for each interface that [DeepCopyableInterfaces] returns; nothing that
    the synthesizer writes in between declares a function. *)
Theorem GenerateType_declares (fuel : nat) (g : genDeepCopy) (t : Type_.t)
    (e : option error) (w : list snippet) (intfs : list nat) (nonPointerReceiver : bool) :
  needsGeneration g t = Ok true ->
  DeepCopyableInterfaces t = Success (intfs, nonPointerReceiver) ->
  GenerateType fuel g t = Ok (e, w) ->
  List.filter declaresFunc w
  = (if bool_decide (is_Some (Type_.Methods t !! "DeepCopyInto")) then []
     else [Do_ deepCopyIntoDecl (argsFromType [t])])
    ++ (if bool_decide (is_Some (Type_.Methods t !! "DeepCopy")) then []
        else [Do_ deepCopyDecl (argsFromType [t])])
    ++ List.map
         (fun intf =>
            Do_ ((if nonPointerReceiver then "func (in $.type|raw$) DeepCopy"
                  else "func (in *$.type|raw$) DeepCopy")
                 ++ Name.Name (Type_.Name (mem intf)) ++ "() $.type2|raw$ {\n")%string
                (argsFromType [t; mem intf]))
         intfs.
Proof.
  intros Hneeded Hintfs H. unfold GenerateType in H. rewrite Hneeded in H.
  cbn [lift negb] in H. rewrite gbind_ret_l in H.
  apply gbind_Ok_inv in H as ([] & w1 & w' & Hinto & H & ->).
  apply gbind_Ok_inv in H as ([] & w2 & w3 & Hcopy & H & ->).
  rewrite !List.filter_app, (generateDeepCopyInto_declares fuel g t w1 Hinto).
  f_equal. f_equal.
  - revert Hcopy. unfold generateDeepCopy. cbv zeta.
    destruct (bool_decide (is_Some (Type_.Methods t !! "DeepCopy"))); by intros [= <-].
  - destruct (generateInterfaces_written t) as (e' & wi & He & _ & Hw).
    rewrite He in H. injection H as <- <-.
    destruct (Hw _ _ Hintfs) as [_ ->].
    clear. induction intfs as [|a intfs IH]; [done|].
    simpl. rewrite List.filter_app, IH. f_equal.
    destruct (generateInterface t nonPointerReceiver (mem a)) as [[[] wa]| | |] eqn:Ha;
      [|by rewrite generateInterface_written in Ha..].
    by rewrite (generateInterface_declares _ _ _ _ Ha).
Qed.

(** ** The method of the user *)

Lemma Name_eqb_eq (a b : Name.t) : Name.eqb a b = true <-> a = b.
Proof.
  unfold Name.eqb. rewrite !andb_true_iff, !String.eqb_eq.
  destruct a, b; simpl. split; [by intros [[-> ->] ->]|by intros [= -> -> ->]].
Qed.

(** X29.  [hasDeepCopyMethod] answers true exactly for a type with a
    method named [DeepCopy] that takes no parameter and has one result
    whose type has the name of the type itself; a type without method of
    that name gets false, as does a method that returns a pointer to the
    type or takes a parameter. *)
Theorem hasDeepCopyMethod_spec (t : Type_.t) :
  (hasDeepCopyMethod t = Ok true
   <-> exists a sg r,
         Type_.Methods t !! "DeepCopy" = Some (Some a)
         /\ Type_.Signature (mem a) = Some sg
         /\ Signature.Parameters sg = []
         /\ Signature.Results sg = [Some r]
         /\ Type_.Name (mem r) = Type_.Name t)
  /\ (Type_.Methods t !! "DeepCopy" = None -> hasDeepCopyMethod t = Ok false)
  /\ (forall a sg,
        Type_.Methods t !! "DeepCopy" = Some (Some a) ->
        Type_.Signature (mem a) = Some sg ->
        Signature.Parameters sg <> [] ->
        hasDeepCopyMethod t = Ok false)
  /\ (forall a sg r,
        Type_.Methods t !! "DeepCopy" = Some (Some a) ->
        Type_.Signature (mem a) = Some sg ->
        Signature.Results sg = [Some r] ->
        Type_.Name (mem r) <> Type_.Name t ->
        hasDeepCopyMethod t = Ok false).
Proof.
  split; [split|].
  - intros H. destruct (hasDeepCopyMethod_true_inv t H) as (a & sg & Hm & Hs & Hp & r & Hr & Hn).
    exists a, sg, r. by rewrite <- Name_eqb_eq.
  - intros (a & sg & r & Hm & Hs & Hp & Hr & Hn). unfold hasDeepCopyMethod.
    rewrite Hm. simpl. rewrite Hs, Hp, Hr. simpl.
    apply Name_eqb_eq in Hn. by rewrite Hn.
  - unfold hasDeepCopyMethod. split; [by intros ->|]. split.
    + intros a sg -> Hs Hp. simpl. rewrite Hs. by destruct (Signature.Parameters sg).
    + intros a sg r -> Hs Hr Hn. simpl. rewrite Hs, Hr.
      destruct (Signature.Parameters sg); [|done]. simpl.
      destruct (Name.eqb _ _) eqn:He; [by apply Name_eqb_eq in He|done].
Qed.

(** ** The elements of a slice *)

(** X30.  The elements of a slice that are structs are copied through
    their routine [DeepCopyInto], whatever the bounding directories are
    and whether or not the struct is copyable, unlike the values of a
    map. *)
Theorem doSlice_struct_elements (fuel : nat) (g : genDeepCopy) (t elem : Type_.t) :
  Type_.Kind t = Kind.Slice ->
  hasDeepCopyMethod t = Ok false ->
  deref (Type_.Elem t) = Ok elem ->
  hasDeepCopyMethod elem = Ok false ->
  IsAssignable elem = false ->
  Type_.Kind elem = Kind.Struct ->
  generateFor (S fuel) g t
  = Ok (tt,
        [Do_ "*out = make($.|raw$, len(*in))\n" (ArgType t);
         Do_ "for i := range *in {\n" ArgNil;
         Do_ "(*in)[i].DeepCopyInto(&(*out)[i])\n" ArgNil;
         Do_ "}\n" ArgNil]).
Proof.
  intros Hk Hh He Hhe Ha Hke. rewrite generateFor_S, Hk. unfold doSlice.
  rewrite Hh, He. simpl. rewrite Hhe. simpl. by rewrite Hke, Ha.
Qed.

End Generator.

(** * The generator on the small universe *)

Import Fixtures.

(** C6: the four cases of [extractTag_by_occurrences] on comment blocks
    without the tag, with one well-formed tag, with one tag that has an
    unsupported sub-option, and with two tags. *)
Lemma extractTag_by_occurrences_witness :
  extractTag lineTags ["a comment"] = Ok None
  /\ extractTag lineTags ["+k8s:deepcopy-gen=true,register"]
     = Ok (Some (mkTagValue "true" true))
  /\ extractTag lineTags ["+k8s:deepcopy-gen=true,register,foo=bar"]
     = Fatal (UnsupportedParam "foo=bar")
  /\ extractTag lineTags ["+k8s:deepcopy-gen=true"; "+k8s:deepcopy-gen=false"]
     = Fatal (FoundTags 2 ["true"; "false"]).
Proof.
  split; [|split; [|split]].
  - apply (proj1 (extractTag_by_occurrences lineTags ["a comment"])).
    reflexivity.
  - apply (proj1 (proj2 (extractTag_by_occurrences lineTags
                           ["+k8s:deepcopy-gen=true,register"]))
             "true,register" "true" ["register"]); reflexivity.
  - apply (proj1 (proj2 (proj2 (extractTag_by_occurrences lineTags
                           ["+k8s:deepcopy-gen=true,register,foo=bar"])))
             "true,register,foo=bar" "true" ["register"] "foo=bar" []); reflexivity.
  - apply (proj2 (proj2 (proj2 (extractTag_by_occurrences lineTags
                           ["+k8s:deepcopy-gen=true"; "+k8s:deepcopy-gen=false"])))
             ["true"; "false"]); [reflexivity | simpl; lia].
Defined.

(** C6 as stated fails: the tag occurs once and no directive is returned,
    the run aborts on the sub-option [foo=bar]. *)
Lemma extractTag_once_not_returned :
  lineTags "+" ["+k8s:deepcopy-gen=true,foo=bar"] tagName = Some ["true,foo=bar"]
  /\ extractTag lineTags ["+k8s:deepcopy-gen=true,foo=bar"]
     = Fatal (UnsupportedParam "foo=bar")
  /\ ~ (exists tag, extractTag lineTags ["+k8s:deepcopy-gen=true,foo=bar"] = Ok tag).
Proof.
  split; [reflexivity|]. split; [reflexivity|].
  intros [tag H]. vm_compute in H. discriminate H.
Qed.

(** C10: [Plain] carries a directive of value "package" and aborts the
    emission; [Bare] has no directive and follows the package mode. *)
Lemma needsGeneration_directive_value_witness :
  needsGeneration lineTags generateAll tPlain
  = Fatal (TypeUnsupportedValue (named "Plain") "package")
  /\ needsGeneration lineTags generateAll tBare = Ok true
  /\ needsGeneration lineTags optInOnly tBare = Ok false.
Proof.
  split; [|split].
  - apply (proj1 (needsGeneration_directive_value lineTags generateAll tPlain)
             (mkTagValue "package" false)); [reflexivity | discriminate | discriminate].
  - apply (proj2 (needsGeneration_directive_value lineTags generateAll tBare)).
    reflexivity.
  - apply (proj2 (needsGeneration_directive_value lineTags optInOnly tBare)).
    reflexivity.
Defined.

(** C3: [Labels] is opted in and is no struct.  Scanned before any other
    opted-in type of a package without directive it aborts the run; in a
    package generated as a whole the filter leaves it out. *)
Lemma optin_not_copyable_witness :
  considerPackage mem lineTags lowerCasePrivate [pkgPath] pkgPath pkgOptInBadFirst
  = Fatal (TypeNotCopyable (named "Labels"))
  /\ Filter lineTags lowerCasePrivate generateAll tLabels = Ok (false, generateAll).
Proof.
  pose proof (optin_not_copyable mem lineTags lowerCasePrivate [pkgPath] pkgPath
                pkgOptInBadFirst [Some 15] [Some 1] 10 (mkTagValue "true" false)
                eq_refl eq_refl (or_introl eq_refl)) as [Hscan Hfilter].
  split.
  - apply Hscan; reflexivity.
  - apply Hfilter. reflexivity.
Defined.

(** C3 as stated fails: [Labels] is opted in and is no struct, and the run
    does not abort, neither when its package is generated as a whole nor
    when a copyable opted-in type precedes it in the scan. *)
Lemma optin_not_copyable_no_abort :
  extractTag lineTags (Type_.CommentLines tLabels) = Ok (Some (mkTagValue "true" false))
  /\ copyableType lineTags lowerCasePrivate tLabels = Ok false
  /\ In (Some 10) (Types pkgGenerateAll)
  /\ considerPackage mem lineTags lowerCasePrivate [pkgPath] pkgPath pkgGenerateAll
     = Ok (Some generateAll)
  /\ Filter lineTags lowerCasePrivate generateAll tLabels = Ok (false, generateAll)
  /\ needsGeneration lineTags generateAll tLabels = Ok true
  /\ In (Some 10) (Types pkgOptIn)
  /\ considerPackage mem lineTags lowerCasePrivate [pkgPath] pkgPath pkgOptIn
     = Ok (Some optInOnly).
Proof.
  split; [reflexivity|]. split; [reflexivity|]. split; [simpl; tauto|].
  split; [reflexivity|]. split; [reflexivity|]. split; [reflexivity|].
  split; [simpl; tauto | reflexivity].
Qed.

(** C4: a package with the directive "package", a package whose scan finds
    the opted-in [Node] after a type without directive, and the emission
    of [Node] and of [Bare] outside generate-all mode. *)
Lemma package_mode_witness :
  considerPackage mem lineTags lowerCasePrivate [pkgPath] pkgPath pkgGenerateAll
  = Ok (Some generateAll)
  /\ considerPackage mem lineTags lowerCasePrivate [pkgPath] pkgPath pkgTaggedTrue
     = Fatal (PackageUnsupportedValue pkgPath "true")
  /\ considerPackage mem lineTags lowerCasePrivate [pkgPath] pkgPath pkgOptIn
     = Ok (Some optInOnly)
  /\ considerPackage mem lineTags lowerCasePrivate [pkgPath] pkgPath
       (mkPackage pkgPath [] [Some 15; Some 0])
     = Ok None
  /\ needsGeneration lineTags optInOnly tNode = Ok true.
Proof.
  split; [|split; [|split; [|split]]].
  - apply (proj1 (package_mode mem lineTags lowerCasePrivate [pkgPath] pkgPath
                    pkgGenerateAll) (mkTagValue "package" false)); reflexivity.
  - apply (proj1 (proj2 (package_mode mem lineTags lowerCasePrivate [pkgPath] pkgPath
                           pkgTaggedTrue)) (mkTagValue "true" false));
      [reflexivity | discriminate].
  - apply (proj1 (proj1 (proj2 (proj2 (package_mode mem lineTags lowerCasePrivate
                                         [pkgPath] pkgPath pkgOptIn))) eq_refl)
             [Some 15] 1 (mkTagValue "true" false) [Some 10]); reflexivity.
  - apply (proj2 (proj1 (proj2 (proj2 (package_mode mem lineTags lowerCasePrivate
                                         [pkgPath] pkgPath
                                         (mkPackage pkgPath [] [Some 15; Some 0])))) eq_refl)).
    reflexivity.
  - apply (proj1 (proj2 (proj2 (proj2 (package_mode mem lineTags lowerCasePrivate
                                         [pkgPath] pkgPath pkgOptIn)))
                    optInOnly tNode (Some (mkTagValue "true" false)) eq_refl eq_refl)).
    reflexivity.
Defined.

(** C4 as stated fails: the package-level directive is present with the
    value "true", the scan of the types would find the opted-in [Node], and
    the run aborts instead of scanning. *)
Lemma package_mode_other_value_aborts :
  extractTag lineTags (Comments pkgTaggedTrue) = Ok (Some (mkTagValue "true" false))
  /\ scanTypes mem lineTags lowerCasePrivate (Types pkgTaggedTrue) = Ok true
  /\ considerPackage mem lineTags lowerCasePrivate [pkgPath] pkgPath pkgTaggedTrue
     = Fatal (PackageUnsupportedValue pkgPath "true").
Proof. split; [reflexivity|]. split; reflexivity. Qed.

Abbreviation exGenerateFor :=
  (generateFor mem lineTags builtinAssignable noAnonymousStruct lowerCasePrivate).
Abbreviation exGenerateType :=
  (GenerateType mem lineTags builtinAssignable noAnonymousStruct lowerCasePrivate
     parseName universeType nameString canonicalRange).
Abbreviation exDoMap :=
  (doMap mem lineTags builtinAssignable noAnonymousStruct lowerCasePrivate).

Lemma mem_wf (a : nat) : wfNode mem lineTags (mem a) = true.
Proof. do 24 (destruct a as [|a]; [reflexivity|]). reflexivity. Qed.

Lemma mem_sliceDepth (a : nat) : sliceDepth mem 2 (mem a) = true.
Proof. do 24 (destruct a as [|a]; [reflexivity|]). reflexivity. Qed.

(** C1: the allocating copy written for [Grid] tests its receiver, and the
    code of the slice of slices [Rows] copies each row under a test of the
    row against nil. *)
Lemma nil_preservation_witness :
  (exists e w pre post,
      exGenerateType 3 generateAll tGrid = Ok (e, w)
      /\ w = pre
             ++ [Do_ "// DeepCopy is an autogenerated deepcopy function, copying the receiver, creating a new $.type|raw$.\n" (argsFromType [tGrid]);
                 Do_ deepCopyDecl (argsFromType [tGrid]);
                 Do_ "if in == nil { return nil }\n" ArgNil;
                 Do_ "out := new($.type|raw$)\n" (argsFromType [tGrid]);
                 Do_ "in.DeepCopyInto(out)\n" ArgNil;
                 Do_ "return out\n" ArgNil;
                 Do_ "}\n\n" ArgNil]
             ++ post)
  /\ exGenerateFor 2 generateAll tSliceOfSlices
     = Ok (tt,
           [Do_ "*out = make($.|raw$, len(*in))\n" (ArgType tSliceOfSlices);
            Do_ "for i := range *in {\n" ArgNil;
            Do_ "if (*in)[i] != nil {\n" ArgNil;
            Do_ "in, out := &(*in)[i], &(*out)[i]\n" ArgNil;
            Do_ "*out = make($.|raw$, len(*in))\n" (ArgType tSliceOfStrings);
            Do_ "copy(*out, *in)\n" ArgNil;
            Do_ "}\n" ArgNil;
            Do_ "}\n" ArgNil])
  /\ exGenerateFor 1 generateAll tMapOfPtrs
     = Ok (tt,
           [Do_ "*out = make($.|raw$, len(*in))\n" (ArgType tMapOfPtrs);
            Do_ "for key, val := range *in {\n" ArgNil;
            Do_ "if val==nil { (*out)[key]=nil } else {\n" ArgNil;
            Do_ "(*out)[key] = new($.Elem|raw$)\n" (ArgType tPtrString);
            Do_ "val.DeepCopyInto((*out)[key])\n" ArgNil;
            Do_ "}\n" ArgNil;
            Do_ "}\n" ArgNil]).
Proof.
  pose proof (nil_preservation mem lineTags builtinAssignable noAnonymousStruct
                lowerCasePrivate parseName universeType nameString canonicalRange)
    as Hthm.
  split; [|split].
  - destruct (exGenerateType 3 generateAll tGrid) as [[e w]| | |] eqn:H;
      [|vm_compute in H; discriminate H..].
    destruct (proj1 (Hthm 3 generateAll) tGrid e w eq_refl eq_refl H) as (pre & post & Hw).
    by exists e, w, pre, post.
  - apply (proj2 (proj1 (proj2 (proj2 (proj2 (proj2 (Hthm 1 generateAll)))))
                    tSliceOfSlices tSliceOfStrings
                    [Do_ "*out = make($.|raw$, len(*in))\n" (ArgType tSliceOfStrings);
                     Do_ "copy(*out, *in)\n" ArgNil]
                    eq_refl eq_refl eq_refl eq_refl eq_refl eq_refl eq_refl)).
  - apply (proj1 (proj2 (proj2 (proj2 (proj2 (proj2 (proj2 (Hthm 0 generateAll))))))
                    tMapOfPtrs tString tPtrString None
                    eq_refl eq_refl eq_refl eq_refl eq_refl eq_refl eq_refl eq_refl)).
    reflexivity.
Defined.

(** C1 as stated fails: the values of the map [M] of [Holder] are maps, and
    the code written for them calls [DeepCopy] on the value without any
    test of the value against nil. *)
Lemma nested_map_value_unguarded :
  Type_.Kind tMapOfMaps = Kind.Map
  /\ deref mem (Type_.Elem tMapOfMaps) = Ok tMapStringString
  /\ Type_.Kind tMapStringString = Kind.Map
  /\ exDoMap generateAll tMapOfMaps
     = Ok (tt,
           [Do_ "*out = make($.|raw$, len(*in))\n" (ArgType tMapOfMaps);
            Do_ "for key, val := range *in {\n" ArgNil;
            Do_ "(*out)[key] = *val.DeepCopy()\n" (ArgType tMapStringString);
            Do_ "}\n" ArgNil])
  /\ (forall w, exGenerateFor 3 generateAll tHolder = Ok (tt, w) ->
                In (Do_ "(*out)[key] = *val.DeepCopy()\n" (ArgType tMapStringString)) w
                /\ existsb (fun s => elementNilTest (format s)) w = false).
Proof.
  split; [reflexivity|]. split; [reflexivity|]. split; [reflexivity|].
  split; [reflexivity|].
  intros w H. vm_compute in H. injection H as <-.
  split; [simpl; tauto | reflexivity].
Qed.


(** C5: [Node] refers to itself through the pointer [Next]; its synthesis
    returns with any fuel from 5 on, and the code of [Next] calls the
    in-place routine of [Node]. *)
Lemma self_reference_terminates_witness :
  (exists w, forall fuel, 5 <= fuel -> exGenerateFor fuel generateAll tNode = Ok (tt, w))
  /\ doStructMember mem builtinAssignable (exGenerateFor 1 generateAll)
       (Member.mk "Next" (Some 2))
     = Ok (tt,
           [Do_ "if in.$.name$ != nil {\n" (ArgMember tPtrNode Kind.Pointer "Next");
            Do_ "in, out := &in.$.name$, &out.$.name$\n"
                (ArgMember tPtrNode Kind.Pointer "Next");
            Do_ "if *in == nil { *out = nil } else {\n" (ArgType tPtrNode);
            Do_ "*out = new($.Elem|raw$)\n" (ArgType tPtrNode);
            Do_ "(*in).DeepCopyInto(*out)\n" ArgNil;
            Do_ "}" (ArgType tPtrNode);
            Do_ "}\n" ArgNil]).
Proof.
  destruct (self_reference_terminates mem lineTags builtinAssignable noAnonymousStruct
              lowerCasePrivate 2 generateAll tNode mem_wf mem_sliceDepth eq_refl eq_refl)
    as (Hterm & _ & Hptr & _).
  split; [exact Hterm|].
  apply (Hptr 0 (Member.mk "Next" (Some 2)) tPtrNode tNode);
    first [reflexivity | discriminate].
Defined.

(** C5 as stated fails: [Grid] reaches itself through [Next]; the pointee
    of its member [Owner] has no method of its own, and the code of [Owner]
    copies the pointee by an assignment, without any call of an in-place
    routine; the code of its member [Rows] is expanded in line through two
    levels of slices. *)
Lemma pointer_member_without_call :
  In (Member.mk "Next" (Some 21)) (Type_.Members tGrid)
  /\ Type_.Elem (mem 21) = Some 19
  /\ mem 19 = tGrid
  /\ In (Member.mk "Owner" (Some 9)) (Type_.Members tGrid)
  /\ Type_.Kind (mem 9) = Kind.Pointer
  /\ deref mem (Type_.Elem (mem 9)) = Ok tString
  /\ hasDeepCopyMethod mem tString = Ok false
  /\ doStructMember mem builtinAssignable (exGenerateFor 4 generateAll)
       (Member.mk "Owner" (Some 9))
     = Ok (tt,
           [Do_ "if in.$.name$ != nil {\n" (ArgMember tPtrString Kind.Pointer "Owner");
            Do_ "in, out := &in.$.name$, &out.$.name$\n"
                (ArgMember tPtrString Kind.Pointer "Owner");
            Do_ "if *in == nil { *out = nil } else {\n" (ArgType tPtrString);
            Do_ "*out = new($.Elem|raw$)\n" (ArgType tPtrString);
            Do_ "**out = **in" ArgNil;
            Do_ "}" (ArgType tPtrString);
            Do_ "}\n" ArgNil])
  /\ doStructMember mem builtinAssignable (exGenerateFor 4 generateAll)
       (Member.mk "Rows" (Some 17))
     = Ok (tt,
           [Do_ "if in.$.name$ != nil {\n" (ArgMember tSliceOfSlices Kind.Slice "Rows");
            Do_ "in, out := &in.$.name$, &out.$.name$\n"
                (ArgMember tSliceOfSlices Kind.Slice "Rows");
            Do_ "*out = make($.|raw$, len(*in))\n" (ArgType tSliceOfSlices);
            Do_ "for i := range *in {\n" ArgNil;
            Do_ "if (*in)[i] != nil {\n" ArgNil;
            Do_ "in, out := &(*in)[i], &(*out)[i]\n" ArgNil;
            Do_ "*out = make($.|raw$, len(*in))\n" (ArgType tSliceOfStrings);
            Do_ "copy(*out, *in)\n" ArgNil;
            Do_ "}\n" ArgNil;
            Do_ "}\n" ArgNil;
            Do_ "}\n" ArgNil]).
Proof.
  split; [simpl; tauto|]. split; [reflexivity|]. split; [reflexivity|].
  split; [simpl; tauto|]. split; [reflexivity|]. split; [reflexivity|].
  split; [reflexivity|]. split; vm_compute; reflexivity.
Qed.

(** C8: the adapter of [Shape] for [Cloneable] has a pointer receiver, as
    [Shape] carries no tag of the non-pointer receivers; the adapter of
    [Value] for [Cloneable] has a non-pointer receiver, as its tag is
    "true". *)
Lemma adapter_nil_translation_witness :
  (exists e w pre post,
     exGenerateType 3 generateAll tShape = Ok (e, w)
     /\ w = pre
            ++ [Do_ "// DeepCopyCloneable is an autogenerated deepcopy function, copying the receiver, creating a new $.type2|raw$.\n"
                    (argsFromType [tShape; tCloneable]);
                Do_ "func (in *$.type|raw$) DeepCopyCloneable() $.type2|raw$ {\n"
                    (argsFromType [tShape; tCloneable]);
                Do_ "if c := in.DeepCopy(); c != nil {\n" ArgNil;
                Do_ "return c\n" ArgNil;
                Do_ "}\n" ArgNil;
                Do_ "return nil\n" ArgNil;
                Do_ "}\n\n" ArgNil]
            ++ post)
  /\ (exists e w pre post,
        exGenerateType 3 generateAll tValue = Ok (e, w)
        /\ w = pre
               ++ [Do_ "// DeepCopyCloneable is an autogenerated deepcopy function, copying the receiver, creating a new $.type2|raw$.\n"
                       (argsFromType [tValue; tCloneable]);
                   Do_ "func (in $.type|raw$) DeepCopyCloneable() $.type2|raw$ {\n"
                       (argsFromType [tValue; tCloneable]);
                   Do_ "return *in.DeepCopy()" ArgNil;
                   Do_ "}\n\n" ArgNil]
               ++ post).
Proof.
  split.
  - destruct (exGenerateType 3 generateAll tShape) as [[e w]| | |] eqn:H;
      [|vm_compute in H; discriminate H..].
    assert (needsGeneration lineTags generateAll tShape = Ok true) as Hneeded
      by (vm_compute; reflexivity).
    assert (DeepCopyableInterfaces mem lineTags parseName universeType nameString
              canonicalRange tShape = Success ([6; 16], false)) as Hintfs
      by (vm_compute; reflexivity).
    destruct (adapter_nil_translation mem lineTags builtinAssignable noAnonymousStruct
                lowerCasePrivate parseName universeType nameString canonicalRange
                3 generateAll tShape e w [6; 16] false 6 H Hneeded Hintfs
                (or_introl eq_refl)) as [Hpointer _].
    destruct Hpointer as (pre & post & Hw); [vm_compute; constructor|].
    exists e, w, pre, post. split; [reflexivity | exact Hw].
  - destruct (exGenerateType 3 generateAll tValue) as [[e w]| | |] eqn:H;
      [|vm_compute in H; discriminate H..].
    assert (needsGeneration lineTags generateAll tValue = Ok true) as Hneeded
      by (vm_compute; reflexivity).
    assert (DeepCopyableInterfaces mem lineTags parseName universeType nameString
              canonicalRange tValue = Success ([6], true)) as Hintfs
      by (vm_compute; reflexivity).
    destruct (adapter_nil_translation mem lineTags builtinAssignable noAnonymousStruct
                lowerCasePrivate parseName universeType nameString canonicalRange
                3 generateAll tValue e w [6] true 6 H Hneeded Hintfs
                (or_introl eq_refl)) as [_ Hvalue].
    destruct Hvalue as (pre & post & Hw).
    + vm_compute. discriminate.
    + vm_compute. repeat constructor.
    + exists e, w, pre, post. split; [reflexivity | exact Hw].
Defined.

(** C9: the keys of the map [Tags] of [Shape] are pointers; its code is the
    stub, between the code of [Owner] and the code of [Label].  As the
    value type of a map with string keys, the same map gets no code of its
    own. *)
Lemma unassignable_key_stub_witness :
  exDoMap generateAll tMapPtrKey
  = Ok (tt,
        [Do_ "*out = make($.|raw$, len(*in))\n" (ArgType tMapPtrKey);
         Do_ "for range *in {\n" ArgNil;
         Do_ "// FIXME: Copying unassignable keys unsupported $.|raw$\n" (ArgType tPtrNode);
         Do_ "}\n" ArgNil])
  /\ exGenerateFor 3 generateAll tShape
     = Ok (tt,
           [Do_ "*out = *in\n" ArgNil]
           ++ [Do_ "if in.$.name$ != nil {\n" (ArgMember tPtrString Kind.Pointer "Owner");
               Do_ "in, out := &in.$.name$, &out.$.name$\n"
                   (ArgMember tPtrString Kind.Pointer "Owner");
               Do_ "if *in == nil { *out = nil } else {\n" (ArgType tPtrString);
               Do_ "*out = new($.Elem|raw$)\n" (ArgType tPtrString);
               Do_ "**out = **in" ArgNil;
               Do_ "}" (ArgType tPtrString);
               Do_ "}\n" ArgNil]
           ++ [Do_ "if in.$.name$ != nil {\n" (ArgMember tMapPtrKey Kind.Map "Tags");
               Do_ "in, out := &in.$.name$, &out.$.name$\n"
                   (ArgMember tMapPtrKey Kind.Map "Tags")]
           ++ [Do_ "*out = make($.|raw$, len(*in))\n" (ArgType tMapPtrKey);
               Do_ "for range *in {\n" ArgNil;
               Do_ "// FIXME: Copying unassignable keys unsupported $.|raw$\n"
                   (ArgType tPtrNode);
               Do_ "}\n" ArgNil]
           ++ [Do_ "}\n" ArgNil]
           ++ [])
  /\ exDoMap generateAll tMapOfKeyed
     = Ok (tt,
           [Do_ "*out = make($.|raw$, len(*in))\n" (ArgType tMapOfKeyed);
            Do_ "for key, val := range *in {\n" ArgNil;
            Do_ "(*out)[key] = *val.DeepCopy()\n" (ArgType tMapPtrKey);
            Do_ "}\n" ArgNil]).
Proof.
  destruct (unassignable_key_stub mem lineTags builtinAssignable noAnonymousStruct
              lowerCasePrivate generateAll tMapPtrKey tPtrNode eq_refl eq_refl)
    as (Hstub & _ & Hstruct & _ & Hvalue & _).
  split; [exact Hstub|]. split.
  - apply (Hstruct 1 tShape [Member.mk "Owner" (Some 9)] (Member.mk "Tags" (Some 8))
             [Member.mk "Label" (Some 0)]); reflexivity.
  - destruct (extractTag lineTags (Type_.CommentLines tMapPtrKey)) as [ttag| | |] eqn:Htag;
      [|vm_compute in Htag; discriminate Htag..].
    apply (Hvalue tMapOfKeyed tString ttag); solve [reflexivity | exact Htag].
Defined.

(** C9 as stated fails: the keys of the values of a map of type
    [map[string]map[*Node]string], and of the elements of a slice of type
    [[]map[*Node]string], are pointers, and the code written for the map
    and for the slice holds no marker: the values and the elements are
    copied by a call of [DeepCopy]. *)
Lemma nested_unassignable_key_without_stub :
  Type_.Kind tMapPtrKey = Kind.Map
  /\ deref mem (Type_.Key tMapPtrKey) = Ok tPtrNode
  /\ builtinAssignable tPtrNode = false
  /\ deref mem (Type_.Elem tMapOfKeyed) = Ok tMapPtrKey
  /\ deref mem (Type_.Elem tSliceOfKeyed) = Ok tMapPtrKey
  /\ exGenerateFor 2 generateAll tMapOfKeyed
     = Ok (tt,
           [Do_ "*out = make($.|raw$, len(*in))\n" (ArgType tMapOfKeyed);
            Do_ "for key, val := range *in {\n" ArgNil;
            Do_ "(*out)[key] = *val.DeepCopy()\n" (ArgType tMapPtrKey);
            Do_ "}\n" ArgNil])
  /\ exGenerateFor 2 generateAll tSliceOfKeyed
     = Ok (tt,
           [Do_ "*out = make($.|raw$, len(*in))\n" (ArgType tSliceOfKeyed);
            Do_ "for i := range *in {\n" ArgNil;
            Do_ "(*out)[i] = (*in)[i].DeepCopy()\n" ArgNil;
            Do_ "}\n" ArgNil])
  /\ (forall fuel w,
        exGenerateFor fuel generateAll tMapOfKeyed = Ok (tt, w)
        \/ exGenerateFor fuel generateAll tSliceOfKeyed = Ok (tt, w) ->
        Forall (fun s =>
                  format s <> "// FIXME: Copying unassignable keys unsupported $.|raw$\n")
               w).
Proof.
  do 7 (split; [reflexivity|]).
  intros [|fuel] w [H|H]; try discriminate H.
  - change (exDoMap generateAll tMapOfKeyed = Ok (tt, w)) in H.
    vm_compute in H. injection H as <-. repeat constructor; discriminate.
  - destruct fuel as [|fuel]; vm_compute in H; injection H as <-;
      repeat constructor; discriminate.
Qed.

(** C7: [Shape] declares [Runnable], [Cloneable] and [Runnable] again; the
    adapters are those of [Cloneable] and [Runnable], in this order. *)
Lemma interfaces_deduplicated_sorted_witness :
  deepCopyableInterfaces mem lineTags parseName universeType tShape = Success [16; 6; 16]
  /\ DeepCopyableInterfaces mem lineTags parseName universeType nameString canonicalRange
       tShape
     = Success ([6; 16], false)
  /\ ascending mem nameString [6; 16]
  /\ Sort mem nameString [16; 6] = [6; 16].
Proof.
  assert (deepCopyableInterfaces mem lineTags parseName universeType tShape
          = Success [16; 6; 16]) as Hts by (vm_compute; reflexivity).
  assert (DeepCopyableInterfaces mem lineTags parseName universeType nameString
            canonicalRange tShape = Success ([6; 16], false)) as Hintfs
    by (vm_compute; reflexivity).
  split; [exact Hts|]. split; [exact Hintfs|].
  destruct (interfaces_deduplicated_sorted mem lineTags builtinAssignable
              noAnonymousStruct lowerCasePrivate parseName universeType nameString
              canonicalRange tShape [16; 6; 16] [6; 16] false
              (fun set => reflexivity _) Hts Hintfs)
    as (Hasc & _ & _ & Hvisit & _).
  split; [exact Hasc|].
  apply Hvisit. vm_compute. apply Permutation_swap.
Defined.

(** * The further properties on the small universe *)

Abbreviation exGenerateFor' :=
  (generateFor mem' lineTags builtinAssignable noAnonymousStruct lowerCasePrivate).
Abbreviation exGenerateType' :=
  (GenerateType mem' lineTags builtinAssignable noAnonymousStruct lowerCasePrivate
     parseName universeType nameString canonicalRange).
Abbreviation exDeepCopyableInterfaces :=
  (DeepCopyableInterfaces mem lineTags parseName universeType nameString canonicalRange).
Abbreviation exPackages := (Packages mem lineTags lowerCasePrivate universe).

Ltac no_byte :=
  intros H; vm_compute in H; repeat (destruct H as [H|H]; [discriminate H|]); exact H.

(** X2: two bounding directories, one of them with trailing slashes. *)
Lemma packagesBoundingDirs_trimmed_witness :
  packagesBoundingDirs (Some (mkCustomArgs (Some ["example.com/pkg//"; "example.com/api"])))
    (Some ["example.com/other"])
  = (["example.com/pkg"; "example.com/api"],
     Some (mkCustomArgs (Some ["example.com/pkg//"; "example.com/api"])))
  /\ Forall2
       (fun dir bounding =>
          strings.HasSuffix bounding "/" = false
          /\ exists k, dir = (bounding ++ string_of_list_ascii (repeat "/"%char k))%string)
       ["example.com/pkg//"; "example.com/api"]
       ["example.com/pkg"; "example.com/api"].
Proof.
  split; [reflexivity|].
  exact (proj1 (packagesBoundingDirs_trimmed
                  (Some (mkCustomArgs (Some ["example.com/pkg//"; "example.com/api"])))
                  (Some ["example.com/other"]))).
Defined.

(** X5: a vendored package below the output base. *)
Lemma PackagePath_spec_witness :
  PackagePath "k8s.io/api" "/go/src/k8s.io/kubernetes/vendor/k8s.io/api" "/go/src/"
  = "k8s.io/kubernetes/vendor/k8s.io/api".
Proof.
  exact (proj1 (PackagePath_spec "k8s.io/api" "/go/src/k8s.io/kubernetes/vendor/k8s.io/api"
                  "/go/src/")
           "k8s.io/kubernetes/vendor/k8s.io/api" eq_refl).
Defined.

(** X6: [Node] is accepted in generate-all mode and recorded. *)
Lemma Filter_records_accepted_witness :
  exists g',
    Filter lineTags lowerCasePrivate generateAll tNode = Ok (true, g')
    /\ typesForInit g' = [tNode]
    /\ boundingDirs g' = [pkgPath]
    /\ Type_.Kind tNode = Kind.Struct.
Proof.
  destruct (Filter lineTags lowerCasePrivate generateAll tNode) as [[b g']| | |] eqn:H;
    [|vm_compute in H; discriminate H..].
  assert (b = true) as -> by (vm_compute in H; by injection H as <- _).
  destruct (Filter_records_accepted lineTags lowerCasePrivate generateAll g' tNode true H)
    as (_ & Hb & _ & _ & Hi & Hk).
  exists g'. split; [reflexivity|]. split; [exact Hi|]. split; [exact Hb|].
  exact (proj1 (proj2 (Hk eq_refl))).
Defined.

(** X7: [Node] is accepted, and generated. *)
Lemma Filter_accepted_generated_witness :
  Filter lineTags lowerCasePrivate optInOnly tNode
  = Ok (true, mkGenDeepCopy pkgPath [pkgPath] false false [tNode])
  /\ needsGeneration lineTags optInOnly tNode = Ok true.
Proof.
  assert (Filter lineTags lowerCasePrivate optInOnly tNode
          = Ok (true, mkGenDeepCopy pkgPath [pkgPath] false false [tNode])) as H
    by (vm_compute; reflexivity).
  split; [exact H|].
  destruct (Filter_accepted_generated lineTags lowerCasePrivate optInOnly _ tNode H)
    as [Hg|(tag & Hall & _)]; [exact Hg|discriminate Hall].
Defined.

(** X8: three inputs, one of them unknown and one without opted-in type. *)
Lemma Packages_generators_witness :
  exPackages [pkgPath] ["example.com/api"; "example.com/none"; "example.com/other"; pkgPath]
  = Ok [NewGenDeepCopy "example.com/api" [pkgPath] true true;
        NewGenDeepCopy pkgPath [pkgPath] false false]
  /\ Forall (fun g => registerTypes g = true -> allTypes g = true)
       [NewGenDeepCopy "example.com/api" [pkgPath] true true;
        NewGenDeepCopy pkgPath [pkgPath] false false].
Proof.
  assert (exPackages [pkgPath]
            ["example.com/api"; "example.com/none"; "example.com/other"; pkgPath]
          = Ok [NewGenDeepCopy "example.com/api" [pkgPath] true true;
                NewGenDeepCopy pkgPath [pkgPath] false false]) as H
    by (vm_compute; reflexivity).
  split; [exact H|].
  destruct (Packages_generators mem lineTags lowerCasePrivate universe _ _ _ H) as [_ Hall].
  eapply Forall_impl; [exact Hall|]. intros g (_ & _ & Hreg & _). exact Hreg.
Defined.

(** X10: the inputs of X8 in another order. *)
Lemma Packages_any_order_witness :
  exists gs',
    exPackages [pkgPath] [pkgPath; "example.com/api"] = Ok gs'
    /\ [NewGenDeepCopy "example.com/api" [pkgPath] true true;
        NewGenDeepCopy pkgPath [pkgPath] false false] ≡ₚ gs'.
Proof.
  assert (exPackages [pkgPath] ["example.com/api"; pkgPath]
          = Ok [NewGenDeepCopy "example.com/api" [pkgPath] true true;
                NewGenDeepCopy pkgPath [pkgPath] false false]) as H
    by (vm_compute; reflexivity).
  exact (Packages_any_order mem lineTags lowerCasePrivate universe [pkgPath]
           ["example.com/api"; pkgPath] [pkgPath; "example.com/api"] _
           (Permutation_swap _ _ _) H).
Defined.

(** X12: the two tags of [Shape]. *)
Lemma extractInterfacesTag_joined_witness :
  extractInterfacesTag lineTags (Type_.CommentLines tShape)
  = ["example.com/pkg.Runnable"; "example.com/pkg.Cloneable"; "example.com/pkg.Runnable"].
Proof.
  apply (extractInterfacesTag_joined lineTags (Type_.CommentLines tShape)
           [["example.com/pkg.Runnable"; "example.com/pkg.Cloneable"];
            ["example.com/pkg.Runnable"]]).
  - vm_compute. reflexivity.
  - repeat (apply List.Forall_cons || apply List.Forall_nil);
      (split; [discriminate|no_byte]).
Defined.

(** X13: the two contradicting tags of [Wrong], and the absent tag of
    [Shape]. *)
Lemma extractNonPointerInterfaces_spec_witness :
  extractNonPointerInterfaces lineTags (Type_.CommentLines tWrong)
  = Failure (Contradicting "false" true)
  /\ extractNonPointerInterfaces lineTags (Type_.CommentLines tShape) = Success false.
Proof.
  split.
  - apply (proj2 (proj2 (extractNonPointerInterfaces_spec lineTags
                           (Type_.CommentLines tWrong)))
             "true" [] "false" []).
    + vm_compute. reflexivity.
    + apply List.Forall_nil.
    + vm_compute. discriminate.
  - apply (proj1 (extractNonPointerInterfaces_spec lineTags (Type_.CommentLines tShape))).
    vm_compute. reflexivity.
Defined.

(** X14: the interfaces of [Shape]. *)
Lemma DeepCopyableInterfaces_kinds_witness :
  exDeepCopyableInterfaces tShape = Success ([6; 16], false)
  /\ Forall (fun a => Type_.Kind (mem a) = Kind.Interface) [6; 16].
Proof.
  assert (exDeepCopyableInterfaces tShape = Success ([6; 16], false)) as H
    by (vm_compute; reflexivity).
  split; [exact H|].
  exact (proj1 (DeepCopyableInterfaces_kinds mem lineTags parseName universeType nameString
                  canonicalRange tShape [6; 16] false (fun set => reflexivity _) H)).
Defined.

(** X15: [Broken] names an unknown type after an interface, [Wrong] a
    struct, and its contradicting tags do not matter. *)
Lemma DeepCopyableInterfaces_first_failure_witness :
  exDeepCopyableInterfaces tBroken = Failure (UnknownType "example.com/pkg.Missing")
  /\ exDeepCopyableInterfaces tWrong
     = Failure (NotAnInterface "example.com/pkg.Node" (named "Node")).
Proof.
  assert (Forall
            (fun intf =>
               exists a, universeType (parseName intf) = Some a
                         /\ Type_.Kind (mem a) = Kind.Interface)
            ["example.com/pkg.Runnable"]) as Hgood.
  { apply List.Forall_cons; [|apply List.Forall_nil]. exists 16. split; reflexivity. }
  split.
  - apply (proj1 (DeepCopyableInterfaces_first_failure mem lineTags parseName universeType
                    nameString canonicalRange tBroken ["example.com/pkg.Runnable"]
                    "example.com/pkg.Missing" [] eq_refl
                    ltac:(vm_compute; reflexivity) Hgood)).
    vm_compute. reflexivity.
  - apply (proj2 (DeepCopyableInterfaces_first_failure mem lineTags parseName universeType
                    nameString canonicalRange tWrong ["example.com/pkg.Runnable"]
                    "example.com/pkg.Node" [] eq_refl
                    ltac:(vm_compute; reflexivity) Hgood) 1).
    + vm_compute. reflexivity.
    + vm_compute. discriminate.
Defined.

(** X16: the exchange of [Runnable] and [Cloneable]. *)
Lemma TypeSlice_Swap_spec_witness :
  TypeSlice_Swap [16; 6; 1] 0 1 = Ok [6; 16; 1]
  /\ TypeSlice_Swap [16; 6; 1] 0 3 = Panic
  /\ [6; 16; 1] ≡ₚ [16; 6; 1].
Proof.
  split; [reflexivity|]. split.
  - apply (proj1 (TypeSlice_Swap_spec mem nameString [16; 6; 1] 0 3)). right. vm_compute. lia.
  - destruct (proj2 (TypeSlice_Swap_spec mem nameString [16; 6; 1] 0 1)
                ltac:(vm_compute; lia) ltac:(vm_compute; lia))
      as (s' & Hs & _ & Hperm & _).
    injection Hs as <-. exact Hperm.
Defined.

(** X17: [Cloneable] is less than [Runnable], and not the other way
    round. *)
Lemma TypeSlice_Less_order_witness :
  TypeSlice_Less mem nameString [16; 6] 1 0 = Ok true
  /\ TypeSlice_Less mem nameString [16; 6] 0 1 = Ok false.
Proof.
  assert (TypeSlice_Less mem nameString [16; 6] 1 0 = Ok true) as H
    by (vm_compute; reflexivity).
  split; [exact H|].
  exact (proj1 (proj2 (TypeSlice_Less_order mem nameString [16; 6] 1 0 0 6 16
                         eq_refl eq_refl (ex_intro _ 16 eq_refl))) H).
Defined.

(** X19: the code of [Grid]. *)
Lemma GenerateType_balanced_witness :
  exists w, exGenerateType 5 generateAll tGrid = Ok (None, w) /\ balanced w.
Proof.
  destruct (exGenerateType 5 generateAll tGrid) as [[e w]| | |] eqn:H;
    [|vm_compute in H; discriminate H..].
  assert (e = None) as -> by (vm_compute in H; by injection H as <- _).
  exists w. split; [reflexivity|].
  exact (GenerateType_balanced mem lineTags builtinAssignable noAnonymousStruct
           lowerCasePrivate parseName universeType nameString canonicalRange
           5 generateAll tGrid None w H).
Defined.

(** X20: [Wrong] gets its two routines and the error. *)
Lemma GenerateType_error_witness :
  exists w,
    exGenerateType 3 generateAll tWrong
    = Ok (Some (NotAnInterface "example.com/pkg.Node" (named "Node")), w)
    /\ In (Do_ deepCopyIntoDecl (argsFromType [tWrong])) w
    /\ In (Do_ deepCopyDecl (argsFromType [tWrong])) w.
Proof.
  destruct (exGenerateType 3 generateAll tWrong) as [[e w]| | |] eqn:H;
    [|vm_compute in H; discriminate H..].
  assert (needsGeneration lineTags generateAll tWrong = Ok true) as Hneeded
    by (vm_compute; reflexivity).
  assert (exDeepCopyableInterfaces tWrong
          = Failure (NotAnInterface "example.com/pkg.Node" (named "Node")))
    as Herr by (vm_compute; reflexivity).
  destruct (GenerateType_error mem lineTags builtinAssignable noAnonymousStruct
              lowerCasePrivate parseName universeType nameString canonicalRange
              3 generateAll tWrong e w _ H Hneeded Herr)
    as (-> & _ & Hinto & Hcopy).
  exists w. split; [reflexivity|]. split; [by apply Hinto|by apply Hcopy].
Defined.

(** X22: the method [DeepCopy] of [Odd] takes a parameter. *)
Lemma GenerateType_method_presence_witness :
  hasDeepCopyMethod mem' tOdd = Ok false
  /\ exists e adapters,
       exGenerateType' 0 generateAll tOdd
       = Ok (e,
             [Do_ "// DeepCopyInto is an autogenerated deepcopy function, copying the receiver, writing into out. in must be non-nil.\n" (argsFromType [tOdd]);
              Do_ deepCopyIntoDecl (argsFromType [tOdd]);
              Do_ "*out = in.DeepCopy()\n" ArgNil;
              Do_ "return\n" ArgNil;
              Do_ "}\n\n" ArgNil]
             ++ adapters).
Proof.
  assert (hasDeepCopyMethod mem' tOdd = Ok false) as Hh by (vm_compute; reflexivity).
  assert (needsGeneration lineTags generateAll tOdd = Ok true) as Hneeded
    by (vm_compute; reflexivity).
  split; [exact Hh|].
  destruct (GenerateType_method_presence mem' lineTags builtinAssignable noAnonymousStruct
              lowerCasePrivate parseName universeType nameString canonicalRange
              0 generateAll tOdd 25 (Signature.mk (Some 26) [Some 0] [Some 26]) 26
              Hneeded Hh eq_refl eq_refl eq_refl eq_refl) as (e & adapters & H & _).
  exists e, adapters. exact H.
Defined.

(** X23: [Bare] has one field, a string. *)
Lemma struct_of_builtin_fields_witness :
  exGenerateFor 1 generateAll tBare = Ok (tt, [Do_ "*out = *in\n" ArgNil]).
Proof.
  apply (struct_of_builtin_fields mem lineTags builtinAssignable noAnonymousStruct
           lowerCasePrivate 0 generateAll tBare eq_refl eq_refl).
  apply List.Forall_cons; [|apply List.Forall_nil].
  exists tString, tString. split; [reflexivity|]. split; [reflexivity|].
  split; reflexivity.
Defined.

(** X24: a map of [Node]s, inside and outside the bounding directories. *)
Lemma doMap_struct_values_witness :
  exDoMap generateAll tMapOfNodes
  = Ok (tt,
        [Do_ "*out = make($.|raw$, len(*in))\n" (ArgType tMapOfNodes);
         Do_ "for key, val := range *in {\n" ArgNil;
         Do_ "newVal := new($.|raw$)\n" (ArgType tNode);
         Do_ "val.DeepCopyInto(newVal)\n" ArgNil;
         Do_ "(*out)[key] = *newVal\n" ArgNil;
         Do_ "}\n" ArgNil])
  /\ exDoMap (NewGenDeepCopy pkgPath ["example.com/pk"] true false) tMapOfNodes
     = Ok (tt,
           [Do_ "*out = make($.|raw$, len(*in))\n" (ArgType tMapOfNodes);
            Do_ "for key, val := range *in {\n" ArgNil;
            Do_ "(*out)[key] = *val.DeepCopy()\n" (ArgType tNode);
            Do_ "}\n" ArgNil]).
Proof.
  assert (copyableType lineTags lowerCasePrivate tNode = Ok true) as Hc
    by (vm_compute; reflexivity).
  split.
  - exact (doMap_struct_values mem lineTags builtinAssignable noAnonymousStruct
             lowerCasePrivate generateAll tMapOfNodes tString tNode
             eq_refl eq_refl eq_refl eq_refl eq_refl eq_refl Hc).
  - exact (doMap_struct_values mem lineTags builtinAssignable noAnonymousStruct
             lowerCasePrivate (NewGenDeepCopy pkgPath ["example.com/pk"] true false)
             tMapOfNodes tString tNode
             eq_refl eq_refl eq_refl eq_refl eq_refl eq_refl Hc).
Defined.

(** X25: the values of the map have two directives. *)
Lemma doMap_value_directive_fatal_witness :
  exGenerateFor' 1 generateAll tMapOfTwice
  = Fatal (FoundTags 2 ["true"; "false"]).
Proof.
  assert (extractTag lineTags (Type_.CommentLines tTwice)
          = Fatal (FoundTags 2 ["true"; "false"])) as Htag by (vm_compute; reflexivity).
  apply (proj2 (doMap_value_directive_fatal mem' lineTags builtinAssignable
                  noAnonymousStruct lowerCasePrivate generateAll tMapOfTwice tString tTwice
                  _ eq_refl eq_refl eq_refl eq_refl eq_refl eq_refl
                  ltac:(discriminate) Htag) eq_refl 0).
Defined.

(** X26: the field [L] of [Tagged] is of the alias [Labels] of a map. *)
Lemma alias_field_unwrapped_witness :
  exGenerateFor 1 generateAll tLabels
  = Ok (tt, [Do_ "// FIXME: Type $.|raw$ is unsupported.\n" (ArgType tLabels)])
  /\ exGenerateFor 2 generateAll tTagged
     = Ok (tt,
           [Do_ "*out = *in\n" ArgNil;
            Do_ "if in.$.name$ != nil {\n"
                (ArgMember (Type_.withName (named "Labels") tMapStringString) Kind.Map "L");
            Do_ "in, out := &in.$.name$, &out.$.name$\n"
                (ArgMember (Type_.withName (named "Labels") tMapStringString) Kind.Map "L");
            Do_ "*out = make($.|raw$, len(*in))\n"
                (ArgType (Type_.withName (named "Labels") tMapStringString));
            Do_ "for key, val := range *in {\n" ArgNil;
            Do_ "(*out)[key] = val\n" ArgNil;
            Do_ "}\n" ArgNil;
            Do_ "}\n" ArgNil]).
Proof.
  destruct (alias_field_unwrapped mem lineTags builtinAssignable noAnonymousStruct
              lowerCasePrivate 1 generateAll (Member.mk "L" (Some 10)) tLabels
              tMapStringString eq_refl eq_refl eq_refl eq_refl (or_introl eq_refl))
    as [Htop Hfield].
  split; [exact Htop|].
  change (exGenerateFor 2 generateAll tTagged)
    with (gbind (Do "*out = *in\n" ArgNil)
            (fun _ =>
               gbind
                 (doStructMember mem builtinAssignable (exGenerateFor 1 generateAll)
                    (Member.mk "L" (Some 10)))
                 (fun _ => gret tt))).
  rewrite Hfield. vm_compute. reflexivity.
Defined.

(** X27: the arguments of an adapter of [Shape]. *)
Lemma typeArgs_lookup_witness :
  exists a,
    typeArgs [tShape; tCloneable] = Ok a
    /\ a !! "type" = Some tShape
    /\ a !! "type1" = Some tShape
    /\ a !! "type2" = Some tCloneable
    /\ a !! "type3" = None.
Proof.
  destruct (proj2 (typeArgs_lookup [tShape; tCloneable]) ltac:(discriminate))
    as (a & Ha & Htype & Hkeys & _).
  exists a. split; [exact Ha|]. split; [exact Htype|].
  split; [exact (Hkeys 0)|]. split; [exact (Hkeys 1)|exact (Hkeys 2)].
Defined.

(** X28: the functions declared for [Shape]. *)
Lemma GenerateType_declares_witness :
  exists e w,
    exGenerateType 3 generateAll tShape = Ok (e, w)
    /\ List.filter declaresFunc w
       = [Do_ deepCopyIntoDecl (argsFromType [tShape]);
          Do_ deepCopyDecl (argsFromType [tShape]);
          Do_ "func (in *$.type|raw$) DeepCopyCloneable() $.type2|raw$ {\n"
              (argsFromType [tShape; tCloneable]);
          Do_ "func (in *$.type|raw$) DeepCopyRunnable() $.type2|raw$ {\n"
              (argsFromType [tShape; tRunnable])].
Proof.
  destruct (exGenerateType 3 generateAll tShape) as [[e w]| | |] eqn:H;
    [|vm_compute in H; discriminate H..].
  assert (needsGeneration lineTags generateAll tShape = Ok true) as Hneeded
    by (vm_compute; reflexivity).
  assert (exDeepCopyableInterfaces tShape = Success ([6; 16], false)) as Hintfs
    by (vm_compute; reflexivity).
  exists e, w. split; [reflexivity|].
  exact (GenerateType_declares mem lineTags builtinAssignable noAnonymousStruct
           lowerCasePrivate parseName universeType nameString canonicalRange
           3 generateAll tShape e w [6; 16] false Hneeded Hintfs H).
Defined.

(** X29: the method of [Custom] has the signature, the method of [Odd]
    takes a parameter, [Node] has no method. *)
Lemma hasDeepCopyMethod_spec_witness :
  hasDeepCopyMethod mem tCustom = Ok true
  /\ hasDeepCopyMethod mem' tOdd = Ok false
  /\ hasDeepCopyMethod mem tNode = Ok false.
Proof.
  split; [|split].
  - apply (proj1 (hasDeepCopyMethod_spec mem tCustom)).
    exists 12, (Signature.mk (Some 13) [] [Some 11]), 11.
    split; [reflexivity|]. split; [reflexivity|]. split; [reflexivity|].
    split; reflexivity.
  - apply (proj1 (proj2 (proj2 (hasDeepCopyMethod_spec mem' tOdd)))
             25 (Signature.mk (Some 26) [Some 0] [Some 26]) eq_refl eq_refl).
    discriminate.
  - apply (proj1 (proj2 (hasDeepCopyMethod_spec mem tNode))). reflexivity.
Defined.

(** X30: a slice of [Node]s. *)
Lemma doSlice_struct_elements_witness :
  exGenerateFor 1 generateAll tSliceOfNodes
  = Ok (tt,
        [Do_ "*out = make($.|raw$, len(*in))\n" (ArgType tSliceOfNodes);
         Do_ "for i := range *in {\n" ArgNil;
         Do_ "(*in)[i].DeepCopyInto(&(*out)[i])\n" ArgNil;
         Do_ "}\n" ArgNil]).
Proof.
  exact (doSlice_struct_elements mem lineTags builtinAssignable noAnonymousStruct
           lowerCasePrivate 0 generateAll tSliceOfNodes tNode
           eq_refl eq_refl eq_refl eq_refl eq_refl eq_refl).
Defined.
